(** * Verification of the ReID trainer: lib/tracking/deepsort/trainer.py

    The class [Trainer] drives a hyper-parameter sweep: for every run it
    builds a network, trains it for a number of epochs, validates it on the
    last epoch and writes checkpoints.  The control logic is embedded here as
    a state-and-exception monad over an explicit machine state (the fields of
    [self], the file system, the heap of network objects, the names that are
    local to [train] and a trace of the calls made to the collaborators).
    Tensor arithmetic, the Runner (metrics recorder) and the model/dataset
    factories are not part of trainer.py; they are taken as a record of
    operations, [Providers]. *)

From Stdlib Require Import ZArith QArith List Ascii String Lia.
From stdpp Require Import base gmap strings list pretty.

Local Open Scope string_scope.
Local Open Scope list_scope.
Local Open Scope Z_scope.

(** ** Python values that the trainer handles *)

(** A tensor is a flat list of numbers; its length stands for its shape. *)
Definition Tensor : Type := list Q.

(** [net.state_dict()]: parameter name to tensor. *)
Abbreviation StateDict := (gmap string Tensor).

(** [torch.device] *)
Inductive Device : Type :=
| Cpu
| Cuda (index : Z).

(** A [torch.nn.Module] object: parameters, accumulated gradients, the
    train/eval flag and the device it lives on. *)
Record Net : Type := mkNet {
  net_params : StateDict;
  net_grads : option StateDict;
  net_training : bool;
  net_device : Device
}.

(** The objects stored under the key ['net_dict'] of a checkpoint: either a
    mapping from names to tensors or a bound method [obj.name] (pickle stores
    the receiver by value). *)
Inductive PyObj : Type :=
| PStateDict (sd : StateDict)
| PBoundMethod (receiver : Net) (name : string).

(** The dict [{'net_dict': .., 'acc': .., 'epoch': .., 'lr': ..}]. *)
Record Checkpoint : Type := mkCheckpoint {
  ck_net_dict : PyObj;
  ck_acc : Q;
  ck_epoch : Z;
  ck_lr : Q
}.

(** What a path of the file system holds: a pickled checkpoint or bytes that
    [torch.load] cannot unpickle. *)
Inductive File : Type :=
| FCheckpoint (c : Checkpoint)
| FGarbage.

Inductive Exn : Type :=
| NameError (name : string)
| UnboundLocalError (name : string)
| StopIteration
| ZeroDivisionError
| TypeError (what : string)
| ValueError (what : string)
| RuntimeError (what : string)
| UnpicklingError
| FileNotFoundError.

Inductive Res (A : Type) : Type :=
| Ok (a : A)
| Raise (e : Exn).
Arguments Ok {A} a.
Arguments Raise {A} e.

(** ** Configuration (the YAML file read by [parser.YamlParser]) *)

Record DatasetCfg : Type := mkDatasetCfg {
  ds_name : string;
  ds_root : string;
  ds_size : list Z;
  ds_mean : list Q;
  ds_std : list Q;
  ds_batch_size : Z;
  ds_workers : Z
}.

Record TrainCfg : Type := mkTrainCfg {
  tr_epoch : Z;
  tr_save_interval : Z;
  tr_pretrained : string
}.

(** One point of the sweep, a namedtuple built by [RunBuilder].  The two
    flags are read with [getattr(run, name, False)]: they may be absent. *)
Record Run : Type := mkRun {
  run_lr : Q;
  run_optim : string;
  run_reduce_lr : option bool;
  run_gaussian_mask : option bool
}.

Definition getattr_flag (o : option bool) : bool := default false o.

(** [cfg.params]: the lists whose combinations [RunBuilder.get_runs] turns
    into runs; the two flag lists are optional. *)
Record SweepParams : Type := mkSweepParams {
  sp_lr : list Q;
  sp_optim : list string;
  sp_reduce_lr : option (list bool);
  sp_gaussian_mask : option (list bool)
}.

Record Cfg : Type := mkCfg {
  cfg_GPU : Z;
  cfg_weight_root : string;
  cfg_reid_net : string;
  cfg_dataset : DatasetCfg;
  cfg_train : TrainCfg;
  cfg_params : SweepParams
}.

(** ** Data loading *)

Definition Sample : Type := Tensor * Z.
Definition Batch : Type := list Tensor * list Z.

Record Dataset : Type := mkDataset {
  dset_samples : list Sample;
  dset_num_classes : Z
}.

Record DataLoader : Type := mkDataLoader {
  dl_dataset : Dataset;
  dl_shuffle : bool;
  dl_batch_size : Z;
  dl_num_workers : Z
}.

(** Consecutive slices of [n] elements, the last one possibly shorter
    ([drop_last=False]). *)
Fixpoint chunks {A : Type} (fuel n : nat) (l : list A) : list (list A) :=
  match fuel with
  | O => []
  | S fuel' =>
      match l with
      | [] => []
      | _ :: _ => take n l :: chunks fuel' n (drop n l)
      end
  end.

Definition collate (b : list Sample) : Batch := (map fst b, map snd b).

(** ** Optimizer and scheduler objects *)

Inductive OptKind : Type :=
| SGD (momentum weight_decay : Q)
| Adam.

(** The optimizer holds a reference to the parameters of one network of the
    heap, not a copy. *)
Record Optimizer : Type := mkOptimizer {
  opt_kind : OptKind;
  opt_target : nat;
  opt_lr : Q
}.

(** [ReduceLROnPlateau(optimizer, factor=.., patience=..)]; it acts on the
    optimizer object it was built with. *)
Record Scheduler : Type := mkScheduler {
  sch_factor : Q;
  sch_patience : Z
}.

(** ** Trace of the calls made by the trainer *)

Inductive Phase : Type := PhTrain | PhVal.

(** The two places of [train] that call [save_checkpoint]. *)
Inductive SaveSite : Type := SiteInterval | SiteImproved.

Inductive Event : Type :=
| EvGetModel (reid_net : string) (num_classes : Z) (net : nat)
| EvTorchLoad (path : string)
| EvRunner (tb_folder : string)
| EvBeginRun (run : Run) (net : nat)
| EvBeginEpoch
| EvNextBatch (b : Batch)
| EvMask (images : list Tensor)
| EvNormalize (images : list Tensor)
| EvForward (net : nat) (grad : bool) (images : list Tensor)
| EvCriterion (preds : list Tensor) (labels : list Z)
| EvZeroGrad (target : nat)
| EvBackward (net : nat)
| EvOptStep (target : nat)
| EvTrackLoss (loss : Q) (images : list Tensor)
| EvTrackNumCorrect (preds : list Tensor) (labels : list Z)
| EvAddTbData (status : Phase)
| EvSave (site : SaveSite) (filename : string) (c : Checkpoint)
| EvEmptyCache
| EvEval (net : nat)
| EvSchedulerStep
| EvEndEpoch (images : list Tensor)
| EvEndRun
| EvRunnerSave (filename : string).

(** ** The trainer object and the machine state *)

Record Trainer : Type := mkTrainer {
  cfg : Cfg;
  save_root : string;
  start_epoch : Z;
  lr : Q;
  best_acc : Q;
  train_loader : option DataLoader;
  val_loader : option DataLoader;
  num_classes : Z;
  device : Device;
  runs : list Run
}.

Record Cudnn : Type := mkCudnn {
  cudnn_benchmark : bool;
  cudnn_deterministic : bool;
  cudnn_enabled : bool
}.

Record State : Type := mkState {
  self : Trainer;
  (* the process and its environment *)
  global_cfg : option Cfg;         (* the module-level name [cfg], if bound *)
  cuda_available : bool;
  cudnn : Cudnn;
  fs : gmap string File;
  heap : list Net;
  rng : nat;
  grad_enabled : bool;
  (* names local to [train] that survive from one run to the next *)
  optimizer : option Optimizer;
  scheduler : option Scheduler;
  (* calls made so far, oldest first *)
  trace : list Event
}.

Definition set_self (f : Trainer → Trainer) (s : State) : State :=
  mkState (f (self s)) (global_cfg s) (cuda_available s) (cudnn s) (fs s)
          (heap s) (rng s) (grad_enabled s) (optimizer s) (scheduler s) (trace s).
Definition set_cudnn (c : Cudnn) (s : State) : State :=
  mkState (self s) (global_cfg s) (cuda_available s) c (fs s)
          (heap s) (rng s) (grad_enabled s) (optimizer s) (scheduler s) (trace s).
Definition set_fs (f : gmap string File) (s : State) : State :=
  mkState (self s) (global_cfg s) (cuda_available s) (cudnn s) f
          (heap s) (rng s) (grad_enabled s) (optimizer s) (scheduler s) (trace s).
Definition set_heap (h : list Net) (s : State) : State :=
  mkState (self s) (global_cfg s) (cuda_available s) (cudnn s) (fs s)
          h (rng s) (grad_enabled s) (optimizer s) (scheduler s) (trace s).
Definition set_rng (n : nat) (s : State) : State :=
  mkState (self s) (global_cfg s) (cuda_available s) (cudnn s) (fs s)
          (heap s) n (grad_enabled s) (optimizer s) (scheduler s) (trace s).
Definition set_grad_enabled (b : bool) (s : State) : State :=
  mkState (self s) (global_cfg s) (cuda_available s) (cudnn s) (fs s)
          (heap s) (rng s) b (optimizer s) (scheduler s) (trace s).
Definition set_optimizer (o : option Optimizer) (s : State) : State :=
  mkState (self s) (global_cfg s) (cuda_available s) (cudnn s) (fs s)
          (heap s) (rng s) (grad_enabled s) o (scheduler s) (trace s).
Definition set_scheduler (o : option Scheduler) (s : State) : State :=
  mkState (self s) (global_cfg s) (cuda_available s) (cudnn s) (fs s)
          (heap s) (rng s) (grad_enabled s) (optimizer s) o (trace s).
Definition set_trace (t : list Event) (s : State) : State :=
  mkState (self s) (global_cfg s) (cuda_available s) (cudnn s) (fs s)
          (heap s) (rng s) (grad_enabled s) (optimizer s) (scheduler s) t.

Definition with_start_epoch (e : Z) (t : Trainer) : Trainer :=
  mkTrainer (cfg t) (save_root t) e (lr t) (best_acc t) (train_loader t)
            (val_loader t) (num_classes t) (device t) (runs t).
Definition with_lr (x : Q) (t : Trainer) : Trainer :=
  mkTrainer (cfg t) (save_root t) (start_epoch t) x (best_acc t) (train_loader t)
            (val_loader t) (num_classes t) (device t) (runs t).
Definition with_best_acc (a : Q) (t : Trainer) : Trainer :=
  mkTrainer (cfg t) (save_root t) (start_epoch t) (lr t) a (train_loader t)
            (val_loader t) (num_classes t) (device t) (runs t).
(** ** The monad: state that survives an exception *)

Definition M (A : Type) : Type := State → Res A * State.

#[global] Instance M_ret : MRet M := λ A a s, (Ok a, s).
#[global] Instance M_bind : MBind M := λ A B k m s,
  match m s with
  | (Ok a, s') => k a s'
  | (Raise e, s') => (Raise e, s')
  end.

Definition raise {A : Type} (e : Exn) : M A := λ s, (Raise e, s).
Definition get : M State := λ s, (Ok s, s).
Definition modify (f : State → State) : M unit := λ s, (Ok tt, f s).
Definition emit (e : Event) : M unit := modify (λ s, set_trace (trace s ++ [e]) s).
Definition lift_res {A : Type} (r : Res A) : M A := λ s, (r, s).

(** [for x in l: body x], where the body rebinds a local name whose last
    value is used after the loop. *)
Fixpoint for_fold {A B : Type} (l : list A) (body : A → B → M B) (b : B) : M B :=
  match l with
  | [] => mret b
  | x :: l' => b' ← body x b; for_fold l' body b'
  end.

(** [for x in l: body x] *)
Fixpoint for_ {A : Type} (l : list A) (body : A → M unit) : M unit :=
  match l with
  | [] => mret tt
  | x :: l' => body x ;; for_ l' body
  end.

(** [range(a, b)] *)
Definition range (a b : Z) : list Z :=
  map (λ i : nat, a + Z.of_nat i) (seq 0 (Z.to_nat (b - a))).

Definition path_join (a b : string) : string := (a +:+ "/" +:+ b)%string.

(** [os.path.dirname(p)] is empty exactly when [p] has no separator. *)
Fixpoint has_slash (p : string) : bool :=
  match p with
  | EmptyString => false
  | String c p' => Ascii.eqb c "/"%char || has_slash p'
  end.

(** [os.makedirs(os.path.dirname(filename), exist_ok=True)]: the directories
    themselves are not part of the state, but [makedirs('')] raises.  The
    state holds regular files only, so the model follows the executions in
    which a non-empty directory part can be created; the names that [train]
    builds, [save_root/checkpoints/epoch_..pth], are of this kind. *)
Definition makedirs_for (filename : string) : M unit :=
  if has_slash filename then mret tt else raise FileNotFoundError.

(** ** Collaborators that are not defined in trainer.py

    [get_model] (models.get_extractor), [get_transforms], [get_dataset],
    [get_gaussian_mask] (datasets) and the [Runner] (runner) belong to other
    modules; tensor arithmetic, autograd and the optimizers belong to torch.
    The Runner is an object whose answers depend on the calls it has received:
    its accuracy is a function of the trace.  [permute] is the order in which
    a shuffling loader visits its dataset, [scheduler_step] what
    [ReduceLROnPlateau.step()] does when it is called without a metric, and
    [checkpoint_name epoch acc] the text [f'epoch_{epoch}-{acc}.pth']. *)
Record Providers : Type := mkProviders {
  Tfms : Type;
  get_model : string → Z → Net;
  get_transforms : list Z → Tfms;
  get_dataset : string → string → string → string → Tfms → Dataset;
  get_gaussian_mask : list Z → Tensor;
  tensor_mul : Tensor → Tensor → Tensor;
  normalize : list Q → list Q → Tensor → Tensor;
  forward : Net → bool → list Tensor → list Tensor;
  criterion : list Tensor → list Z → Q;
  backward : Net → list Tensor → list Z → Net;
  zero_grad : Net → Net;
  optim_step : Optimizer → Net → Net;
  permute : nat → list Sample → list Sample;
  scheduler_step : Scheduler → Optimizer → Res Optimizer;
  get_runs : SweepParams → list Run;
  val_accuracy : list Event → Q;
  checkpoint_name : Z → Q → string
}.

Section Trainer.
Context (P : Providers).

(** *** Heap of network objects *)

Definition alloc (n : Net) : M nat :=
  s ← get;
  modify (set_heap (heap s ++ [n]));;
  mret (length (heap s)).

Definition read_net (id : nat) : M Net :=
  s ← get;
  match heap s !! id with
  | Some n => mret n
  | None => raise (RuntimeError "dangling reference")
  end.

Definition write_net (id : nat) (n : Net) : M unit :=
  modify (λ s, set_heap (<[id:=n]> (heap s)) s).

Definition update_net (id : nat) (f : Net → Net) : M unit :=
  n ← read_net id;
  write_net id (f n).

(** *** setup_device (static method) *)

(** [torch.device(f'cuda:{cfg.GPU}' if device_id >= 0 and
    torch.cuda.is_available() else 'cpu')]: the name [cfg] is not a parameter
    of the static method, so it is looked up among the module globals, and
    only when the condition holds. *)
Definition setup_device (device_id : Z) : M Device :=
  s ← get;
  d ← (if (0 <=? device_id) && cuda_available s then
         match global_cfg s with
         | None => raise (NameError "cfg")
         | Some c =>
             if 0 <=? cfg_GPU c then mret (Cuda (cfg_GPU c))
             else raise (RuntimeError "Invalid device string")
         end
       else mret Cpu);
  match d with
  | Cpu => mret tt
  | Cuda _ => modify (set_cudnn (mkCudnn true true true))
  end;;
  mret d.

(** *** load_model *)

(** [os.path.isfile(path)]; the empty path is not a file. *)
Definition isfile (path : string) (s : State) : bool :=
  if decide (path = "") then false else bool_decide (is_Some (fs s !! path)).

Definition torch_load (path : string) : M Checkpoint :=
  emit (EvTorchLoad path);;
  s ← get;
  match fs s !! path with
  | Some (FCheckpoint c) => mret c
  | Some FGarbage => raise UnpicklingError
  | None => raise FileNotFoundError
  end.

Definition shapes (sd : StateDict) : gmap string nat := length <$> sd.

(** [net.load_state_dict(o)] with [strict=True]: [o] has to be a mapping with
    exactly the keys and shapes of the module. *)
Definition load_state_dict (id : nat) (o : PyObj) : M unit :=
  match o with
  | PStateDict sd =>
      n ← read_net id;
      if decide (shapes sd = shapes (net_params n)) then
        write_net id (mkNet sd (net_grads n) (net_training n) (net_device n))
      else raise (RuntimeError "Error(s) in loading state_dict")
  | PBoundMethod _ _ => raise (TypeError "Expected state_dict to be dict-like")
  end.

Definition net_to (id : nat) (d : Device) : M unit :=
  update_net id (λ n, mkNet (net_params n) (net_grads n) (net_training n) d).

Definition load_model (reid_net pretrained : string) : M nat :=
  s ← get;
  net ← alloc (get_model P reid_net (num_classes (self s)));
  emit (EvGetModel reid_net (num_classes (self s)) net);;
  (if isfile pretrained s then
     checkpoint ← torch_load pretrained;
     load_state_dict net (ck_net_dict checkpoint);;
     modify (set_self (with_start_epoch (ck_epoch checkpoint)));;
     modify (set_self (with_best_acc (ck_acc checkpoint)));;
     modify (set_self (with_lr (ck_lr checkpoint)))
   else mret tt);;
  s' ← get;
  net_to net (device (self s'));;
  mret net.

(** *** load_data *)

Definition with_train_loader (d : DataLoader) (t : Trainer) : Trainer :=
  mkTrainer (cfg t) (save_root t) (start_epoch t) (lr t) (best_acc t) (Some d)
            (val_loader t) (num_classes t) (device t) (runs t).
Definition with_val_loader (d : DataLoader) (t : Trainer) : Trainer :=
  mkTrainer (cfg t) (save_root t) (start_epoch t) (lr t) (best_acc t)
            (train_loader t) (Some d) (num_classes t) (device t) (runs t).
Definition with_num_classes (n : Z) (t : Trainer) : Trainer :=
  mkTrainer (cfg t) (save_root t) (start_epoch t) (lr t) (best_acc t)
            (train_loader t) (val_loader t) n (device t) (runs t).

(** [DataLoader(dataset, shuffle=.., batch_size=.., num_workers=..)] *)
Definition new_DataLoader (d : Dataset) (shuffle : bool) (batch_size workers : Z)
  : M DataLoader :=
  if batch_size <=? 0 then raise (ValueError "batch_size should be a positive integer")
  else if workers <? 0 then raise (ValueError "num_workers should be non-negative")
  else mret (mkDataLoader d shuffle batch_size workers).

Definition load_data (root reid_net : string) : M unit :=
  s ← get;
  let cfg_loader := cfg_dataset (cfg (self s)) in
  let tfms := get_transforms P (ds_size cfg_loader) in
  (* load training set *)
  let train_dataset :=
    get_dataset P (cfg_reid_net (cfg (self s))) (ds_name cfg_loader) root "val" tfms in
  tl ← new_DataLoader train_dataset false (ds_batch_size cfg_loader) (ds_workers cfg_loader);
  modify (set_self (with_train_loader tl));;
  (* load validation set *)
  let val_dataset :=
    get_dataset P (cfg_reid_net (cfg (self s))) (ds_name cfg_loader) root "val" tfms in
  vl ← new_DataLoader val_dataset false (ds_batch_size cfg_loader) (ds_workers cfg_loader);
  modify (set_self (with_val_loader vl));;
  modify (set_self (with_num_classes (dset_num_classes train_dataset))).

(** The batches of one pass over the loader; [seed] only matters when the
    loader shuffles. *)
Definition loader_batches (dl : DataLoader) (seed : nat) : list Batch :=
  let xs := dset_samples (dl_dataset dl) in
  let ys := if dl_shuffle dl then permute P seed xs else xs in
  map collate (chunks (length ys) (Z.to_nat (dl_batch_size dl)) ys).

(** [iter(loader)], as the list of the batches it yields. *)
Definition iter_loader (dl : DataLoader) : M (list Batch) :=
  s ← get;
  (if dl_shuffle dl then modify (set_rng (S (rng s))) else mret tt);;
  mret (loader_batches dl (rng s)).

(** [next(iter(loader))] *)
Definition next_iter (o : option DataLoader) : M Batch :=
  match o with
  | None => raise (TypeError "NoneType object is not iterable")
  | Some dl =>
      bs ← iter_loader dl;
      match bs with
      | [] => raise StopIteration
      | b :: _ => mret b
      end
  end.

(** *** save_checkpoint

    The value stored under ['net_dict'] is [net.state_dict], the bound method
    itself: the source does not call it.  [site] names the calling place of
    [train]; it is recorded in the trace only.  [torch.save] is followed on
    the executions in which it can create the file (the name is not that of
    a directory). *)
Definition save_checkpoint (site : SaveSite) (filename : string) (net : nat)
  (epoch : Z) (lr_ : Q) : M unit :=
  makedirs_for filename;;
  s ← get;
  n ← read_net net;
  let checkpoint :=
    mkCheckpoint (PBoundMethod n "state_dict") (best_acc (self s)) epoch lr_ in
  emit (EvSave site filename checkpoint);;
  modify (λ s, set_fs (<[filename := FCheckpoint checkpoint]> (fs s)) s).

(** *** train *)

Definition read_optimizer : M Optimizer :=
  s ← get;
  match optimizer s with
  | Some o => mret o
  | None => raise (UnboundLocalError "optimizer")
  end.

Definition read_scheduler : M Scheduler :=
  s ← get;
  match scheduler s with
  | Some o => mret o
  | None => raise (UnboundLocalError "scheduler")
  end.

(** [if getattr(run, 'gaussian_mask', False): images = images * mask] *)
Definition apply_mask (run : Run) (images : list Tensor) : M (list Tensor) :=
  s ← get;
  if getattr_flag (run_gaussian_mask run) then
    let mask := get_gaussian_mask P (ds_size (cfg_dataset (cfg (self s)))) in
    let images' := map (λ x, tensor_mul P x mask) images in
    emit (EvMask images');;
    mret images'
  else mret images.

(** [norm(images)] with [norm = transforms.Normalize(mean, std)] *)
Definition norm (images : list Tensor) : M (list Tensor) :=
  s ← get;
  let d := cfg_dataset (cfg (self s)) in
  let tfms_images := map (normalize P (ds_mean d) (ds_std d)) images in
  emit (EvNormalize tfms_images);;
  mret tfms_images.

(** [net(tfms_images)] *)
Definition call_net (net : nat) (tfms_images : list Tensor) : M (list Tensor) :=
  n ← read_net net;
  s ← get;
  emit (EvForward net (grad_enabled s) tfms_images);;
  mret (forward P n (grad_enabled s) tfms_images).

Definition call_criterion (preds : list Tensor) (labels : list Z) : M Q :=
  emit (EvCriterion preds labels);;
  mret (criterion P preds labels).

(** The body of [for i_iter in tq], lines 148-169.  It returns the value of
    the local name [images] it leaves behind. *)
Definition train_step (run : Run) (net : nat) (images : list Tensor)
  (labels : list Z) : M (list Tensor) :=
  images ← apply_mask run images;
  tfms_images ← norm images;
  preds ← call_net net tfms_images;
  loss ← call_criterion preds labels;
  (* optimizer.zero_grad() *)
  opt ← read_optimizer;
  update_net (opt_target opt) (zero_grad P);;
  emit (EvZeroGrad (opt_target opt));;
  (* loss.backward() *)
  update_net net (λ n, backward P n tfms_images labels);;
  emit (EvBackward net);;
  (* optimizer.step() *)
  opt ← read_optimizer;
  update_net (opt_target opt) (optim_step P opt);;
  emit (EvOptStep (opt_target opt));;
  emit (EvTrackLoss loss tfms_images);;
  emit (EvTrackNumCorrect preds labels);;
  mret images.

(** Lines 144-170: one batch is taken from a fresh iterator of the training
    loader, and the loop runs over [range(1)]. *)
Definition train_phase (run : Run) (net : nat) : M (list Tensor) :=
  s ← get;
  b ← next_iter (train_loader (self s));
  emit (EvNextBatch b);;
  for_fold (range 0 1) (λ _ images, train_step run net images (snd b)) (fst b).

(** The body of [for images, labels in tqdm(self.val_loader)], lines 188-198 *)
Definition val_step (run : Run) (net : nat) (b : Batch) : M (list Tensor) :=
  images ← apply_mask run (fst b);
  tfms_images ← norm images;
  preds ← call_net net tfms_images;
  loss ← call_criterion preds (snd b);
  emit (EvTrackLoss loss tfms_images);;
  emit (EvTrackNumCorrect preds (snd b));;
  mret images.

(** [with torch.no_grad(): body]; the previous mode is restored on exit, also
    when the body raises. *)
Definition no_grad {A : Type} (body : M A) : M A := λ s,
  let '(r, s') := body (set_grad_enabled false s) in
  (r, set_grad_enabled (grad_enabled s) s').

(** Lines 185-200 *)
Definition validation_phase (run : Run) (net : nat) (images : list Tensor)
  : M (list Tensor) :=
  update_net net (λ n, mkNet (net_params n) (net_grads n) false (net_device n));;
  emit (EvEval net);;
  no_grad (
    s ← get;
    match val_loader (self s) with
    | None => raise (TypeError "NoneType object is not iterable")
    | Some dl =>
        bs ← iter_loader dl;
        images ← for_fold bs (λ b _, val_step run net b) images;
        emit (EvAddTbData PhVal);;
        mret images
    end).

(** [epoch+1 % self.cfg.train.save_interval == 0]: in Python [%] binds
    tighter than [+], and [+] tighter than [==]. *)
Definition interval_due (epoch : Z) : M bool :=
  s ← get;
  let save_interval := tr_save_interval (cfg_train (cfg (self s))) in
  if save_interval =? 0 then raise ZeroDivisionError
  else mret ((epoch + (1 mod save_interval)) =? 0).

(** Lines 203-205 *)
Definition improvement_checkpoint (checkpoint_file : string) (net : nat)
  (epoch : Z) : M unit :=
  s ← get;
  let val_acc := val_accuracy P (trace s) in
  if Qlt_le_dec (best_acc (self s)) val_acc then
    modify (set_self (with_best_acc val_acc));;
    opt ← read_optimizer;
    save_checkpoint SiteImproved checkpoint_file net epoch (opt_lr opt)
  else mret tt.

(** Lines 177-178 *)
Definition interval_checkpoint (checkpoint_file : string) (net : nat)
  (epoch : Z) : M unit :=
  due ← interval_due epoch;
  if (due : bool) then
    opt ← read_optimizer;
    save_checkpoint SiteInterval checkpoint_file net epoch (opt_lr opt)
  else mret tt.

(** Lines 183-205: [if epoch+1 == self.cfg.train.epoch] *)
Definition final_validation (run : Run) (net : nat) (epoch : Z)
  (checkpoint_file : string) (images : list Tensor) : M (list Tensor) :=
  s ← get;
  if epoch + 1 =? tr_epoch (cfg_train (cfg (self s))) then
    images ← validation_phase run net images;
    improvement_checkpoint checkpoint_file net epoch;;
    mret images
  else mret images.

(** Lines 208-209: [scheduler.step()] is called without a metric.  Whenever
    this statement runs, the scheduler was built in the same run from the
    optimizer that the name [optimizer] is bound to. *)
Definition step_scheduler (run : Run) : M unit :=
  if getattr_flag (run_reduce_lr run) then
    sch ← read_scheduler;
    opt ← read_optimizer;
    emit EvSchedulerStep;;
    opt' ← lift_res (scheduler_step P sch opt);
    modify (set_optimizer (Some opt'))
  else mret tt.

(** [os.path.join(self.save_root, 'checkpoints',
    f'epoch_{epoch}-{self.best_acc}.pth')] *)
Definition checkpoint_path (epoch : Z) : M string :=
  s ← get;
  mret (path_join (save_root (self s))
          (path_join "checkpoints" (checkpoint_name P epoch (best_acc (self s))))).

(** The body of the epoch loop, lines 133-210 *)
Definition epoch_body (run : Run) (net : nat) (epoch : Z) : M unit :=
  emit EvBeginEpoch;;
  images ← train_phase run net;
  emit (EvAddTbData PhTrain);;
  checkpoint_file ← checkpoint_path epoch;
  interval_checkpoint checkpoint_file net epoch;;
  emit EvEmptyCache;;
  images ← final_validation run net epoch checkpoint_file images;
  step_scheduler run;;
  emit (EvEndEpoch images).

(** Lines 117-123: no [else] branch. *)
Definition bind_optimizer (run : Run) (net : nat) : M unit :=
  s ← get;
  if String.eqb (run_optim run) "SGD" then
    modify (set_optimizer (Some (mkOptimizer (SGD (9 # 10) (5 # 10000)) net (lr (self s)))))
  else if String.eqb (run_optim run) "Adam" then
    modify (set_optimizer (Some (mkOptimizer Adam net (lr (self s)))))
  else mret tt.

(** Lines 126-129 *)
Definition bind_scheduler (run : Run) : M unit :=
  if getattr_flag (run_reduce_lr run) then
    _ ← read_optimizer;
    modify (set_scheduler (Some (mkScheduler (1 # 10) 10)))
  else mret tt.

(** The body of [for run in self.runs], lines 108-212 *)
Definition run_body (run : Run) : M unit :=
  modify (set_self (with_lr (run_lr run)));;
  s ← get;
  net ← load_model (cfg_reid_net (cfg (self s))) (tr_pretrained (cfg_train (cfg (self s))));
  emit (EvBeginRun run net);;
  bind_optimizer run net;;
  bind_scheduler run;;
  s ← get;
  for_ (range (start_epoch (self s)) (tr_epoch (cfg_train (cfg (self s)))))
       (epoch_body run net);;
  emit EvEndRun;;
  modify (set_self (with_best_acc 0)).

Definition train : M unit :=
  s ← get;
  emit (EvRunner (path_join (save_root (self s)) "runs"));;
  for_ (runs (self s)) run_body;;
  emit (EvRunnerSave (path_join (save_root (self s)) "train_result")).

(** *** __init__

    The attributes [device] and [runs] do not exist before they are assigned;
    here they hold [Cpu] and the empty list until then. *)
Definition Trainer_init (c : Cfg) : M unit :=
  let root :=
    path_join (cfg_weight_root c)
              (cfg_reid_net c +:+ "_" +:+ ds_name (cfg_dataset c))%string in
  modify (set_self (λ _, mkTrainer c root 0 0 0 None None 0 Cpu []));;
  d ← setup_device (cfg_GPU c);
  modify (set_self (λ t, mkTrainer (cfg t) (save_root t) (start_epoch t) (lr t)
                           (best_acc t) (train_loader t) (val_loader t)
                           (num_classes t) d (get_runs P (cfg_params c))));;
  load_data (ds_root (cfg_dataset c)) (cfg_reid_net c).

End Trainer.

(** ** A concrete instance, used to run the embedding on examples *)

Module Demo.

Definition samples : list Sample :=
  [([1%Q], 0); ([2%Q], 1); ([3%Q], 0); ([4%Q], 1); ([5%Q], 1)].

Definition fresh_net : Net :=
  mkNet {[ "fc.weight" := [0%Q; 0%Q] ]} None true Cpu.

Definition providers : Providers := {|
  Tfms := unit;
  get_model := λ _ _, fresh_net;
  get_transforms := λ _, tt;
  get_dataset := λ _ _ _ _ _, mkDataset samples 2;
  get_gaussian_mask := λ _, [1%Q];
  tensor_mul := λ x _, x;
  normalize := λ _ _ x, x;
  forward := λ _ _ xs, xs;
  criterion := λ _ _, 1%Q;
  backward := λ n _ _, n;
  zero_grad := λ n, n;
  optim_step := λ _ n, n;
  permute := λ _ l, l;
  scheduler_step := λ _ _, Raise (TypeError "step() missing argument: metrics");
  get_runs := λ p, map (λ o, mkRun 1 o None None) (sp_optim p);
  val_accuracy := λ _, (1 # 2)%Q;
  checkpoint_name := λ epoch _, ("epoch_" +:+ pretty epoch +:+ ".pth")%string
|}.

(** The same collaborators, with an autograd and an optimizer that leave
    their mark on the network: [backward] stores the parameters as gradients,
    [zero_grad] clears the gradients, [step] adds the learning rate to every
    parameter. *)
Definition stepping_providers : Providers := {|
  Tfms := unit;
  get_model := λ _ _, fresh_net;
  get_transforms := λ _, tt;
  get_dataset := λ _ _ _ _ _, mkDataset samples 2;
  get_gaussian_mask := λ _, [1%Q];
  tensor_mul := λ x _, x;
  normalize := λ _ _ x, x;
  forward := λ _ _ xs, xs;
  criterion := λ _ _, 1%Q;
  backward := λ n _ _,
    mkNet (net_params n) (Some (net_params n)) (net_training n) (net_device n);
  zero_grad := λ n, mkNet (net_params n) None (net_training n) (net_device n);
  optim_step := λ o n,
    mkNet (map (Qplus (opt_lr o)) <$> net_params n) (net_grads n) (net_training n)
          (net_device n);
  permute := λ _ l, l;
  scheduler_step := λ _ _, Raise (TypeError "step() missing argument: metrics");
  get_runs := λ p, map (λ o, mkRun 1 o None None) (sp_optim p);
  val_accuracy := λ _, (1 # 2)%Q;
  checkpoint_name := λ epoch _, ("epoch_" +:+ pretty epoch +:+ ".pth")%string
|}.

Definition config (epochs save_interval : Z) (pretrained : string)
  (optims : list string) : Cfg :=
  mkCfg 0 "weights" "osnet"
        (mkDatasetCfg "market" "data" [64; 128] [1%Q] [1%Q] 2 0)
        (mkTrainCfg epochs save_interval pretrained)
        (mkSweepParams [1%Q] optims None None).

(** A process before [Trainer(cfg)]: no network object allocated yet, [g] is
    the module-level binding of [cfg], if any. *)
Definition boot (g : option Cfg) (cuda : bool) (files : gmap string File) : State :=
  mkState (mkTrainer (config 0 1 "" []) "" 0 0 0 None None 0 Cpu [])
          g cuda (mkCudnn false false false) files [] O true None None [].

(** The state after [Trainer(cfg)] on a machine without GPU. *)
Definition started (c : Cfg) (files : gmap string File) : State :=
  snd (Trainer_init providers c (boot (Some c) false files)).

(** A state in the middle of a run: one network allocated and an Adam
    optimizer built on it. *)
Definition in_run (c : Cfg) : State :=
  set_heap [fresh_net] (set_optimizer (Some (mkOptimizer Adam O 1)) (started c ∅)).

Definition sgd_run : Run := mkRun 1 "SGD" None None.
Definition adam_run : Run := mkRun 1 "Adam" None None.
Definition rmsprop_run : Run := mkRun 1 "RMSprop" None None.
Definition rmsprop_plateau_run : Run := mkRun 1 "RMSprop" (Some true) None.

(** Files used in the examples: a checkpoint that fits [fresh_net], one whose
    state dict has another parameter name, and a file that is not a pickle. *)
Definition good_checkpoint : Checkpoint :=
  mkCheckpoint (PStateDict {[ "fc.weight" := [1%Q; 2%Q] ]}) (1 # 4) 3 (1 # 100).

Definition other_checkpoint : Checkpoint :=
  mkCheckpoint (PStateDict {[ "conv.weight" := [1%Q; 2%Q] ]}) (1 # 4) 3 (1 # 100).

Definition disk : gmap string File :=
  {[ "good.pth" := FCheckpoint good_checkpoint;
     "other.pth" := FCheckpoint other_checkpoint;
     "bad.pth" := FGarbage ]}.

End Demo.

(** * Vocabulary of the statements *)

Definition count_events (p : Event → bool) (t : list Event) : nat :=
  length (List.filter p t).

Definition is_begin_epoch (e : Event) : bool :=
  match e with EvBeginEpoch => true | _ => false end.

(** Does the event record a step of an optimizer on the given network? *)
Definition is_opt_step_on (target : nat) (e : Event) : bool :=
  match e with
  | EvOptStep t => Nat.eqb t target
  | _ => false
  end.

(** Does the event record a checkpoint write made from the given place? *)
Definition is_save (site : SaveSite) (e : Event) : bool :=
  match e, site with
  | EvSave SiteInterval _ _, SiteInterval => true
  | EvSave SiteImproved _ _, SiteImproved => true
  | _, _ => false
  end.

(** *** Relations between the state before and after a computation *)

Definition steps {A : Type} (R : State → State → Prop) (m : M A) : Prop :=
  ∀ s, R s (snd (m s)).

(** Relations that ignore everything but [self] and [trace]. *)
Class Frame (R : State → State → Prop) : Prop := {
  frame_refl : ∀ s, R s s;
  frame_trans : ∀ s1 s2 s3, R s1 s2 → R s2 s3 → R s1 s3;
  frame_heap : ∀ s h, R s (set_heap h s);
  frame_fs : ∀ s f, R s (set_fs f s);
  frame_rng : ∀ s n, R s (set_rng n s);
  frame_grad : ∀ s b, R s (set_grad_enabled b s);
  frame_optimizer : ∀ s o, R s (set_optimizer o s);
  frame_scheduler : ∀ s o, R s (set_scheduler o s);
  frame_cudnn : ∀ s c, R s (set_cudnn c s)
}.

Definition on_device (n : Net) (d : Device) : Net :=
  mkNet (net_params n) (net_grads n) (net_training n) d.

Definition with_params (n : Net) (sd : StateDict) : Net :=
  mkNet sd (net_grads n) (net_training n) (net_device n).

(** The events added by a computation all satisfy [good]. *)
Definition emits (good : Event → Prop) (s s' : State) : Prop :=
  ∃ evs, trace s' = trace s ++ evs ∧ Forall good evs.

(** The best accuracy does not decrease. *)
Definition acc_grows (s s' : State) : Prop :=
  (best_acc (self s) <= best_acc (self s'))%Q.

(** The best accuracy is not assigned. *)
Definition acc_same (s s' : State) : Prop :=
  best_acc (self s') = best_acc (self s).

(** The configuration and the loaders of [self] are not assigned. *)
Definition keeps_config (s s' : State) : Prop :=
  cfg (self s') = cfg (self s)
  ∧ save_root (self s') = save_root (self s)
  ∧ train_loader (self s') = train_loader (self s)
  ∧ val_loader (self s') = val_loader (self s).

(** A [next(iter(train_loader))] recorded in the trace returned [b0]. *)
Definition fetches (b0 : option Batch) (e : Event) : Prop :=
  ∀ b, e = EvNextBatch b → b0 = Some b.

(** While the training loader is [dl], every batch fetched for training is
    the first batch of [dl]. *)
Definition same_first_batch (P : Providers) (dl : DataLoader) (s s' : State) : Prop :=
  train_loader (self s) = Some dl →
  train_loader (self s') = Some dl
  ∧ emits (fetches (head (loader_batches P dl O))) s s'.

Definition add_events (evs : list Event) (s : State) : State :=
  set_trace (trace s ++ evs) s.

(** The network objects after [f] has been applied to the object [id]. *)
Definition heap_update (id : nat) (f : Net → Net) (h : list Net) : list Net :=
  match h !! id with
  | Some n => <[id := f n]> h
  | None => h
  end.

Section StepEvents.
Context (P : Providers) (c : Cfg) (run : Run).

Definition masked (images : list Tensor) : list Tensor :=
  if getattr_flag (run_gaussian_mask run) then
    map (λ x, tensor_mul P x (get_gaussian_mask P (ds_size (cfg_dataset c)))) images
  else images.

Definition normalized (images : list Tensor) : list Tensor :=
  map (normalize P (ds_mean (cfg_dataset c)) (ds_std (cfg_dataset c))) images.

(** Mask (when the run asks for it), normalization, forward pass, loss. *)
Definition forward_events (net : nat) (grad : bool) (n : Net) (b : Batch)
  : list Event :=
  let x := normalized (masked (fst b)) in
  (if getattr_flag (run_gaussian_mask run) then [EvMask (masked (fst b))] else [])
  ++ [EvNormalize x; EvForward net grad x; EvCriterion (forward P n grad x) (snd b)].

(** The loss and the predictions handed to the Runner. *)
Definition track_events (grad : bool) (n : Net) (b : Batch) : list Event :=
  let x := normalized (masked (fst b)) in
  let preds := forward P n grad x in
  [EvTrackLoss (criterion P preds (snd b)) x; EvTrackNumCorrect preds (snd b)].

Definition train_step_events (net : nat) (grad : bool) (n : Net) (target : nat)
  (b : Batch) : list Event :=
  forward_events net grad n b
  ++ [EvZeroGrad target; EvBackward net; EvOptStep target]
  ++ track_events grad n b.

Definition val_step_events (net : nat) (n : Net) (b : Batch) : list Event :=
  forward_events net false n b ++ track_events false n b.

(** The network objects after one training step on the batch [b]:
    [optimizer.zero_grad()] has cleared the gradients of the network of the
    optimizer, [loss.backward()] has stored the gradients of this batch in
    the network [net], and [optimizer.step()] has updated the parameters of
    the network of the optimizer, in this order. *)
Definition after_train_step (net : nat) (opt : Optimizer) (b : Batch)
  (h : list Net) : list Net :=
  let x := normalized (masked (fst b)) in
  heap_update (opt_target opt) (optim_step P opt)
    (heap_update net (λ n, backward P n x (snd b))
       (heap_update (opt_target opt) (zero_grad P) h)).

End StepEvents.

(** Events that only the training step produces. *)
Definition is_train_step_event (e : Event) : bool :=
  match e with
  | EvNextBatch _ | EvZeroGrad _ | EvBackward _ | EvOptStep _ => true
  | _ => false
  end.

(** Events that only the validation pass produces. *)
Definition is_validation_event (e : Event) : bool :=
  match e with
  | EvEval _ | EvAddTbData PhVal => true
  | _ => false
  end.

(** [s'] differs from [s] in the heap contents, the trace and the state of
    the random generator only. *)
Definition same_objects (s s' : State) : Prop :=
  self s' = self s ∧ optimizer s' = optimizer s ∧ scheduler s' = scheduler s
  ∧ fs s' = fs s ∧ grad_enabled s' = grad_enabled s
  ∧ length (heap s') = length (heap s).

Definition in_eval_mode (n : Net) : Net :=
  mkNet (net_params n) (net_grads n) false (net_device n).

(** The configuration is kept, and unless [epoch] is the last epoch of the
    configuration no event of the validation pass is added. *)
Definition quiet_unless_final (epoch : Z) (s s' : State) : Prop :=
  cfg (self s') = cfg (self s)
  ∧ (epoch + 1 ≠ tr_epoch (cfg_train (cfg (self s))) →
     emits (λ e, is_validation_event e = false) s s').

(** ** Vocabulary of the further properties *)

Definition is_get_model (e : Event) : bool :=
  match e with EvGetModel _ _ _ => true | _ => false end.

Definition is_runner_save (e : Event) : bool :=
  match e with EvRunnerSave _ => true | _ => false end.

Definition is_end_epoch (e : Event) : bool :=
  match e with EvEndEpoch _ => true | _ => false end.

Definition is_eval (e : Event) : bool :=
  match e with EvEval _ => true | _ => false end.

(** The computation adds exactly [n] events that satisfy [p]. *)
Definition emits_count (p : Event → bool) (n : nat) (s s' : State) : Prop :=
  ∃ evs, trace s' = trace s ++ evs ∧ count_events p evs = n.

(** The computation adds at most [n] events that satisfy [p]. *)
Definition emits_at_most (p : Event → bool) (n : nat) (s s' : State) : Prop :=
  ∃ evs, trace s' = trace s ++ evs ∧ (count_events p evs <= n)%nat.

(** From a state that satisfies [Inv], the computation ends in a state that
    satisfies [Inv], adds only events that satisfy [good], and a value that it
    returns satisfies [Q]. *)
Definition hoare {A : Type} (Inv : State → Prop) (good : Event → Prop)
  (m : M A) (Q : A → Prop) : Prop :=
  ∀ s, Inv s →
       Inv (snd (m s)) ∧ emits good s (snd (m s)) ∧ ∀ a, fst (m s) = Ok a → Q a.

(** Invariants that talk about [self] and the names local to [train] only. *)
Class Stable (Inv : State → Prop) : Prop := {
  stable_heap : ∀ s h, Inv s → Inv (set_heap h s);
  stable_fs : ∀ s f, Inv s → Inv (set_fs f s);
  stable_rng : ∀ s n, Inv s → Inv (set_rng n s);
  stable_grad : ∀ s b, Inv s → Inv (set_grad_enabled b s);
  stable_cudnn : ∀ s c, Inv s → Inv (set_cudnn c s);
  stable_trace : ∀ s t, Inv s → Inv (set_trace t s)
}.

(** No attribute of [self] that [__init__] sets up is assigned again. *)
Definition keeps_setup (s s' : State) : Prop :=
  cfg (self s') = cfg (self s)
  ∧ save_root (self s') = save_root (self s)
  ∧ train_loader (self s') = train_loader (self s)
  ∧ val_loader (self s') = val_loader (self s)
  ∧ num_classes (self s') = num_classes (self s)
  ∧ device (self s') = device (self s)
  ∧ runs (self s') = runs (self s).

(** The configuration and the start epoch are not assigned. *)
Definition keeps_resume (s s' : State) : Prop :=
  cfg (self s') = cfg (self s) ∧ start_epoch (self s') = start_epoch (self s).

(** The optimizer that lines 117-123 build for a run, if any. *)
Definition built_optimizer (run : Run) (net : nat) (lr_ : Q) : option Optimizer :=
  if String.eqb (run_optim run) "SGD" then
    Some (mkOptimizer (SGD (9 # 10) (5 # 10000)) net lr_)
  else if String.eqb (run_optim run) "Adam" then Some (mkOptimizer Adam net lr_)
  else None.

(** An [optimizer.zero_grad()] or [optimizer.step()] recorded by the event
    acted on the parameters of network [target]. *)
Definition acts_on (target : nat) (e : Event) : Prop :=
  ∀ t, e = EvZeroGrad t ∨ e = EvOptStep t → t = target.

(** A checkpoint write recorded by the event went to [filename]. *)
Definition saves_to (filename : string) (e : Event) : Prop :=
  ∀ site f c, e = EvSave site f c → f = filename.

(** A checkpoint write recorded by the event went to a file of the directory
    [root/checkpoints]. *)
Definition saves_under (root : string) (e : Event) : Prop :=
  ∀ site f c, e = EvSave site f c →
              ∃ name, f = path_join root (path_join "checkpoints" name).

(** The name [optimizer] is bound to [o]. *)
Definition optimizer_is (o : Optimizer) (s : State) : Prop := optimizer s = Some o.

(** A checkpoint written by the event records the learning rate [lr_]. *)
Definition saves_lr (lr_ : Q) (e : Event) : Prop :=
  ∀ site f c, e = EvSave site f c → ck_lr c = lr_.

Definition any_state (s : State) : Prop := True.

Definition save_root_is (root : string) (s : State) : Prop :=
  save_root (self s) = root.

Definition cfg_is (c : Cfg) (s : State) : Prop := cfg (self s) = c.

(** No attribute of [self] is assigned. *)
Definition keeps_self (s s' : State) : Prop := self s' = self s.

(** From every state, the computation adds at most [n] events that satisfy
    [p]. *)
Definition bounded {A : Type} (p : Event → bool) (n : nat) (m : M A) : Prop :=
  ∀ s, emits_at_most p n s (snd (m s)).

(** The last epoch of the configuration: [epoch+1 == self.cfg.train.epoch]. *)
Definition validated_epoch (c : Cfg) : Z := tr_epoch (cfg_train c) - 1.

(** The epoch at which [epoch+1 % save_interval == 0] holds, that is
    [epoch + (1 % save_interval) == 0]. *)
Definition interval_epoch (c : Cfg) : Z := - (1 mod tr_save_interval (cfg_train c)).

(** From a state that satisfies [Inv] the computation returns a value that
    satisfies [Q], in a state that satisfies [Inv]. *)
Definition returns {A : Type} (Inv : State → Prop) (m : M A) (Q : A → Prop) : Prop :=
  ∀ s, Inv s → ∃ a s', m s = (Ok a, s') ∧ Inv s' ∧ Q a.

(** What the epochs of a run rely on: the configuration and the loaders of
    [self], the number of network objects, and the binding of [optimizer]. *)
Definition run_ready (c : Cfg) (tdl vdl : DataLoader) (n : nat) (o : Optimizer)
  (s : State) : Prop :=
  cfg (self s) = c
  ∧ train_loader (self s) = Some tdl
  ∧ val_loader (self s) = Some vdl
  ∧ length (heap s) = n
  ∧ optimizer s = Some o.

(** What the runs of a sweep rely on. *)
Definition sweep_ready (c : Cfg) (tdl vdl : DataLoader) (s : State) : Prop :=
  cfg (self s) = c
  ∧ train_loader (self s) = Some tdl
  ∧ val_loader (self s) = Some vdl.

(** * Properties *)

(** ** Reasoning about monadic code *)

Lemma bind_unfold {A B : Type} (m : M A) (k : A → M B) (s : State) :
  (m ≫= k) s = match m s with
               | (Ok a, s') => k a s'
               | (Raise e, s') => (Raise e, s')
               end.
Proof. reflexivity. Qed.

Lemma bind_get {B : Type} (k : State → M B) (s : State) : (get ≫= k) s = k s s.
Proof. reflexivity. Qed.

Lemma bind_modify {B : Type} (f : State → State) (k : unit → M B) (s : State) :
  (modify f ≫= k) s = k tt (f s).
Proof. reflexivity. Qed.

Lemma bind_emit {B : Type} (e : Event) (k : unit → M B) (s : State) :
  (emit e ≫= k) s = k tt (set_trace (trace s ++ [e]) s).
Proof. reflexivity. Qed.

Lemma bind_ret {A B : Type} (a : A) (k : A → M B) (s : State) :
  (mret a ≫= k) s = k a s.
Proof. reflexivity. Qed.

Lemma bind_ok {A B : Type} (m : M A) (k : A → M B) (s s' : State) (a : A) :
  m s = (Ok a, s') → (m ≫= k) s = k a s'.
Proof. intros H. rewrite bind_unfold, H. reflexivity. Qed.

Lemma bind_raise {A B : Type} (m : M A) (k : A → M B) (s s' : State) (e : Exn) :
  m s = (Raise e, s') → (m ≫= k) s = (Raise e, s').
Proof. intros H. rewrite bind_unfold, H. reflexivity. Qed.

Lemma bind_cong_l {A B : Type} (m m' : M A) (k : A → M B) (s : State) :
  m s = m' s → (m ≫= k) s = (m' ≫= k) s.
Proof. intros H. rewrite !bind_unfold, H. reflexivity. Qed.

Lemma bind_inv_ok {A B : Type} (m : M A) (k : A → M B) (s s' : State) (b : B) :
  (m ≫= k) s = (Ok b, s') → ∃ a s1, m s = (Ok a, s1) ∧ k a s1 = (Ok b, s').
Proof.
  rewrite bind_unfold. destruct (m s) as [[a | e] s1]; intros H.
  - exists a, s1. split; [reflexivity | exact H].
  - discriminate H.
Qed.

Lemma bind_assoc {A B C : Type} (m : M A) (k : A → M B) (k' : B → M C) (s : State) :
  ((m ≫= k) ≫= k') s = (m ≫= (λ a, k a ≫= k')) s.
Proof.
  rewrite (bind_unfold (m ≫= k)), (bind_unfold m), (bind_unfold m).
  destruct (m s) as [[a | e] s1]; [| reflexivity].
  rewrite bind_unfold. reflexivity.
Qed.

Lemma for_app {A : Type} (l1 l2 : list A) (body : A → M unit) (s : State) :
  for_ (l1 ++ l2) body s =
  match for_ l1 body s with
  | (Ok _, s') => for_ l2 body s'
  | (Raise e, s') => (Raise e, s')
  end.
Proof.
  revert s. induction l1 as [| x l1 IH]; intros s; simpl.
  - reflexivity.
  - rewrite !bind_unfold. destruct (body x s) as [[[] | e] s1].
    + apply IH.
    + reflexivity.
Qed.

Lemma range_cons (a b : Z) : a < b → range a b = a :: range (a + 1) b.
Proof.
  intros H. unfold range.
  replace (Z.to_nat (b - a)) with (S (Z.to_nat (b - (a + 1)))) by lia.
  simpl. f_equal; [lia |].
  rewrite <- seq_shift, map_map. apply map_ext. intros i. lia.
Qed.

Section Steps.
Context (R : State → State → Prop) `{!Frame R}.

Lemma steps_ret {A : Type} (a : A) : steps R (mret a).
Proof. intros s. apply frame_refl. Qed.

Lemma steps_raise {A : Type} (e : Exn) : steps R (raise (A:=A) e).
Proof. intros s. apply frame_refl. Qed.

Lemma steps_get : steps R get.
Proof. intros s. apply frame_refl. Qed.

Lemma steps_lift_res {A : Type} (r : Res A) : steps R (lift_res r).
Proof. intros s. apply frame_refl. Qed.

Lemma steps_modify (f : State → State) : (∀ s, R s (f s)) → steps R (modify f).
Proof. intros H s. apply H. Qed.

Lemma steps_bind {A B : Type} (m : M A) (k : A → M B) :
  steps R m → (∀ a, steps R (k a)) → steps R (m ≫= k).
Proof.
  intros Hm Hk s. rewrite bind_unfold.
  specialize (Hm s). destruct (m s) as [[a | e] s1]; simpl in *.
  - eapply frame_trans; [exact Hm | apply Hk].
  - exact Hm.
Qed.

Lemma steps_for {A : Type} (l : list A) (body : A → M unit) :
  (∀ x, steps R (body x)) → steps R (for_ l body).
Proof.
  intros H. induction l as [| x l IH]; simpl.
  - apply steps_ret.
  - apply steps_bind; [apply H | intros _; exact IH].
Qed.

Lemma steps_for_fold {A B : Type} (l : list A) (body : A → B → M B) (b : B) :
  (∀ x b, steps R (body x b)) → steps R (for_fold l body b).
Proof.
  intros H. revert b. induction l as [| x l IH]; intros b; simpl.
  - apply steps_ret.
  - apply steps_bind; [apply H | intros b'; apply IH].
Qed.

Lemma steps_no_grad {A : Type} (body : M A) : steps R body → steps R (no_grad body).
Proof.
  intros H s. unfold no_grad.
  specialize (H (set_grad_enabled false s)).
  destruct (body (set_grad_enabled false s)) as [r s1]; simpl in *.
  eapply frame_trans; [apply frame_grad |].
  eapply frame_trans; [exact H | apply frame_grad].
Qed.

End Steps.

(** Unfolds the monad and the primitive operations on the state. *)
Ltac run_prims :=
  cbv [mbind M_bind mret M_ret get modify emit raise lift_res] in *.

(** * setup_device *)

Lemma setup_device_cpu (s : State) (device_id : Z) :
  (0 <=? device_id) && cuda_available s = false →
  setup_device device_id s = (Ok Cpu, s).
Proof. intros H. unfold setup_device. run_prims. rewrite H. reflexivity. Qed.

(** C10. [setup_device] takes the CUDA index from the global name [cfg]
    ([cfg.GPU]), not from its parameter [device_id]: for every
    [device_id >= 0] with CUDA available the call raises [NameError] when the
    module has no binding of [cfg], and when it has one the device returned
    is [cuda:{cfg.GPU}] whatever [device_id] is. *)
Theorem setup_device_reads_global_cfg (s : State) (device_id : Z) :
  0 <= device_id →
  cuda_available s = true →
  (global_cfg s = None →
   setup_device device_id s = (Raise (NameError "cfg"), s)) ∧
  (∀ c, global_cfg s = Some c → 0 <= cfg_GPU c →
        setup_device device_id s
        = (Ok (Cuda (cfg_GPU c)), set_cudnn (mkCudnn true true true) s)).
Proof.
  intros Hid Hcuda.
  assert (Hc : (0 <=? device_id) && cuda_available s = true).
  { rewrite Hcuda. apply andb_true_intro. split; [apply Z.leb_le; lia | reflexivity]. }
  split.
  - intros Hg. unfold setup_device. run_prims. rewrite Hc, Hg. reflexivity.
  - intros c Hg Hgpu. unfold setup_device. run_prims. rewrite Hc, Hg.
    apply Z.leb_le in Hgpu. rewrite Hgpu. reflexivity.
Qed.

Lemma setup_device_reads_global_cfg_witness :
  setup_device 3 (Demo.boot None true ∅)
  = (Raise (NameError "cfg"), Demo.boot None true ∅)
  ∧ setup_device 3 (Demo.boot (Some (Demo.config 1 1 "" [])) true ∅)
    = (Ok (Cuda 0),
       set_cudnn (mkCudnn true true true)
                 (Demo.boot (Some (Demo.config 1 1 "" [])) true ∅)).
Proof.
  split.
  - apply (setup_device_reads_global_cfg (Demo.boot None true ∅) 3);
      [lia | reflexivity | reflexivity].
  - destruct (setup_device_reads_global_cfg
                (Demo.boot (Some (Demo.config 1 1 "" [])) true ∅) 3) as [_ H];
      [lia | reflexivity |].
    apply (H (Demo.config 1 1 "" [])); [reflexivity | simpl; lia].
Defined.

(** * load_model and save_checkpoint *)

Lemma has_slash_app (a b : string) :
  has_slash (a +:+ b) = has_slash a || has_slash b.
Proof.
  induction a as [| c a IH]; simpl; [reflexivity |].
  rewrite IH. apply orb_assoc.
Qed.

Lemma has_slash_path_join (a b : string) : has_slash (path_join a b) = true.
Proof.
  unfold path_join. rewrite has_slash_app. simpl. apply orb_true_r.
Qed.

Lemma has_slash_nonempty (p : string) : has_slash p = true → p ≠ "".
Proof. intros H ->. discriminate H. Qed.

Lemma lookup_snoc (h : list Net) (n : Net) : (h ++ [n]) !! length h = Some n.
Proof. apply list_lookup_middle. reflexivity. Qed.

Lemma insert_snoc (h : list Net) (n n' : Net) :
  <[length h := n']> (h ++ [n]) = h ++ [n'].
Proof.
  rewrite insert_app_r_alt by lia.
  replace (length h - length h)%nat with O by lia. reflexivity.
Qed.

Lemma isfile_true (path : string) (s : State) (f : File) :
  path ≠ "" → fs s !! path = Some f → isfile path s = true.
Proof.
  intros Hne Hf. unfold isfile. destruct (decide (path = "")) as [-> | _]; [done |].
  apply bool_decide_eq_true. rewrite Hf. eauto.
Qed.

Section LoadModel.
Context (P : Providers).

Lemma load_model_no_file (s : State) (reid_net pretrained : string) :
  isfile pretrained s = false →
  load_model P reid_net pretrained s
  = (Ok (length (heap s)),
     set_heap (heap s ++ [on_device (get_model P reid_net (num_classes (self s)))
                                    (device (self s))])
       (set_trace (trace s ++ [EvGetModel reid_net (num_classes (self s))
                                          (length (heap s))]) s)).
Proof.
  intros Hf. unfold load_model, alloc, net_to, update_net, read_net, write_net.
  run_prims. simpl. rewrite Hf. simpl.
  rewrite lookup_snoc. simpl. rewrite insert_snoc. reflexivity.
Qed.

Lemma load_model_garbage (s : State) (reid_net pretrained : string) :
  pretrained ≠ "" →
  fs s !! pretrained = Some FGarbage →
  load_model P reid_net pretrained s
  = (Raise UnpicklingError,
     set_heap (heap s ++ [get_model P reid_net (num_classes (self s))])
       (set_trace (trace s ++ [EvGetModel reid_net (num_classes (self s))
                                          (length (heap s));
                               EvTorchLoad pretrained]) s)).
Proof.
  intros Hne Hf. unfold load_model, alloc, torch_load.
  run_prims. simpl. rewrite (isfile_true _ _ _ Hne Hf). simpl.
  rewrite Hf. rewrite <- app_assoc. reflexivity.
Qed.

Lemma load_model_checkpoint (s : State) (reid_net pretrained : string)
  (c : Checkpoint) :
  pretrained ≠ "" →
  fs s !! pretrained = Some (FCheckpoint c) →
  let fresh := get_model P reid_net (num_classes (self s)) in
  let s1 := set_heap (heap s ++ [fresh])
              (set_trace (trace s ++ [EvGetModel reid_net (num_classes (self s))
                                                 (length (heap s));
                                      EvTorchLoad pretrained]) s) in
  load_model P reid_net pretrained s
  = match ck_net_dict c with
    | PStateDict sd =>
        if decide (shapes sd = shapes (net_params fresh)) then
          (Ok (length (heap s)),
           set_self (λ t, with_lr (ck_lr c)
                            (with_best_acc (ck_acc c)
                               (with_start_epoch (ck_epoch c) t)))
             (set_heap (heap s ++ [on_device (with_params fresh sd) (device (self s))])
                s1))
        else (Raise (RuntimeError "Error(s) in loading state_dict"), s1)
    | PBoundMethod _ _ =>
        (Raise (TypeError "Expected state_dict to be dict-like"), s1)
    end.
Proof.
  intros Hne Hf fresh s1. subst s1.
  unfold load_model, alloc, torch_load, load_state_dict, net_to, update_net,
    read_net, write_net.
  run_prims. simpl. rewrite (isfile_true _ _ _ Hne Hf). simpl.
  rewrite Hf. rewrite <- app_assoc. simpl.
  destruct (ck_net_dict c) as [sd | recv name]; simpl; [| reflexivity].
  rewrite lookup_snoc. fold fresh.
  destruct (decide (shapes sd = shapes (net_params fresh))); simpl; [| reflexivity].
  rewrite insert_snoc, lookup_snoc. simpl. rewrite insert_snoc. reflexivity.
Qed.

(** C7. When the pretrained path is not an existing file, [load_model]
    returns the network built by [get_model], raises nothing and leaves
    [self] (start epoch, best accuracy, learning rate) as it was.  When the
    path holds a checkpoint whose ['net_dict'] is a state dict that fits the
    network, the parameters, the epoch, the accuracy and the learning rate of
    the checkpoint are restored.  A file that cannot be unpickled, or a state
    dict that does not fit, makes the load raise. *)
Theorem load_model_missing_or_restored (s : State) (reid_net pretrained : string) :
  let fresh := get_model P reid_net (num_classes (self s)) in
  let id := length (heap s) in
  (isfile pretrained s = false →
   ∃ s', load_model P reid_net pretrained s = (Ok id, s')
         ∧ heap s' = heap s ++ [on_device fresh (device (self s))]
         ∧ self s' = self s)
  ∧ (∀ c sd,
       pretrained ≠ "" → fs s !! pretrained = Some (FCheckpoint c) →
       ck_net_dict c = PStateDict sd →
       shapes sd = shapes (net_params fresh) →
       ∃ s', load_model P reid_net pretrained s = (Ok id, s')
             ∧ heap s' = heap s ++ [on_device (with_params fresh sd) (device (self s))]
             ∧ start_epoch (self s') = ck_epoch c
             ∧ best_acc (self s') = ck_acc c
             ∧ lr (self s') = ck_lr c)
  ∧ (pretrained ≠ "" → fs s !! pretrained = Some FGarbage →
     ∃ s', load_model P reid_net pretrained s = (Raise UnpicklingError, s')
           ∧ self s' = self s)
  ∧ (∀ c sd,
       pretrained ≠ "" → fs s !! pretrained = Some (FCheckpoint c) →
       ck_net_dict c = PStateDict sd →
       shapes sd ≠ shapes (net_params fresh) →
       ∃ s', load_model P reid_net pretrained s
             = (Raise (RuntimeError "Error(s) in loading state_dict"), s')
             ∧ self s' = self s).
Proof.
  intros fresh id. repeat split.
  - intros Hf. eexists. split; [apply load_model_no_file; exact Hf |].
    split; reflexivity.
  - intros c sd Hne Hf Hsd Hshape. eexists. split.
    + rewrite (load_model_checkpoint s reid_net pretrained c Hne Hf). simpl.
      rewrite Hsd. fold fresh. rewrite decide_True by exact Hshape. reflexivity.
    + repeat split; reflexivity.
  - intros Hne Hf. eexists. split; [apply load_model_garbage; assumption |].
    reflexivity.
  - intros c sd Hne Hf Hsd Hshape. eexists. split.
    + rewrite (load_model_checkpoint s reid_net pretrained c Hne Hf). simpl.
      rewrite Hsd. fold fresh. rewrite decide_False by exact Hshape. reflexivity.
    + reflexivity.
Qed.

(** C1. A checkpoint written by [save_checkpoint] holds, under ['net_dict'],
    the bound method [net.state_dict] and not the state dict; reloading that
    file with [load_model] raises in [load_state_dict], so no model with the
    saved parameters is obtained. *)
Theorem saved_checkpoint_does_not_reload (s : State) (site : SaveSite)
  (filename reid_net : string) (net : nat) (n : Net) (epoch : Z) (lr_ : Q) :
  heap s !! net = Some n →
  has_slash filename = true →
  let s1 := snd (save_checkpoint site filename net epoch lr_ s) in
  fs s1 !! filename
  = Some (FCheckpoint (mkCheckpoint (PBoundMethod n "state_dict")
                                    (best_acc (self s)) epoch lr_))
  ∧ fst (load_model P reid_net filename s1)
    = Raise (TypeError "Expected state_dict to be dict-like").
Proof.
  intros Hn Hsl s1.
  pose proof (has_slash_nonempty filename Hsl) as Hne.
  assert (Hfs : fs s1 !! filename
                = Some (FCheckpoint (mkCheckpoint (PBoundMethod n "state_dict")
                                                  (best_acc (self s)) epoch lr_))).
  { subst s1. unfold save_checkpoint, makedirs_for, read_net. run_prims.
    rewrite Hsl, Hn. simpl. apply lookup_insert_eq. }
  split; [exact Hfs |].
  rewrite (load_model_checkpoint s1 reid_net filename _ Hne Hfs). reflexivity.
Qed.

End LoadModel.

Lemma load_model_missing_or_restored_witness :
  let s := Demo.started (Demo.config 1 1 "" ["SGD"]) Demo.disk in
  (∃ s', load_model Demo.providers "osnet" "absent.pth" s = (Ok O, s')
         ∧ self s' = self s)
  ∧ (∃ s', load_model Demo.providers "osnet" "good.pth" s = (Ok O, s')
           ∧ best_acc (self s') = (1 # 4)%Q ∧ start_epoch (self s') = 3)
  ∧ (∃ s', load_model Demo.providers "osnet" "bad.pth" s = (Raise UnpicklingError, s'))
  ∧ (∃ s', load_model Demo.providers "osnet" "other.pth" s
           = (Raise (RuntimeError "Error(s) in loading state_dict"), s')).
Proof.
  intros s. repeat split.
  - destruct (load_model_missing_or_restored Demo.providers s "osnet" "absent.pth")
      as [H _].
    destruct (H eq_refl) as (s' & Hrun & _ & Hself). exists s'. split; assumption.
  - destruct (load_model_missing_or_restored Demo.providers s "osnet" "good.pth")
      as (_ & H & _).
    destruct (H Demo.good_checkpoint {[ "fc.weight" := [1%Q; 2%Q] ]})
      as (s' & Hrun & _ & Hepoch & Hacc & _);
      [discriminate | reflexivity | reflexivity | reflexivity |].
    exists s'. repeat split; assumption.
  - destruct (load_model_missing_or_restored Demo.providers s "osnet" "bad.pth")
      as (_ & _ & H & _).
    destruct H as (s' & Hrun & _); [discriminate | reflexivity |].
    exists s'. exact Hrun.
  - destruct (load_model_missing_or_restored Demo.providers s "osnet" "other.pth")
      as (_ & _ & _ & H).
    destruct (H Demo.other_checkpoint {[ "conv.weight" := [1%Q; 2%Q] ]})
      as (s' & Hrun & _);
      [discriminate | reflexivity | reflexivity | vm_compute; discriminate |].
    exists s'. exact Hrun.
Defined.

Lemma saved_checkpoint_does_not_reload_witness :
  let s := set_heap [Demo.fresh_net] (Demo.started (Demo.config 1 1 "" ["SGD"]) ∅) in
  fst (load_model Demo.providers "osnet" "weights/epoch_0.pth"
         (snd (save_checkpoint SiteImproved "weights/epoch_0.pth" O 0 1 s)))
  = Raise (TypeError "Expected state_dict to be dict-like").
Proof.
  intros s.
  apply (saved_checkpoint_does_not_reload Demo.providers s SiteImproved
           "weights/epoch_0.pth" "osnet" O Demo.fresh_net 0 1);
    [reflexivity | reflexivity].
Defined.

(** * The two checkpoint policies of an epoch *)

Lemma save_checkpoint_run (s : State) (site : SaveSite) (filename : string)
  (net : nat) (n : Net) (epoch : Z) (lr_ : Q) :
  has_slash filename = true →
  heap s !! net = Some n →
  let c := mkCheckpoint (PBoundMethod n "state_dict") (best_acc (self s)) epoch lr_ in
  save_checkpoint site filename net epoch lr_ s
  = (Ok tt, set_fs (<[filename := FCheckpoint c]> (fs s))
              (set_trace (trace s ++ [EvSave site filename c]) s)).
Proof.
  intros Hsl Hn c. unfold save_checkpoint, makedirs_for, read_net. run_prims.
  rewrite Hsl, Hn. reflexivity.
Qed.

Lemma interval_due_run (s : State) (epoch : Z) :
  let save_interval := tr_save_interval (cfg_train (cfg (self s))) in
  1 <= save_interval →
  0 <= epoch →
  interval_due epoch s = (Ok (bool_decide (save_interval = 1 ∧ epoch = 0)), s).
Proof.
  intros si Hsi Hep. unfold interval_due. run_prims. fold si.
  destruct (Z.eqb_spec si 0) as [Hz | _]; [lia |].
  f_equal. f_equal.
  destruct (decide (si = 1)) as [H1 | H1].
  - rewrite H1, Z.mod_1_r, Z.add_0_r.
    destruct (Z.eqb_spec epoch 0) as [He | He].
    + symmetry. apply bool_decide_eq_true. split; [reflexivity | exact He].
    + symmetry. apply bool_decide_eq_false. intros [_ He']. contradiction.
  - rewrite Z.mod_1_l by lia.
    destruct (Z.eqb_spec (epoch + 1) 0) as [He | He]; [lia |].
    symmetry. apply bool_decide_eq_false. intros [Hs _]. contradiction.
Qed.




Section Improvement.
Context (P : Providers).


End Improvement.


(** * Relations kept by every step of [train] *)

#[global] Instance emits_frame (good : Event → Prop) : Frame (emits good).
Proof.
  assert (Hsame : ∀ s s', trace s' = trace s → emits good s s').
  { intros s s' H. exists []. rewrite app_nil_r. split; [exact H | constructor]. }
  split; try (intros; apply Hsame; reflexivity).
  intros s1 s2 s3 (e1 & H1 & G1) (e2 & H2 & G2). exists (e1 ++ e2). split.
  - rewrite H2, H1, app_assoc. reflexivity.
  - apply Forall_app. split; assumption.
Qed.

#[global] Instance acc_grows_frame : Frame acc_grows.
Proof.
  split; try (intros; apply Qle_refl).
  intros s1 s2 s3 H1 H2. unfold acc_grows in *. eapply Qle_trans; eassumption.
Qed.

#[global] Instance acc_same_frame : Frame acc_same.
Proof.
  split; try (intros; reflexivity).
  intros s1 s2 s3 H1 H2. unfold acc_same in *. congruence.
Qed.

#[global] Instance keeps_config_frame : Frame keeps_config.
Proof.
  split; try (intros; repeat split; reflexivity).
  intros s1 s2 s3 (A1 & B1 & C1 & D1) (A2 & B2 & C2 & D2).
  repeat split; etransitivity; eassumption.
Qed.

Lemma emits_event (good : Event → Prop) (e : Event) (s : State) :
  good e → emits good s (set_trace (trace s ++ [e]) s).
Proof. intros H. exists [e]. split; [reflexivity | repeat constructor; exact H]. Qed.

Lemma emits_silent (good : Event → Prop) (s s' : State) :
  trace s' = trace s → emits good s s'.
Proof. intros H. exists []. rewrite app_nil_r. split; [exact H | constructor]. Qed.

Ltac frame_leaf :=
  cbv beta;
  first [ apply frame_refl | apply frame_heap | apply frame_fs | apply frame_rng
        | apply frame_grad | apply frame_optimizer | apply frame_scheduler
        | apply frame_cudnn ].

(** Walks through a monadic term; [known] applies the lemmas already proved
    for sub-terms, [leaf] has to prove the relation for the assignments to
    [self] and for the events. *)
Ltac steps_walk known leaf :=
  repeat first
    [ assumption
    | known
    | solve [typeclasses eauto]
    | apply steps_ret | apply steps_raise | apply steps_get | apply steps_lift_res
    | apply steps_no_grad
    | apply steps_bind; [ | | intros ?]
    | apply steps_for; [ | intros ?]
    | apply steps_for_fold; [ | intros ? ?]
    | apply steps_modify; intros ?; first [ frame_leaf | leaf ]
    | progress unfold emit, update_net, read_net, write_net, read_optimizer,
        read_scheduler, next_iter, iter_loader, apply_mask, norm, call_net,
        call_criterion, train_step, train_phase, val_step, validation_phase,
        checkpoint_path, interval_due, interval_checkpoint, makedirs_for,
        save_checkpoint,
        final_validation, improvement_checkpoint, step_scheduler, epoch_body,
        alloc, torch_load,
        load_state_dict, net_to, load_model, bind_optimizer, bind_scheduler,
        run_body, train, setup_device, new_DataLoader, load_data, Trainer_init
    | progress cbv beta zeta
    | case_match ].

Section EpochInvariants.
Context (P : Providers).

Lemma improvement_acc_grows (checkpoint_file : string) (net : nat) (epoch : Z) :
  steps acc_grows (improvement_checkpoint P checkpoint_file net epoch).
Proof.
  intros s.
  unfold improvement_checkpoint, save_checkpoint, makedirs_for, read_optimizer,
    read_net.
  run_prims. unfold acc_grows.
  destruct (Qlt_le_dec (best_acc (self s)) (val_accuracy P (trace s))) as [Hlt | Hle];
    simpl; [| apply Qle_refl].
  destruct (optimizer s); simpl; [| apply Qlt_le_weak; exact Hlt].
  destruct (has_slash checkpoint_file); simpl; [| apply Qlt_le_weak; exact Hlt].
  destruct (heap s !! net); simpl; apply Qlt_le_weak; exact Hlt.
Qed.

Lemma epoch_body_acc_grows (run : Run) (net : nat) (epoch : Z) :
  steps acc_grows (epoch_body P run net epoch).
Proof.
  steps_walk ltac:(apply improvement_acc_grows) ltac:(apply Qle_refl).
Qed.

(** The state reached when a run returns has its best accuracy reset. *)
Lemma run_body_resets (run : Run) (s s' : State) :
  run_body P run s = (Ok tt, s') → best_acc (self s') = 0%Q.
Proof.
  unfold run_body. intros H.
  repeat (apply bind_inv_ok in H; destruct H as (? & ? & _ & H)).
  unfold modify in H. injection H as <-. reflexivity.
Qed.

Lemma for_runs_resets (pre : list Run) (s s1 : State) :
  best_acc (self s) = 0%Q →
  for_ pre (run_body P) s = (Ok tt, s1) →
  best_acc (self s1) = 0%Q.
Proof.
  revert s. induction pre as [| r pre IH]; intros s H0 H; simpl in H.
  - injection H as <-. exact H0.
  - apply bind_inv_ok in H. destruct H as ([] & s2 & Hr & H).
    apply (IH s2); [exact (run_body_resets r s s2 Hr) | exact H].
Qed.

(** [train] reaches the run that follows [pre] in the state left by the runs
    of [pre]. *)
Lemma train_reaches_run (pre post : list Run) (run : Run) (s s1 : State) :
  runs (self s) = pre ++ run :: post →
  for_ pre (run_body P)
       (set_trace (trace s ++ [EvRunner (path_join (save_root (self s)) "runs")]) s)
  = (Ok tt, s1) →
  train P s
  = (run_body P run;;
     for_ post (run_body P);;
     emit (EvRunnerSave (path_join (save_root (self s)) "train_result"))) s1.
Proof.
  intros Hruns Hpre. unfold train.
  rewrite bind_get, bind_emit, Hruns. rewrite bind_unfold, for_app, Hpre.
  change (for_ (run :: post) (run_body P))
    with (run_body P run;; for_ post (run_body P)).
  rewrite <- bind_assoc. rewrite (bind_unfold (_ ≫= _)).
  destruct ((run_body P run;; for_ post (run_body P)) s1) as [[[] | e] s2];
    reflexivity.
Qed.

Lemma Trainer_init_best_acc (c : Cfg) (s : State) :
  best_acc (self (snd (Trainer_init P c s))) = 0%Q.
Proof.
  unfold Trainer_init. rewrite bind_unfold. unfold modify at 1. cbv beta iota.
  match goal with
  | |- best_acc (self (snd (?m ?s0))) = _ =>
      assert (H : steps acc_same m) by (steps_walk fail ltac:(reflexivity));
      exact (H s0)
  end.
Qed.

(** C3. In [train], every run of the sweep starts with a best accuracy of 0:
    the constructor sets it to 0 and every run that returns resets it to 0,
    whatever the pretrained path is.  An epoch never decreases the best
    accuracy, and so neither does any sequence of epochs of a run. *)
Theorem best_acc_zero_at_run_start_and_monotone :
  (∀ (c : Cfg) (s : State), best_acc (self (snd (Trainer_init P c s))) = 0%Q)
  ∧ (∀ (s s1 : State) (pre post : list Run) (run : Run),
     best_acc (self s) = 0%Q →
     runs (self s) = pre ++ run :: post →
     for_ pre (run_body P)
          (set_trace (trace s ++ [EvRunner (path_join (save_root (self s)) "runs")]) s)
     = (Ok tt, s1) →
       best_acc (self s1) = 0%Q
       ∧ train P s
         = (run_body P run;;
            for_ post (run_body P);;
            emit (EvRunnerSave (path_join (save_root (self s)) "train_result"))) s1)
  ∧ (∀ (run : Run) (net : nat) (epoch : Z) (s : State),
       (best_acc (self s) <= best_acc (self (snd (epoch_body P run net epoch s))))%Q)
  ∧ (∀ (run : Run) (net : nat) (epochs : list Z) (s : State),
       (best_acc (self s)
        <= best_acc (self (snd (for_ epochs (epoch_body P run net) s))))%Q).
Proof.
  split; [exact Trainer_init_best_acc |]. split; [| split].
  - intros s s1 pre post run H0 Hruns Hpre. split.
    + eapply for_runs_resets; [| exact Hpre]. exact H0.
    + apply (train_reaches_run pre post run s s1 Hruns Hpre).
  - intros run net epoch s. apply epoch_body_acc_grows.
  - intros run net epochs s.
    apply (steps_for acc_grows epochs (epoch_body P run net)
             (epoch_body_acc_grows run net)).
Qed.

End EpochInvariants.

Lemma best_acc_zero_at_run_start_and_monotone_witness :
  let c := Demo.config 5 1 "good.pth" ["SGD"; "Adam"] in
  let s := Demo.started c Demo.disk in
  let s0 := set_trace (trace s ++ [EvRunner (path_join (save_root (self s)) "runs")]) s in
  let sgd := mkRun 1 "SGD" None None in
  let adam := mkRun 1 "Adam" None None in
  best_acc (self (snd (for_ [sgd] (run_body Demo.providers) s0))) = 0%Q
  ∧ (best_acc (self s) <= best_acc (self (snd (epoch_body Demo.providers sgd O 1 s))))%Q.
Proof.
  intros c s s0 sgd adam.
  destruct (best_acc_zero_at_run_start_and_monotone Demo.providers)
    as (_ & H & Hmono & _).
  split.
  - apply (H s (snd (for_ [sgd] (run_body Demo.providers) s0)) [sgd] [] adam).
    + reflexivity.
    + reflexivity.
    + vm_compute. reflexivity.
  - apply Hmono.
Defined.

(** * load_data and the batches read by the training loop *)

Section LoadData.
Context (P : Providers).

Lemma loader_batches_unshuffled (dl : DataLoader) (seed : nat) :
  dl_shuffle dl = false → loader_batches P dl seed = loader_batches P dl O.
Proof. intros H. unfold loader_batches. rewrite H. reflexivity. Qed.

Lemma next_iter_unshuffled (dl : DataLoader) (s : State) :
  dl_shuffle dl = false →
  next_iter P (Some dl) s
  = (match loader_batches P dl O with
     | [] => Raise StopIteration
     | b :: _ => Ok b
     end, s).
Proof.
  intros H. unfold next_iter, iter_loader. run_prims. rewrite H.
  rewrite (loader_batches_unshuffled dl (rng s) H).
  destruct (loader_batches P dl O); reflexivity.
Qed.

Lemma load_data_run (root reid_net : string) (s s' : State) :
  load_data P root reid_net s = (Ok tt, s') →
  let d := cfg_dataset (cfg (self s)) in
  let val_split :=
    get_dataset P (cfg_reid_net (cfg (self s))) (ds_name d) root "val"
                (get_transforms P (ds_size d)) in
  let dl := mkDataLoader val_split false (ds_batch_size d) (ds_workers d) in
  s' = set_self (λ t, with_num_classes (dset_num_classes val_split)
                        (with_val_loader dl (with_train_loader dl t))) s.
Proof.
  intros H d val_split dl. revert H.
  unfold load_data, new_DataLoader. run_prims. fold d. fold val_split.
  destruct (ds_batch_size d <=? 0); [discriminate |].
  destruct (ds_workers d <? 0); [discriminate |].
  simpl. intros H. injection H as <-. reflexivity.
Qed.

Section OneLoader.
Context (dl : DataLoader) (Hdl : dl_shuffle dl = false).

#[local] Instance same_first_batch_frame : Frame (same_first_batch P dl).
Proof.
  split; try (intros; intros Htl; split; [exact Htl | apply emits_silent; reflexivity]).
  intros s1 s2 s3 H1 H2 Htl.
  destruct (H1 Htl) as [Htl2 E1]. destruct (H2 Htl2) as [Htl3 E2].
  split; [exact Htl3 |]. eapply (frame_trans (R := emits _)); eassumption.
Qed.

Ltac first_batch_leaf :=
  let Hl := fresh "Hl" in
  let Hev := fresh "Hev" in
  intros Hl; split;
  [ exact Hl
  | first [ apply emits_silent; reflexivity
          | apply emits_event; intros ? Hev;
            first [ discriminate Hev | injection Hev as <-; assumption ] ] ].

Lemma train_phase_same_first_batch (run : Run) (net : nat) :
  steps (same_first_batch P dl) (train_phase P run net).
Proof.
  intros s Htl. unfold train_phase.
  rewrite bind_get, Htl, bind_unfold, (next_iter_unshuffled dl s Hdl).
  destruct (loader_batches P dl O) as [| b bs] eqn:Hb.
  - split; [exact Htl | apply emits_silent; reflexivity].
  - match goal with
    | |- _ ∧ emits _ _ (snd (?m s)) =>
        assert (H : steps (same_first_batch P dl) m)
    end.
    { assert (Hhd : head (loader_batches P dl O) = Some b)
        by (rewrite Hb; reflexivity).
      steps_walk fail ltac:(first_batch_leaf). }
    rewrite <- Hb. exact (H s Htl).
Qed.

Lemma run_body_same_first_batch (run : Run) :
  steps (same_first_batch P dl) (run_body P run).
Proof.
  steps_walk ltac:(first [ apply train_phase_same_first_batch
                         | apply steps_ret ])
             ltac:(first_batch_leaf).
Qed.

End OneLoader.

(** C9. [load_data] builds the training loader and the validation loader
    from the same call [get_dataset(reid_net, name, root, mode='val', tfms)],
    both with [shuffle=False], the configured batch size and worker count.
    Hence the batches of the training loader are slices of the validation
    split, and in every run each [next(iter(self.train_loader))] of the
    training loop returns the same batch, the first one of that loader. *)
Theorem load_data_trains_on_val_split (root reid_net : string) (s s' : State) :
  load_data P root reid_net s = (Ok tt, s') →
  let d := cfg_dataset (cfg (self s)) in
  let val_split :=
    get_dataset P (cfg_reid_net (cfg (self s))) (ds_name d) root "val"
                (get_transforms P (ds_size d)) in
  let dl := mkDataLoader val_split false (ds_batch_size d) (ds_workers d) in
  train_loader (self s') = Some dl
  ∧ val_loader (self s') = Some dl
  ∧ (∀ seed, loader_batches P dl seed
             = map collate (chunks (length (dset_samples val_split))
                                   (Z.to_nat (ds_batch_size d))
                                   (dset_samples val_split)))
  ∧ (∀ (run : Run) (st : State),
       train_loader (self st) = Some dl →
       train_loader (self (snd (run_body P run st))) = Some dl
       ∧ emits (fetches (head (loader_batches P dl O))) st (snd (run_body P run st))).
Proof.
  intros H d val_split dl.
  pose proof (load_data_run root reid_net s s' H) as ->.
  split; [reflexivity |]. split; [reflexivity |]. split; [reflexivity |].
  intros run st Hst.
  exact (run_body_same_first_batch dl eq_refl run st Hst).
Qed.

End LoadData.

Lemma load_data_trains_on_val_split_witness :
  let s := Demo.started (Demo.config 2 1 "" ["SGD"]) ∅ in
  let s' := snd (load_data Demo.providers "data" "osnet" s) in
  train_loader (self s') = val_loader (self s')
  ∧ (dl_shuffle <$> train_loader (self s')) = Some false
  ∧ emits (fetches (Some ([[1%Q]; [2%Q]], [0; 1]))) s'
          (snd (run_body Demo.providers (mkRun 1 "SGD" None None) s')).
Proof.
  intros s s'.
  destruct (load_data_trains_on_val_split Demo.providers "data" "osnet" s s')
    as (Ht & Hv & _ & Hrun); [reflexivity |].
  split; [rewrite Ht, Hv; reflexivity |].
  split; [rewrite Ht; reflexivity |].
  apply (Hrun (mkRun 1 "SGD" None None) s'). exact Ht.
Defined.

(** * The events of a training step and of a validation step *)

Section Primitives.
Context (P : Providers).

Lemma apply_mask_run (run : Run) (images : list Tensor) (s : State) :
  ∃ s', apply_mask P run images s = (Ok (masked P (cfg (self s)) run images), s')
        ∧ trace s' = trace s
                     ++ (if getattr_flag (run_gaussian_mask run)
                         then [EvMask (masked P (cfg (self s)) run images)] else [])
        ∧ same_objects s s' ∧ heap s' = heap s.
Proof.
  unfold apply_mask, masked. run_prims.
  destruct (getattr_flag (run_gaussian_mask run)); eexists;
    (split; [reflexivity |]); simpl; rewrite ?app_nil_r;
    repeat split; reflexivity.
Qed.

Lemma norm_run (images : list Tensor) (s : State) :
  norm P images s
  = (Ok (normalized P (cfg (self s)) images),
     add_events [EvNormalize (normalized P (cfg (self s)) images)] s).
Proof. reflexivity. Qed.

Lemma call_net_run (net : nat) (n : Net) (x : list Tensor) (s : State) :
  heap s !! net = Some n →
  call_net P net x s
  = (Ok (forward P n (grad_enabled s) x),
     add_events [EvForward net (grad_enabled s) x] s).
Proof.
  intros H. unfold call_net, read_net. run_prims. rewrite H. reflexivity.
Qed.

Lemma call_criterion_run (preds : list Tensor) (labels : list Z) (s : State) :
  call_criterion P preds labels s
  = (Ok (criterion P preds labels), add_events [EvCriterion preds labels] s).
Proof. reflexivity. Qed.

Lemma update_net_run (id : nat) (f : Net → Net) (n : Net) (s : State) :
  heap s !! id = Some n →
  update_net id f s = (Ok tt, set_heap (<[id := f n]> (heap s)) s).
Proof.
  intros H. unfold update_net, read_net, write_net. run_prims. rewrite H. reflexivity.
Qed.

Lemma read_optimizer_run (opt : Optimizer) (s : State) :
  optimizer s = Some opt → read_optimizer s = (Ok opt, s).
Proof. intros H. unfold read_optimizer. run_prims. rewrite H. reflexivity. Qed.

Lemma read_optimizer_unbound (s : State) :
  optimizer s = None → read_optimizer s = (Raise (UnboundLocalError "optimizer"), s).
Proof. intros H. unfold read_optimizer. run_prims. rewrite H. reflexivity. Qed.

Lemma insert_is_Some (h : list Net) (i j : nat) (n : Net) :
  is_Some (h !! j) → is_Some (<[i := n]> h !! j).
Proof. rewrite !lookup_lt_is_Some, length_insert. auto. Qed.

(** The part shared by the training and the validation step. *)
Lemma forward_part_run (run : Run) (net : nat) (n : Net)
  (images0 : list Tensor) (labels : list Z) (s : State) :
  heap s !! net = Some n →
  let c := cfg (self s) in
  let x := normalized P c (masked P c run images0) in
  let preds := forward P n (grad_enabled s) x in
  ∃ s1, (∀ (A : Type) (k : list Tensor → list Tensor → list Tensor → Q → M A),
           (images ← apply_mask P run images0;
            tfms_images ← norm P images;
            preds ← call_net P net tfms_images;
            loss ← call_criterion P preds labels;
            k images tfms_images preds loss) s
           = k (masked P c run images0) x preds (criterion P preds labels) s1)
        ∧ trace s1 = trace s ++ forward_events P c run net (grad_enabled s) n
                                               (images0, labels)
        ∧ same_objects s s1 ∧ heap s1 = heap s.
Proof.
  intros Hn c x preds.
  destruct (apply_mask_run run images0 s) as (s0 & Hm & Ht0 & Hsame & Hh0).
  destruct Hsame as (Hself & Hopt & Hsch & Hfs & Hgrad & Hlen).
  assert (Hn0 : heap (add_events [EvNormalize (normalized P (cfg (self s0))
                                                (masked P c run images0))] s0) !! net
                = Some n) by (simpl; rewrite Hh0; exact Hn).
  eexists. split; [| split; [| split]].
  - intros A k.
    rewrite (bind_ok _ _ _ _ _ Hm).
    rewrite (bind_ok _ _ _ _ _ (norm_run _ s0)).
    rewrite (bind_ok _ _ _ _ _ (call_net_run net n _ _ Hn0)).
    rewrite (bind_ok _ _ _ _ _ (call_criterion_run _ _ _)).
    subst c x preds.
    cbn [add_events set_trace grad_enabled self heap trace].
    rewrite Hself, Hgrad. reflexivity.
  - cbn [add_events set_trace grad_enabled self heap trace optimizer scheduler fs].
    rewrite Ht0. unfold forward_events. rewrite <- !app_assoc. reflexivity.
  - repeat split; assumption.
  - exact Hh0.
Qed.

(** Lines 148-169 on a state where the network and the optimizer exist. *)
Lemma train_step_run (run : Run) (net : nat) (n : Net) (opt : Optimizer)
  (images : list Tensor) (labels : list Z) (s : State) :
  heap s !! net = Some n →
  optimizer s = Some opt →
  is_Some (heap s !! opt_target opt) →
  ∃ s', train_step P run net images labels s
        = (Ok (masked P (cfg (self s)) run images), s')
        ∧ trace s' = trace s ++ train_step_events P (cfg (self s)) run net
                                  (grad_enabled s) n (opt_target opt) (images, labels)
        ∧ same_objects s s'
        ∧ heap s' = after_train_step P (cfg (self s)) run net opt (images, labels)
                                     (heap s).
Proof.
  intros Hn Hopt Htn.
  destruct (forward_part_run run net n images labels s Hn)
    as (s1 & Hrun & Ht1 & (Hself & Hopt1 & Hsch & Hfs & Hgrad & Hlen) & Hh1).
  unfold train_step. rewrite Hrun. clear Hrun.
  rewrite Hopt in Hopt1.
  rewrite (bind_ok _ _ _ _ _ (read_optimizer_run opt s1 Hopt1)).
  rewrite <- Hh1 in Htn. destruct Htn as [tn Htn].
  rewrite (bind_ok _ _ _ _ _ (update_net_run _ _ tn s1 Htn)).
  rewrite bind_emit.
  set (h1 := <[opt_target opt := zero_grad P tn]> (heap s1)).
  assert (Hn1 : is_Some (h1 !! net)).
  { apply insert_is_Some. rewrite Hh1, Hn. eauto. }
  destruct Hn1 as [n1 Hn1].
  match goal with
  | |- context [(update_net net ?f ≫= _) ?st] =>
      rewrite (bind_ok _ _ _ _ _ (update_net_run net f n1 st Hn1))
  end.
  rewrite bind_emit.
  set (h2 := <[net := backward P n1 _ labels]> _).
  match goal with
  | |- context [(read_optimizer ≫= _) ?st] =>
      rewrite (bind_ok _ _ _ _ _ (read_optimizer_run opt st Hopt1))
  end.
  assert (Htn2 : is_Some (h2 !! opt_target opt)).
  { apply insert_is_Some, insert_is_Some. eauto. }
  destruct Htn2 as [tn2 Htn2].
  match goal with
  | |- context [(update_net (opt_target opt) ?f ≫= _) ?st] =>
      rewrite (bind_ok _ _ _ _ _ (update_net_run (opt_target opt) f tn2 st Htn2))
  end.
  rewrite !bind_emit.
  eexists. split; [reflexivity |].
  cbn [add_events set_trace set_heap grad_enabled self heap trace optimizer
       scheduler fs].
  split.
  - rewrite Ht1. unfold train_step_events, track_events.
    rewrite <- !app_assoc. reflexivity.
  - split.
    + unfold same_objects.
      cbn [add_events set_trace set_heap grad_enabled self heap trace optimizer
           scheduler fs].
      rewrite Hopt1, Hopt. repeat split; try assumption.
      subst h1 h2. rewrite !length_insert.
      cbn [set_trace set_heap heap]. rewrite length_insert. exact Hlen.
    + unfold after_train_step, heap_update. cbn [fst snd].
      rewrite <- Hh1, Htn. fold h1. rewrite Hn1.
      unfold h2 in Htn2 |- *. cbn [set_trace set_heap heap] in Htn2 |- *.
      rewrite Htn2. reflexivity.
Qed.

End Primitives.

(** * The training phase of an epoch *)

Section TrainingPhase.
Context (P : Providers).

Lemma next_iter_run (dl : DataLoader) (b : Batch) (rest : list Batch) (s : State) :
  loader_batches P dl (rng s) = b :: rest →
  ∃ s1, next_iter P (Some dl) s = (Ok b, s1)
        ∧ trace s1 = trace s ∧ same_objects s s1 ∧ heap s1 = heap s.
Proof.
  intros Hb. unfold next_iter, iter_loader. run_prims.
  destruct (dl_shuffle dl); simpl; rewrite Hb; eexists;
    (split; [reflexivity |]); repeat split; reflexivity.
Qed.

Lemma train_phase_run (run : Run) (net : nat) (n : Net) (opt : Optimizer)
  (dl : DataLoader) (b : Batch) (rest : list Batch) (s : State) :
  train_loader (self s) = Some dl →
  loader_batches P dl (rng s) = b :: rest →
  heap s !! net = Some n →
  optimizer s = Some opt →
  is_Some (heap s !! opt_target opt) →
  ∃ s', train_phase P run net s = (Ok (masked P (cfg (self s)) run (fst b)), s')
        ∧ trace s' = trace s ++ EvNextBatch b
                       :: train_step_events P (cfg (self s)) run net (grad_enabled s)
                            n (opt_target opt) b
        ∧ same_objects s s'
        ∧ heap s' = after_train_step P (cfg (self s)) run net opt b (heap s).
Proof.
  intros Htl Hb Hn Hopt Htn.
  destruct (next_iter_run dl b rest s Hb)
    as (s1 & Hnext & Ht1 & (Hself & Hopt1 & Hsch & Hfs & Hgrad & Hlen) & Hh1).
  unfold train_phase. rewrite bind_get, Htl, (bind_ok _ _ _ _ _ Hnext), bind_emit.
  change (range 0 1) with [0]. cbn [for_fold].
  set (s2 := set_trace (trace s1 ++ [EvNextBatch b]) s1).
  destruct (train_step_run P run net n opt (fst b) (snd b) s2)
    as (s' & Hstep & Ht' & (Hself' & Hopt' & Hsch' & Hfs' & Hgrad' & Hlen') & Hheap').
  { subst s2. simpl. rewrite Hh1. exact Hn. }
  { subst s2. simpl. rewrite Hopt1. exact Hopt. }
  { subst s2. simpl. rewrite Hh1. exact Htn. }
  rewrite (bind_ok _ _ _ _ _ Hstep).
  subst s2. cbn [set_trace self grad_enabled trace heap optimizer scheduler fs] in *.
  rewrite Hself in *. rewrite Hgrad in *.
  eexists. split; [reflexivity |]. split; [| split].
  - rewrite Ht', Ht1, <- app_assoc. destruct b. reflexivity.
  - repeat split; congruence.
  - rewrite Hheap', Hh1. destruct b. reflexivity.
Qed.

(** C5. In an epoch that starts with a training loader that yields at least
    one batch, with the network allocated and the name [optimizer] bound, the
    training phase fetches one batch, the first of a fresh iterator, runs on
    it the optional mask, the normalization, the forward pass, the loss,
    [zero_grad], the backward pass and one optimizer step, and hands this
    loss and these predictions to the Runner.  The network objects after the
    phase are those before it with the gradients of the optimizer's network
    cleared, the gradients of this batch stored in the network, and the
    parameters of the optimizer's network updated by one step, in this order.
    After that the epoch fetches no other batch and makes no other backward
    pass or optimizer step. *)
Theorem training_phase_processes_first_batch_only (run : Run) (net : nat) (epoch : Z)
  (n : Net) (opt : Optimizer) (dl : DataLoader) (b : Batch) (rest : list Batch)
  (s : State) :
  train_loader (self s) = Some dl →
  loader_batches P dl (rng s) = b :: rest →
  heap s !! net = Some n →
  optimizer s = Some opt →
  is_Some (heap s !! opt_target opt) →
  let step := train_step_events P (cfg (self s)) run net (grad_enabled s) n
                                (opt_target opt) b in
  (∃ s', train_phase P run net s = (Ok (masked P (cfg (self s)) run (fst b)), s')
         ∧ trace s' = trace s ++ EvNextBatch b :: step
         ∧ heap s' = after_train_step P (cfg (self s)) run net opt b (heap s))
  ∧ count_events is_train_step_event (EvNextBatch b :: step) = 4%nat
  ∧ (∃ later,
       trace (snd (epoch_body P run net epoch s))
       = trace s ++ [EvBeginEpoch; EvNextBatch b] ++ step
                 ++ EvAddTbData PhTrain :: later
       ∧ Forall (λ e, is_train_step_event e = false) later).
Proof.
  intros Htl Hb Hn Hopt Htn step. split; [| split].
  - destruct (train_phase_run run net n opt dl b rest s Htl Hb Hn Hopt Htn)
      as (s' & Hrun & Ht & _ & Hheap).
    exists s'. split; [exact Hrun |]. split; [exact Ht | exact Hheap].
  - subst step. unfold train_step_events, forward_events, track_events, count_events.
    destruct (getattr_flag (run_gaussian_mask run)); reflexivity.
  - unfold epoch_body. rewrite bind_emit.
    destruct (train_phase_run run net n opt dl b rest
                (set_trace (trace s ++ [EvBeginEpoch]) s) Htl Hb Hn Hopt Htn)
      as (s' & Hrun & Ht & _).
    rewrite (bind_ok _ _ _ _ _ Hrun), bind_emit.
    match goal with
    | |- ∃ later, trace (snd (?m ?st)) = _ ∧ _ =>
        assert (H : steps (emits (λ e, is_train_step_event e = false)) m)
          by (steps_walk fail ltac:(first [ apply emits_silent; reflexivity
                                          | apply emits_event; reflexivity ]));
        destruct (H st) as (later & Hlater & Hgood)
    end.
    exists later. split; [| exact Hgood].
    rewrite Hlater. cbn [set_trace trace]. rewrite Ht.
    cbn [set_trace trace self grad_enabled]. fold step.
    rewrite <- !app_assoc. reflexivity.
Qed.

End TrainingPhase.

(** * The validation pass *)

Lemma chunks_concat {A : Type} (n : nat) (l : list A) (fuel : nat) :
  (0 < n)%nat → (length l <= fuel)%nat → concat (chunks fuel n l) = l.
Proof.
  intros Hn. revert l. induction fuel as [| fuel IH]; intros l Hl.
  - destruct l; [reflexivity | simpl in Hl; lia].
  - destruct l as [| x l]; [reflexivity |].
    cbn [chunks concat]. rewrite IH.
    + apply take_drop.
    + rewrite length_drop. simpl in *. lia.
Qed.

Section ValidationPhase.
Context (P : Providers).

Lemma val_step_run (run : Run) (net : nat) (n : Net) (b : Batch) (s : State) :
  heap s !! net = Some n →
  grad_enabled s = false →
  ∃ s', val_step P run net b s = (Ok (masked P (cfg (self s)) run (fst b)), s')
        ∧ trace s' = trace s ++ val_step_events P (cfg (self s)) run net n b
        ∧ same_objects s s' ∧ heap s' = heap s.
Proof.
  intros Hn Hg.
  destruct (forward_part_run P run net n (fst b) (snd b) s Hn)
    as (s1 & Hrun & Ht1 & (Hself & Hopt1 & Hsch & Hfs & Hgrad & Hlen) & Hh1).
  unfold val_step. rewrite Hrun. clear Hrun. rewrite !bind_emit.
  eexists. split; [reflexivity |].
  unfold same_objects.
  cbn [add_events set_trace grad_enabled self heap trace optimizer scheduler fs].
  rewrite Ht1, Hg. unfold val_step_events, track_events. rewrite <- !app_assoc.
  destruct b. split; [reflexivity |]. split; [| assumption].
  repeat split; congruence.
Qed.

Lemma val_loop_run (run : Run) (net : nat) (n : Net) (bs : list Batch) :
  ∀ (images : list Tensor) (s : State),
    heap s !! net = Some n →
    grad_enabled s = false →
    ∃ images' s',
      for_fold bs (λ b _, val_step P run net b) images s = (Ok images', s')
      ∧ trace s' = trace s ++ flat_map (val_step_events P (cfg (self s)) run net n) bs
      ∧ same_objects s s' ∧ heap s' = heap s.
Proof.
  induction bs as [| b bs IH]; intros images s Hn Hg.
  - exists images, s. split; [reflexivity |]. simpl. rewrite app_nil_r.
    repeat split; reflexivity.
  - destruct (val_step_run run net n b s Hn Hg)
      as (s1 & Hstep & Ht1 & (Hself & Hopt1 & Hsch & Hfs & Hgrad & Hlen) & Hh1).
    destruct (IH (masked P (cfg (self s)) run (fst b)) s1)
      as (images' & s' & Hloop & Ht' & (Hself' & Hopt' & Hsch' & Hfs' & Hgrad' & Hlen') & Hh');
      [rewrite Hh1; exact Hn | rewrite Hgrad; exact Hg |].
    exists images', s'. cbn [for_fold]. rewrite (bind_ok _ _ _ _ _ Hstep).
    split; [exact Hloop |]. split.
    + rewrite Ht', Ht1, Hself. cbn [flat_map]. rewrite <- app_assoc. reflexivity.
    + split; [| congruence]. repeat split; congruence.
Qed.

(** Lines 185-200 on a state where the network exists and the validation
    loader is set. *)
Lemma validation_phase_run (run : Run) (net : nat) (n : Net) (dl : DataLoader)
  (images : list Tensor) (s : State) :
  val_loader (self s) = Some dl →
  heap s !! net = Some n →
  ∃ images' s',
    validation_phase P run net images s = (Ok images', s')
    ∧ trace s' = trace s
                 ++ EvEval net
                    :: flat_map (val_step_events P (cfg (self s)) run net (in_eval_mode n))
                                (loader_batches P dl (rng s))
                 ++ [EvAddTbData PhVal]
    ∧ same_objects s s'
    ∧ heap s' = <[net := in_eval_mode n]> (heap s).
Proof.
  intros Hvl Hn. unfold validation_phase.
  rewrite (bind_ok _ _ _ _ _ (update_net_run net _ n s Hn)), bind_emit.
  fold (in_eval_mode n). unfold no_grad.
  set (s0 := set_grad_enabled false _).
  rewrite bind_get.
  replace (val_loader (self s0)) with (Some dl) by (symmetry; exact Hvl).
  assert (Hiter : ∃ s1, iter_loader P dl s0 = (Ok (loader_batches P dl (rng s)), s1)
                        ∧ trace s1 = trace s0 ∧ self s1 = self s0
                        ∧ optimizer s1 = optimizer s0 ∧ scheduler s1 = scheduler s0
                        ∧ fs s1 = fs s0 ∧ heap s1 = heap s0
                        ∧ grad_enabled s1 = false).
  { unfold iter_loader. run_prims. destruct (dl_shuffle dl); eexists;
      (split; [reflexivity |]); repeat split; reflexivity. }
  destruct Hiter as (s1 & Hiter & Ht1 & Hself1 & Hopt1 & Hsch1 & Hfs1 & Hh1 & Hg1).
  rewrite (bind_ok _ _ _ _ _ Hiter).
  destruct (val_loop_run run net (in_eval_mode n) (loader_batches P dl (rng s)) images s1)
    as (images' & s2 & Hloop & Ht2 & (Hself2 & Hopt2 & Hsch2 & Hfs2 & Hgrad2 & Hlen2) & Hh2).
  { rewrite Hh1. subst s0. simpl.
    apply list_lookup_insert_eq. apply lookup_lt_Some in Hn. exact Hn. }
  { exact Hg1. }
  rewrite (bind_ok _ _ _ _ _ Hloop), bind_emit.
  exists images'. eexists. split; [reflexivity |].
  unfold same_objects.
  cbn [set_grad_enabled set_trace grad_enabled self heap trace optimizer scheduler fs].
  rewrite Ht2, Ht1, Hself2, Hself1, Hopt2, Hopt1, Hsch2, Hsch1, Hfs2, Hfs1, Hh2, Hh1.
  subst s0.
  cbn [set_grad_enabled set_trace set_heap grad_enabled self heap trace optimizer
       scheduler fs].
  rewrite <- !app_assoc. cbn [app].
  repeat split; try reflexivity.
  apply length_insert.
Qed.

End ValidationPhase.

(** * When the validation pass runs *)

#[global] Instance quiet_unless_final_frame (epoch : Z) :
  Frame (quiet_unless_final epoch).
Proof.
  split;
    try (intros; split; [reflexivity | intros _; apply emits_silent; reflexivity]).
  intros s1 s2 s3 [C1 E1] [C2 E2]. split; [congruence |].
  intros Hne. eapply (frame_trans (R := emits _)).
  - apply E1. exact Hne.
  - apply E2. rewrite C1. exact Hne.
Qed.

Section FinalEpoch.
Context (P : Providers).

Lemma final_validation_skipped (run : Run) (net : nat) (epoch : Z)
  (checkpoint_file : string) (images : list Tensor) (s : State) :
  epoch + 1 ≠ tr_epoch (cfg_train (cfg (self s))) →
  final_validation P run net epoch checkpoint_file images s = (Ok images, s).
Proof.
  intros Hne. unfold final_validation. rewrite bind_get.
  destruct (Z.eqb_spec (epoch + 1) (tr_epoch (cfg_train (cfg (self s)))));
    [contradiction | reflexivity].
Qed.

Lemma final_validation_taken (run : Run) (net : nat) (epoch : Z)
  (checkpoint_file : string) (images : list Tensor) (s : State) :
  epoch + 1 = tr_epoch (cfg_train (cfg (self s))) →
  final_validation P run net epoch checkpoint_file images s
  = (images ← validation_phase P run net images;
     improvement_checkpoint P checkpoint_file net epoch;;
     mret images) s.
Proof.
  intros He. unfold final_validation. rewrite bind_get.
  destruct (Z.eqb_spec (epoch + 1) (tr_epoch (cfg_train (cfg (self s)))));
    [reflexivity | contradiction].
Qed.

Lemma final_validation_quiet (run : Run) (net : nat) (epoch : Z)
  (checkpoint_file : string) (images : list Tensor) :
  steps (quiet_unless_final epoch)
        (final_validation P run net epoch checkpoint_file images).
Proof.
  intros s.
  destruct (decide (epoch + 1 = tr_epoch (cfg_train (cfg (self s))))) as [He | Hne].
  - split; [| intros Hne; contradiction].
    rewrite (final_validation_taken run net epoch checkpoint_file images s He).
    match goal with
    | |- cfg (self (snd (?m s))) = _ =>
        assert (H : steps keeps_config m)
          by (steps_walk fail ltac:(repeat split; reflexivity));
        exact (proj1 (H s))
    end.
  - rewrite (final_validation_skipped run net epoch checkpoint_file images s Hne).
    apply frame_refl.
Qed.

Lemma epoch_body_quiet (run : Run) (net : nat) (epoch : Z) :
  steps (quiet_unless_final epoch) (epoch_body P run net epoch).
Proof.
  steps_walk ltac:(apply final_validation_quiet)
             ltac:(split; [reflexivity
                          | intros _; first [ apply emits_silent; reflexivity
                                            | apply emits_event; reflexivity ] ]).
Qed.

Lemma interval_checkpoint_run (checkpoint_file : string) (net : nat) (n : Net)
  (opt : Optimizer) (epoch : Z) (s : State) :
  1 <= tr_save_interval (cfg_train (cfg (self s))) →
  0 <= epoch →
  has_slash checkpoint_file = true →
  heap s !! net = Some n →
  optimizer s = Some opt →
  ∃ s', interval_checkpoint checkpoint_file net epoch s = (Ok tt, s')
        ∧ self s' = self s ∧ heap s' = heap s
        ∧ emits (λ e, is_validation_event e = false) s s'.
Proof.
  intros Hsi Hep Hsl Hn Hopt. unfold interval_checkpoint.
  rewrite (bind_ok _ _ _ _ _ (interval_due_run s epoch Hsi Hep)).
  case_bool_decide.
  - rewrite (bind_ok _ _ _ _ _ (read_optimizer_run opt s Hopt)).
    rewrite (save_checkpoint_run s SiteInterval checkpoint_file net n _ _ Hsl Hn).
    eexists. split; [reflexivity |]. split; [reflexivity |].
    split; [reflexivity |]. apply emits_event. reflexivity.
  - exists s. split; [reflexivity |]. split; [reflexivity |].
    split; [reflexivity |]. apply emits_silent. reflexivity.
Qed.

End FinalEpoch.

Section ValidationClaim.
Context (P : Providers).

Lemma loader_batches_cover (dl : DataLoader) (seed : nat) :
  dl_shuffle dl = false →
  0 < dl_batch_size dl →
  concat (map fst (loader_batches P dl seed)) = map fst (dset_samples (dl_dataset dl))
  ∧ concat (map snd (loader_batches P dl seed)) = map snd (dset_samples (dl_dataset dl)).
Proof.
  intros Hsh Hbs. unfold loader_batches. rewrite Hsh.
  set (xs := dset_samples (dl_dataset dl)).
  assert (Hc : concat (chunks (length xs) (Z.to_nat (dl_batch_size dl)) xs) = xs)
    by (apply chunks_concat; lia).
  set (cs := chunks (length xs) (Z.to_nat (dl_batch_size dl)) xs) in *.
  replace (map fst (map collate cs)) with (map (map fst) cs)
    by (rewrite map_map; reflexivity).
  replace (map snd (map collate cs)) with (map (map snd) cs)
    by (rewrite map_map; reflexivity).
  rewrite <- !concat_map. split; f_equal; exact Hc.
Qed.

(** C6. The validation pass of an epoch runs exactly when
    [epoch+1 == self.cfg.train.epoch].  In any other epoch no event of the
    validation pass occurs.  In that epoch, once the training phase and the
    interval policy have run, the network is put in eval mode and every
    batch of one pass over the validation loader goes, with gradients
    disabled, through mask, normalization, forward pass and loss, the loss
    and the predictions being handed to the Runner, before the validation
    metrics are emitted; an unshuffled loader yields every sample of its
    dataset once. *)
Theorem validation_runs_on_final_epoch_only (run : Run) (net : nat) (epoch : Z) :
  (∀ s, epoch + 1 ≠ tr_epoch (cfg_train (cfg (self s))) →
        emits (λ e, is_validation_event e = false) s
              (snd (epoch_body P run net epoch s)))
  ∧ (∀ s n opt tdl vdl b rest,
       epoch + 1 = tr_epoch (cfg_train (cfg (self s))) →
       1 <= tr_save_interval (cfg_train (cfg (self s))) →
       0 <= epoch →
       train_loader (self s) = Some tdl →
       loader_batches P tdl (rng s) = b :: rest →
       val_loader (self s) = Some vdl →
       heap s !! net = Some n →
       optimizer s = Some opt →
       is_Some (heap s !! opt_target opt) →
       ∃ before after seed n1,
         trace (snd (epoch_body P run net epoch s))
         = trace s ++ before
           ++ (EvEval net
               :: flat_map (val_step_events P (cfg (self s)) run net (in_eval_mode n1))
                           (loader_batches P vdl seed)
               ++ [EvAddTbData PhVal])
           ++ after
         ∧ Forall (λ e, is_validation_event e = false) before)
  ∧ (∀ dl seed,
       dl_shuffle dl = false → 0 < dl_batch_size dl →
       concat (map fst (loader_batches P dl seed)) = map fst (dset_samples (dl_dataset dl))
       ∧ concat (map snd (loader_batches P dl seed)) = map snd (dset_samples (dl_dataset dl))).
Proof.
  split; [| split].
  - intros s Hne. exact (proj2 (epoch_body_quiet P run net epoch s) Hne).
  - intros s n opt tdl vdl b rest He Hsi Hep Htl Hb Hvl Hn Hopt Htn.
    unfold epoch_body. rewrite bind_emit.
    destruct (train_phase_run P run net n opt tdl b rest
                (set_trace (trace s ++ [EvBeginEpoch]) s) Htl Hb Hn Hopt Htn)
      as (s1 & Hrun & Ht1 & (Hself1 & Hopt1 & Hsch1 & Hfs1 & Hgrad1 & Hlen1) & _).
    cbn [set_trace trace self grad_enabled optimizer scheduler fs heap] in *.
    rewrite (bind_ok _ _ _ _ _ Hrun), bind_emit.
    unfold checkpoint_path. rewrite bind_assoc, bind_get, bind_ret.
    set (s2 := set_trace (trace s1 ++ [EvAddTbData PhTrain]) s1).
    set (file := path_join _ _).
    assert (Hn1 : is_Some (heap s2 !! net)).
    { subst s2. cbn [set_trace heap]. apply lookup_lt_is_Some. rewrite Hlen1.
      apply lookup_lt_is_Some. eauto. }
    destruct Hn1 as [n1 Hn1].
    destruct (interval_checkpoint_run file net n1 opt epoch s2)
      as (s3 & Hint & Hself3 & Hh3 & Hev3).
    { subst s2. cbn [set_trace self]. rewrite Hself1. exact Hsi. }
    { exact Hep. }
    { apply has_slash_path_join. }
    { exact Hn1. }
    { subst s2. cbn [set_trace optimizer]. congruence. }
    rewrite (bind_ok _ _ _ _ _ Hint), bind_emit.
    set (s4 := set_trace (trace s3 ++ [EvEmptyCache]) s3).
    assert (Hself4 : self s4 = self s).
    { subst s4 s2. cbn [set_trace set_fs self] in *. congruence. }
    rewrite (bind_cong_l _ _ _ _
               (final_validation_taken P run net epoch file _ s4
                  ltac:(rewrite Hself4; exact He))).
    rewrite bind_assoc.
    destruct (validation_phase_run P run net n1 vdl
                (masked P (cfg (self s)) run (fst b)) s4)
      as (images' & s5 & Hval & Ht5 & _ & _).
    { rewrite Hself4. exact Hvl. }
    { subst s4. cbn [set_trace heap]. rewrite Hh3. exact Hn1. }
    rewrite (bind_ok _ _ _ _ _ Hval).
    match goal with
    | |- ∃ before after seed n1, trace (snd (?m s5)) = _ ∧ _ =>
        assert (H : steps (emits (λ _, True)) m)
          by (steps_walk fail ltac:(first [ apply emits_silent; reflexivity
                                          | apply emits_event; exact I ]));
        destruct (H s5) as (after & Hafter & _)
    end.
    destruct Hev3 as (ev3 & Hev3 & Hgood3).
    exists ([EvBeginEpoch; EvNextBatch b]
            ++ train_step_events P (cfg (self s)) run net (grad_enabled s) n
                                 (opt_target opt) b
            ++ [EvAddTbData PhTrain] ++ ev3 ++ [EvEmptyCache]),
           after, (rng s4), n1.
    split.
    + rewrite Hafter, Ht5, Hself4.
      subst s4. cbn [set_trace trace]. rewrite Hev3. subst s2.
      cbn [set_trace trace]. rewrite Ht1.
      rewrite <- !app_assoc. reflexivity.
    + apply Forall_app. split; [repeat constructor |].
      apply Forall_app. split.
      { unfold train_step_events, forward_events, track_events.
        destruct (getattr_flag (run_gaussian_mask run)); repeat constructor. }
      apply Forall_app. split; [repeat constructor |].
      apply Forall_app. split; [exact Hgood3 | repeat constructor].
  - intros dl seed. apply loader_batches_cover.
Qed.

End ValidationClaim.

(** * A run whose optimizer kind is neither SGD nor Adam *)

Section UnknownOptimizer.
Context (P : Providers).

Lemma bind_optimizer_unknown (run : Run) (net : nat) (s : State) :
  run_optim run ≠ "SGD" → run_optim run ≠ "Adam" →
  bind_optimizer run net s = (Ok tt, s).
Proof.
  intros H1 H2. unfold bind_optimizer. rewrite bind_get.
  destruct (String.eqb_spec (run_optim run) "SGD"); [contradiction |].
  destruct (String.eqb_spec (run_optim run) "Adam"); [contradiction |].
  reflexivity.
Qed.

Lemma train_step_unbound (run : Run) (net : nat) (n : Net)
  (images : list Tensor) (labels : list Z) (s : State) :
  heap s !! net = Some n →
  optimizer s = None →
  ∃ s', train_step P run net images labels s
        = (Raise (UnboundLocalError "optimizer"), s')
        ∧ trace s' = trace s ++ forward_events P (cfg (self s)) run net
                                  (grad_enabled s) n (images, labels).
Proof.
  intros Hn Hopt.
  destruct (forward_part_run P run net n images labels s Hn)
    as (s1 & Hrun & Ht1 & (Hself & Hopt1 & _) & _).
  unfold train_step. rewrite Hrun. rewrite Hopt in Hopt1.
  rewrite (bind_raise _ _ _ _ _ (read_optimizer_unbound s1 Hopt1)).
  exists s1. split; [reflexivity | exact Ht1].
Qed.

Lemma epoch_body_unbound (run : Run) (net : nat) (n : Net) (epoch : Z)
  (dl : DataLoader) (b : Batch) (rest : list Batch) (s : State) :
  train_loader (self s) = Some dl →
  loader_batches P dl (rng s) = b :: rest →
  heap s !! net = Some n →
  optimizer s = None →
  ∃ s', epoch_body P run net epoch s = (Raise (UnboundLocalError "optimizer"), s')
        ∧ trace s' = trace s ++ [EvBeginEpoch; EvNextBatch b]
                       ++ forward_events P (cfg (self s)) run net (grad_enabled s) n b.
Proof.
  intros Htl Hb Hn Hopt. unfold epoch_body. rewrite bind_emit.
  set (s0 := set_trace _ s).
  destruct (next_iter_run P dl b rest s0 Hb)
    as (s1 & Hnext & Ht1 & (Hself & Hopt1 & _ & _ & Hgrad & _) & Hh1).
  destruct (train_step_unbound run net n (fst b) (snd b)
              (set_trace (trace s1 ++ [EvNextBatch b]) s1))
    as (s' & Hstep & Ht').
  { cbn [set_trace heap]. rewrite Hh1. exact Hn. }
  { cbn [set_trace optimizer]. rewrite Hopt1. exact Hopt. }
  assert (Hphase : train_phase P run net s0 = (Raise (UnboundLocalError "optimizer"), s')).
  { unfold train_phase.
    rewrite bind_get. replace (train_loader (self s0)) with (Some dl) by (symmetry; exact Htl).
    rewrite (bind_ok _ _ _ _ _ Hnext), bind_emit.
    change (range 0 1) with [0]. cbn [for_fold].
    apply bind_raise. exact Hstep. }
  rewrite (bind_raise _ _ _ _ _ Hphase).
  exists s'. split; [reflexivity |].
  rewrite Ht'. cbn [set_trace trace self grad_enabled]. rewrite Ht1, Hself, Hgrad.
  subst s0. cbn [set_trace trace self grad_enabled].
  rewrite <- !app_assoc. destruct b. reflexivity.
Qed.

(** C8 (as amended). For a run whose optimizer kind is neither 'SGD' nor
    'Adam' the construction is skipped and the name [optimizer] stays as it
    was.  If no earlier run of the sweep has bound it, nothing fails when the
    run starts unless the run asks for the scheduler: without [reduce_lr] the
    scheduler block is skipped too, and an epoch raises [UnboundLocalError]
    at the first use, [optimizer.zero_grad()], after the forward pass and the
    loss, so that a run that loads no pretrained file and has an epoch to run
    fails there, in its first epoch; with [reduce_lr] the error is raised
    where the scheduler is built from the optimizer, before the epoch loop. *)
Theorem unknown_optimizer_kind_is_not_rejected (run : Run) :
  run_optim run ≠ "SGD" →
  run_optim run ≠ "Adam" →
  (∀ net s, bind_optimizer run net s = (Ok tt, s))
  ∧ (∀ s, getattr_flag (run_reduce_lr run) = false →
          bind_scheduler run s = (Ok tt, s))
  ∧ (∀ s net n epoch dl b rest,
       optimizer s = None →
       heap s !! net = Some n →
       train_loader (self s) = Some dl →
       loader_batches P dl (rng s) = b :: rest →
       ∃ s', epoch_body P run net epoch s = (Raise (UnboundLocalError "optimizer"), s')
             ∧ trace s' = trace s ++ [EvBeginEpoch; EvNextBatch b]
                            ++ forward_events P (cfg (self s)) run net
                                              (grad_enabled s) n b)
  ∧ (∀ s dl b rest,
       optimizer s = None →
       getattr_flag (run_reduce_lr run) = false →
       isfile (tr_pretrained (cfg_train (cfg (self s)))) s = false →
       start_epoch (self s) < tr_epoch (cfg_train (cfg (self s))) →
       train_loader (self s) = Some dl →
       loader_batches P dl (rng s) = b :: rest →
       let net := length (heap s) in
       let n := on_device (get_model P (cfg_reid_net (cfg (self s)))
                                       (num_classes (self s)))
                          (device (self s)) in
       ∃ s', run_body P run s = (Raise (UnboundLocalError "optimizer"), s')
             ∧ trace s' = trace s
                          ++ [EvGetModel (cfg_reid_net (cfg (self s)))
                                         (num_classes (self s)) net;
                              EvBeginRun run net; EvBeginEpoch; EvNextBatch b]
                          ++ forward_events P (cfg (self s)) run net
                                            (grad_enabled s) n b)
  ∧ (∀ s, optimizer s = None →
          getattr_flag (run_reduce_lr run) = true →
          bind_scheduler run s = (Raise (UnboundLocalError "optimizer"), s)).
Proof.
  intros H1 H2. split; [| split; [| split; [| split]]].
  - intros net s. apply bind_optimizer_unknown; assumption.
  - intros s Hred. unfold bind_scheduler. rewrite Hred. reflexivity.
  - intros s net n epoch dl b rest Hopt Hn Htl Hb.
    apply (epoch_body_unbound run net n epoch dl b rest s Htl Hb Hn Hopt).
  - intros s dl b rest Hopt Hred Hfile Hepochs Htl Hb net n.
    unfold run_body. rewrite bind_modify, bind_get.
    set (s0 := set_self (with_lr (run_lr run)) s).
    rewrite (bind_ok _ _ _ _ _
               (load_model_no_file P s0 (cfg_reid_net (cfg (self s0)))
                                   (tr_pretrained (cfg_train (cfg (self s0)))) Hfile)).
    rewrite bind_emit.
    rewrite (bind_ok _ _ _ _ _ (bind_optimizer_unknown run _ _ H1 H2)).
    unfold bind_scheduler. rewrite Hred, bind_ret, bind_get.
    set (s1 := set_trace _ _).
    change (start_epoch (self s1)) with (start_epoch (self s)).
    change (cfg (self s1)) with (cfg (self s)).
    rewrite (range_cons _ _ Hepochs). cbn [for_].
    destruct (epoch_body_unbound run net n (start_epoch (self s)) dl b rest s1)
      as (s' & Hrun & Ht'); [exact Htl | exact Hb | apply lookup_snoc | exact Hopt |].
    rewrite bind_assoc. rewrite (bind_raise _ _ _ _ _ Hrun).
    exists s'. split; [reflexivity |].
    rewrite Ht'. subst s1 s0. cbn [set_trace set_heap set_self trace self grad_enabled].
    rewrite <- !app_assoc. reflexivity.
  - intros s Hopt Hred. unfold bind_scheduler. rewrite Hred.
    apply bind_raise. apply read_optimizer_unbound. exact Hopt.
Qed.

End UnknownOptimizer.

Lemma training_phase_processes_first_batch_only_witness :
  let s := Demo.in_run (Demo.config 2 1 "" ["Adam"]) in
  let b : Batch := ([[1%Q]; [2%Q]], [0; 1]) in
  (∃ s', train_phase Demo.stepping_providers Demo.adam_run O s
         = (Ok [[1%Q]; [2%Q]], s')
         ∧ heap s = [mkNet {[ "fc.weight" := [0%Q; 0%Q] ]} None true Cpu]
         ∧ heap s' = [mkNet {[ "fc.weight" := [1%Q; 1%Q] ]}
                            (Some {[ "fc.weight" := [0%Q; 0%Q] ]}) true Cpu])
  ∧ ∃ later,
      trace (snd (epoch_body Demo.stepping_providers Demo.adam_run O 0 s))
      = trace s ++ [EvBeginEpoch; EvNextBatch b]
                ++ train_step_events Demo.stepping_providers (cfg (self s))
                                     Demo.adam_run O true Demo.fresh_net O b
                ++ EvAddTbData PhTrain :: later
      ∧ Forall (λ e, is_train_step_event e = false) later.
Proof.
  intros s b.
  destruct (training_phase_processes_first_batch_only Demo.stepping_providers
              Demo.adam_run O 0 Demo.fresh_net (mkOptimizer Adam O 1)
              (mkDataLoader (mkDataset Demo.samples 2) false 2 0) b
              [([[3%Q]; [4%Q]], [0; 1]); ([[5%Q]], [1])] s)
    as ((s' & Hrun & _ & Hheap) & _ & H);
    [reflexivity | reflexivity | reflexivity | reflexivity | eexists; reflexivity |].
  split; [| exact H].
  exists s'. split; [exact Hrun |]. split; [reflexivity |].
  rewrite Hheap. vm_compute. reflexivity.
Defined.

Lemma validation_runs_on_final_epoch_only_witness :
  let s := Demo.in_run (Demo.config 2 1 "" ["Adam"]) in
  emits (λ e, is_validation_event e = false) s
        (snd (epoch_body Demo.providers Demo.adam_run O 0 s))
  ∧ ∃ before after seed n1,
      trace (snd (epoch_body Demo.providers Demo.adam_run O 1 s))
      = trace s ++ before
        ++ (EvEval O
            :: flat_map (val_step_events Demo.providers (cfg (self s)) Demo.adam_run O
                                         (in_eval_mode n1))
                        (loader_batches Demo.providers
                           (mkDataLoader (mkDataset Demo.samples 2) false 2 0) seed)
            ++ [EvAddTbData PhVal])
        ++ after
      ∧ Forall (λ e, is_validation_event e = false) before.
Proof.
  intros s.
  destruct (validation_runs_on_final_epoch_only Demo.providers Demo.adam_run O 0)
    as (Hquiet & _ & _).
  destruct (validation_runs_on_final_epoch_only Demo.providers Demo.adam_run O 1)
    as (_ & Hval & _).
  split.
  - apply Hquiet. simpl. lia.
  - apply (Hval s Demo.fresh_net (mkOptimizer Adam O 1)
             (mkDataLoader (mkDataset Demo.samples 2) false 2 0)
             (mkDataLoader (mkDataset Demo.samples 2) false 2 0)
             ([[1%Q]; [2%Q]], [0; 1])
             [([[3%Q]; [4%Q]], [0; 1]); ([[5%Q]], [1])]);
      try reflexivity; try (simpl; lia).
    eexists; reflexivity.
Defined.

Lemma unknown_optimizer_kind_is_not_rejected_witness :
  let s := Demo.started (Demo.config 2 1 "" ["RMSprop"]) ∅ in
  bind_optimizer Demo.rmsprop_run O s = (Ok tt, s)
  ∧ (∃ s', run_body Demo.providers Demo.rmsprop_run s
           = (Raise (UnboundLocalError "optimizer"), s')
           ∧ count_events is_begin_epoch (trace s') = 1%nat)
  ∧ bind_scheduler Demo.rmsprop_plateau_run s
    = (Raise (UnboundLocalError "optimizer"), s).
Proof.
  intros s.
  destruct (unknown_optimizer_kind_is_not_rejected Demo.providers Demo.rmsprop_run)
    as (Hskip & _ & _ & Hloop & _); [discriminate | discriminate |].
  destruct (unknown_optimizer_kind_is_not_rejected Demo.providers
              Demo.rmsprop_plateau_run)
    as (_ & _ & _ & _ & Hsched); [discriminate | discriminate |].
  split; [apply Hskip |]. split.
  - destruct (Hloop s (mkDataLoader (mkDataset Demo.samples 2) false 2 0)
                ([[1%Q]; [2%Q]], [0; 1])
                [([[3%Q]; [4%Q]], [0; 1]); ([[5%Q]], [1])])
      as (s' & Hrun & Htrace); try reflexivity.
    exists s'. split; [exact Hrun |]. rewrite Htrace. reflexivity.
  - apply Hsched; reflexivity.
Defined.

(** C8 (as stated) fails for a run that follows a run with a known kind: the
    name [optimizer] is still bound to the optimizer of the earlier run, the
    run with the unknown kind goes through all its epochs without any error,
    and every optimizer step of the sweep acts on the network of the first
    run.  It also fails for a first run that asks for [reduce_lr]: the error
    is raised before any epoch begins. *)
Lemma unknown_optimizer_kind_reuses_previous_optimizer :
  let s := Demo.started (Demo.config 2 1 "" ["SGD"; "RMSprop"]) ∅ in
  let s1 := snd (run_body Demo.providers Demo.sgd_run s) in
  let r := run_body Demo.providers Demo.rmsprop_plateau_run s in
  (runs (self s) = [Demo.sgd_run; Demo.rmsprop_run]
   ∧ optimizer (snd (bind_optimizer Demo.rmsprop_run 1%nat s1))
     = Some (mkOptimizer (SGD (9 # 10) (5 # 10000)) O 1)
   ∧ fst (run_body Demo.providers Demo.rmsprop_run s1) = Ok tt
   ∧ fst (train Demo.providers s) = Ok tt
   ∧ count_events is_begin_epoch (trace (snd (train Demo.providers s))) = 4%nat
   ∧ count_events (is_opt_step_on 0) (trace (snd (train Demo.providers s))) = 4%nat
   ∧ count_events (is_opt_step_on 1) (trace (snd (train Demo.providers s))) = 0%nat)
  ∧ (fst r = Raise (UnboundLocalError "optimizer")
     ∧ count_events is_begin_epoch (trace (snd r)) = 0%nat).
Proof. vm_compute. repeat split; reflexivity. Qed.

(** * Further properties of the trainer *)

(** ** Counting events *)

Lemma count_events_app (p : Event → bool) (l1 l2 : list Event) :
  count_events p (l1 ++ l2) = (count_events p l1 + count_events p l2)%nat.
Proof. unfold count_events. rewrite List.filter_app, length_app. reflexivity. Qed.

Lemma count_events_none (p : Event → bool) (l : list Event) :
  Forall (λ e, p e = false) l → count_events p l = O.
Proof.
  unfold count_events. induction 1 as [| e l He _ IH]; simpl; [reflexivity |].
  rewrite He. exact IH.
Qed.

Lemma emits_count_refl (p : Event → bool) (s : State) : emits_count p 0 s s.
Proof. exists []. rewrite app_nil_r. split; reflexivity. Qed.

Lemma emits_count_trans (p : Event → bool) (a b : nat) (s1 s2 s3 : State) :
  emits_count p a s1 s2 → emits_count p b s2 s3 → emits_count p (a + b) s1 s3.
Proof.
  intros (e1 & H1 & C1) (e2 & H2 & C2). exists (e1 ++ e2). split.
  - rewrite H2, H1, app_assoc. reflexivity.
  - rewrite count_events_app, C1, C2. reflexivity.
Qed.

Lemma emits_count_none (p : Event → bool) (s s' : State) :
  emits (λ e, p e = false) s s' → emits_count p 0 s s'.
Proof.
  intros (evs & H & G). exists evs. split; [exact H | apply count_events_none, G].
Qed.

Lemma emits_count_event (p : Event → bool) (e : Event) (s : State) :
  emits_count p (if p e then 1 else 0) s (set_trace (trace s ++ [e]) s).
Proof.
  exists [e]. split; [reflexivity |]. unfold count_events. simpl.
  destruct (p e); reflexivity.
Qed.

Lemma length_range (a b : Z) : length (range a b) = Z.to_nat (b - a).
Proof. unfold range. rewrite length_map, length_seq. reflexivity. Qed.

Lemma range_nil (a b : Z) : b <= a → range a b = [].
Proof.
  intros H. unfold range. replace (Z.to_nat (b - a)) with O by lia. reflexivity.
Qed.

(** ** A small program logic for the monad *)

Section Hoare.
Context (Inv : State → Prop) (good : Event → Prop) `{!Stable Inv}.

Lemma hoare_ret {A : Type} (a : A) (Q : A → Prop) : Q a → hoare Inv good (mret a) Q.
Proof.
  intros Hq s Hs. split; [exact Hs |]. split; [apply frame_refl |].
  intros a' Ha. injection Ha as <-. exact Hq.
Qed.

Lemma hoare_raise {A : Type} (e : Exn) (Q : A → Prop) : hoare Inv good (raise e) Q.
Proof.
  intros s Hs. split; [exact Hs |]. split; [apply frame_refl |].
  intros a Ha. discriminate Ha.
Qed.

Lemma hoare_get : hoare Inv good get Inv.
Proof.
  intros s Hs. split; [exact Hs |]. split; [apply frame_refl |].
  intros a Ha. injection Ha as <-. exact Hs.
Qed.

Lemma hoare_lift_res {A : Type} (r : Res A) : hoare Inv good (lift_res r) (λ _, True).
Proof.
  intros s Hs. split; [exact Hs |]. split; [apply frame_refl |]. intros; exact I.
Qed.

Lemma hoare_weaken {A : Type} (m : M A) (Q Q' : A → Prop) :
  hoare Inv good m Q → (∀ a, Q a → Q' a) → hoare Inv good m Q'.
Proof.
  intros H Hq s Hs. destruct (H s Hs) as (Hi & He & Hv).
  split; [exact Hi |]. split; [exact He |]. intros a Ha. apply Hq, Hv, Ha.
Qed.

Lemma hoare_ext {A : Type} (m m' : M A) (Q : A → Prop) :
  (∀ s, m s = m' s) → hoare Inv good m' Q → hoare Inv good m Q.
Proof. intros Heq H s Hs. rewrite Heq. apply H, Hs. Qed.

Lemma hoare_bind {A B : Type} (m : M A) (k : A → M B) (Q : A → Prop) (Q' : B → Prop) :
  hoare Inv good m Q → (∀ a, Q a → hoare Inv good (k a) Q') →
  hoare Inv good (m ≫= k) Q'.
Proof.
  intros Hm Hk s Hs. rewrite bind_unfold.
  destruct (Hm s Hs) as (Hi & He & Hv).
  destruct (m s) as [[a | e] s1]; simpl in *.
  - destruct (Hk a (Hv a eq_refl) s1 Hi) as (Hi' & He' & Hv').
    split; [exact Hi' |]. split; [| exact Hv'].
    eapply (frame_trans (R := emits good)); eassumption.
  - split; [exact Hi |]. split; [exact He |]. intros b Hb. discriminate Hb.
Qed.

Lemma hoare_bind_true {A B : Type} (m : M A) (k : A → M B) (Q' : B → Prop) :
  hoare Inv good m (λ _, True) → (∀ a, hoare Inv good (k a) Q') →
  hoare Inv good (m ≫= k) Q'.
Proof. intros Hm Hk. apply (hoare_bind m k (λ _, True) Q' Hm). intros a _. apply Hk. Qed.

Lemma hoare_modify (f : State → State) :
  (∀ s, Inv s → Inv (f s) ∧ emits good s (f s)) →
  hoare Inv good (modify f) (λ _, True).
Proof.
  intros H s Hs. destruct (H s Hs) as [Hi He].
  split; [exact Hi |]. split; [exact He |]. intros; exact I.
Qed.

Lemma hoare_for {A : Type} (l : list A) (body : A → M unit) :
  (∀ x, hoare Inv good (body x) (λ _, True)) →
  hoare Inv good (for_ l body) (λ _, True).
Proof.
  intros H. induction l as [| x l IH]; simpl.
  - apply hoare_ret. exact I.
  - apply hoare_bind_true; [apply H | intros _; exact IH].
Qed.

Lemma hoare_for_fold {A B : Type} (l : list A) (body : A → B → M B) (b : B) :
  (∀ x b, hoare Inv good (body x b) (λ _, True)) →
  hoare Inv good (for_fold l body b) (λ _, True).
Proof.
  intros H. revert b. induction l as [| x l IH]; intros b; simpl.
  - apply hoare_ret. exact I.
  - apply hoare_bind_true; [apply H | intros b'; apply IH].
Qed.

Lemma hoare_no_grad {A : Type} (body : M A) (Q : A → Prop) :
  hoare Inv good body Q → hoare Inv good (no_grad body) Q.
Proof.
  intros H s Hs. unfold no_grad.
  destruct (H (set_grad_enabled false s) (stable_grad s false Hs)) as (Hi & He & Hv).
  destruct (body (set_grad_enabled false s)) as [r s1]; simpl in *.
  split; [apply stable_grad; exact Hi |]. split; [| exact Hv].
  destruct He as (evs & Ht & Hg). exists evs. split; [exact Ht | exact Hg].
Qed.

End Hoare.

Ltac stable_leaf :=
  first [ apply stable_heap | apply stable_fs | apply stable_rng | apply stable_grad
        | apply stable_cudnn | apply stable_trace ]; assumption.

(** Walks through a monadic term for [hoare]: [known] applies lemmas about
    sub-terms, [known_val] those that say something about a returned value,
    [leaf_inv] proves the invariant after an assignment and [leaf_good] that
    an event is a good one. *)
Ltac hoare_walk known known_val leaf_inv leaf_good :=
  repeat first
    [ assumption
    | known
    | solve [typeclasses eauto]
    | apply hoare_ret; exact I
    | apply hoare_raise
    | apply hoare_lift_res
    | apply hoare_no_grad
    | eapply hoare_bind; [ solve [first [apply hoare_get | known_val]] | intros ? ?]
    | apply hoare_bind_true; [ | intros ?]
    | apply hoare_for; intros ?
    | apply hoare_for_fold; intros ? ?
    | apply hoare_modify; intros ? ?; split;
      [ first [ stable_leaf | leaf_inv ]
      | first [ apply emits_silent; reflexivity
              | apply emits_event; leaf_good ] ]
    | progress unfold emit, update_net, read_net, write_net, read_optimizer,
        read_scheduler, next_iter, iter_loader, apply_mask, norm, call_net,
        call_criterion, train_step, train_phase, val_step, validation_phase,
        checkpoint_path, interval_due, interval_checkpoint, makedirs_for,
        save_checkpoint, final_validation, improvement_checkpoint, step_scheduler,
        epoch_body, alloc, torch_load, load_state_dict, net_to, load_model,
        bind_optimizer, bind_scheduler, run_body, train
    | progress cbv beta zeta
    | case_match ].

Ltac emits_leaf tac :=
  first [ apply emits_silent; reflexivity | apply emits_event; tac ].

(** * The sweep *)

Section Sweep.
Context (P : Providers).

Lemma run_body_no_runner_save (run : Run) :
  steps (emits (λ e, is_runner_save e = false)) (run_body P run).
Proof. steps_walk fail ltac:(emits_leaf ltac:(reflexivity)). Qed.

(** X1. An exception raised by a run ends the sweep: when the runs before
    [run] return and [run] raises [e], [train] raises [e] in the state in
    which [run] stopped, so that no later run is started, and
    [runner.save(result_file)] has not been called. *)
Theorem train_stops_at_first_failing_run (pre post : list Run) (run : Run)
  (s s1 s2 : State) (e : Exn) :
  runs (self s) = pre ++ run :: post →
  for_ pre (run_body P)
       (set_trace (trace s ++ [EvRunner (path_join (save_root (self s)) "runs")]) s)
  = (Ok tt, s1) →
  run_body P run s1 = (Raise e, s2) →
  train P s = (Raise e, s2)
  ∧ emits (λ ev, is_runner_save ev = false) s s2.
Proof.
  intros Hruns Hpre Hrun. split.
  - rewrite (train_reaches_run P pre post run s s1 Hruns Hpre).
    apply bind_raise. exact Hrun.
  - apply (frame_trans (R := emits _) s
             (set_trace (trace s ++ [EvRunner (path_join (save_root (self s)) "runs")]) s));
      [apply emits_event; reflexivity |].
    apply (frame_trans (R := emits _) _ s1).
    + pose proof (steps_for (emits (λ ev, is_runner_save ev = false)) pre
                    (run_body P) run_body_no_runner_save
                    (set_trace (trace s ++ [EvRunner (path_join (save_root (self s))
                                                                "runs")]) s)) as H.
      rewrite Hpre in H. exact H.
    + pose proof (run_body_no_runner_save run s1) as H. rewrite Hrun in H. exact H.
Qed.

Lemma alloc_run (n : Net) (s : State) :
  alloc n s = (Ok (length (heap s)), set_heap (heap s ++ [n]) s).
Proof. reflexivity. Qed.

Lemma run_body_one_model (run : Run) (s : State) :
  emits_count is_get_model 1 s (snd (run_body P run s)).
Proof.
  unfold run_body. rewrite bind_modify, bind_get.
  unfold load_model. rewrite !bind_assoc, bind_get.
  rewrite !bind_assoc.
  rewrite (bind_ok _ _ _ _ _ (alloc_run _ _)).
  rewrite !bind_assoc, bind_emit.
  match goal with
  | |- emits_count _ _ _ (snd (?m ?s0)) =>
      assert (H : steps (emits (λ e, is_get_model e = false)) m)
        by (steps_walk fail ltac:(emits_leaf ltac:(reflexivity)));
      specialize (H s0); apply emits_count_none in H
  end.
  eapply (emits_count_trans _ 1 0); [| exact H].
  eexists [_]. split; reflexivity.
Qed.

Lemma for_runs_models (l : list Run) (s s' : State) :
  for_ l (run_body P) s = (Ok tt, s') →
  emits_count is_get_model (length l) s s'.
Proof.
  revert s. induction l as [| r l IH]; intros s H; simpl in H.
  - injection H as <-. apply emits_count_refl.
  - apply bind_inv_ok in H. destruct H as ([] & s2 & Hr & H).
    apply (emits_count_trans _ 1 (length l) s s2 s').
    + pose proof (run_body_one_model r s) as H1. rewrite Hr in H1. exact H1.
    + apply IH, H.
Qed.

(** X2. When [train] returns, [get_model] has been called exactly once for
    each run of the sweep: the trace has grown by as many [get_model] calls
    as [self.runs] has entries. *)
Theorem train_builds_one_model_per_run (s s' : State) :
  train P s = (Ok tt, s') →
  emits_count is_get_model (length (runs (self s))) s s'.
Proof.
  unfold train. rewrite bind_get, bind_emit. intros H.
  apply bind_inv_ok in H. destruct H as ([] & s1 & Hl & H).
  unfold emit, modify in H. injection H as <-.
  apply for_runs_models in Hl.
  destruct Hl as (evs & Ht & Hc).
  exists ([EvRunner (path_join (save_root (self s)) "runs")] ++ evs
            ++ [EvRunnerSave (path_join (save_root (self s)) "train_result")]).
  split.
  - simpl. rewrite Ht. simpl. rewrite <- !app_assoc. reflexivity.
  - rewrite !count_events_app, Hc. unfold count_events. simpl. lia.
Qed.

End Sweep.

Lemma train_stops_at_first_failing_run_witness :
  let s := Demo.started (Demo.config 2 1 "" ["RMSprop"; "SGD"]) ∅ in
  let s0 := set_trace (trace s ++ [EvRunner (path_join (save_root (self s)) "runs")]) s in
  let s2 := snd (run_body Demo.providers Demo.rmsprop_run s0) in
  train Demo.providers s = (Raise (UnboundLocalError "optimizer"), s2)
  ∧ emits (λ ev, is_runner_save ev = false) s s2.
Proof.
  intros s s0 s2.
  apply (train_stops_at_first_failing_run Demo.providers [] [Demo.sgd_run]
           Demo.rmsprop_run s s0 s2 (UnboundLocalError "optimizer")).
  - vm_compute. reflexivity.
  - reflexivity.
  - vm_compute. reflexivity.
Defined.

Lemma train_builds_one_model_per_run_witness :
  let s := Demo.started (Demo.config 1 1 "" ["SGD"; "Adam"]) ∅ in
  emits_count is_get_model (length (runs (self s))) s (snd (train Demo.providers s)).
Proof.
  intros s.
  apply (train_builds_one_model_per_run Demo.providers s (snd (train Demo.providers s))).
  vm_compute. reflexivity.
Defined.

(** * The epochs of a run *)

#[global] Instance keeps_resume_frame : Frame keeps_resume.
Proof.
  split; try (intros; split; reflexivity).
  intros s1 s2 s3 [A1 B1] [A2 B2]. split; etransitivity; eassumption.
Qed.

#[global] Instance keeps_setup_frame : Frame keeps_setup.
Proof.
  split; try (intros; repeat split; reflexivity).
  intros s1 s2 s3 (A1 & B1 & C1 & D1 & E1 & F1 & G1) (A2 & B2 & C2 & D2 & E2 & F2 & G2).
  repeat split; etransitivity; eassumption.
Qed.

Section Epochs.
Context (P : Providers).

Lemma epoch_body_one_begin (run : Run) (net : nat) (epoch : Z) (s : State) :
  emits_count is_begin_epoch 1 s (snd (epoch_body P run net epoch s)).
Proof.
  unfold epoch_body. rewrite bind_emit.
  match goal with
  | |- emits_count _ _ _ (snd (?m ?s0)) =>
      assert (H : steps (emits (λ e, is_begin_epoch e = false)) m)
        by (steps_walk fail ltac:(emits_leaf ltac:(reflexivity)));
      specialize (H s0); apply emits_count_none in H
  end.
  eapply (emits_count_trans _ 1 0); [| exact H].
  eexists [_]. split; reflexivity.
Qed.

Lemma for_epochs_begin (run : Run) (net : nat) (l : list Z) (s s' : State) :
  for_ l (epoch_body P run net) s = (Ok tt, s') →
  emits_count is_begin_epoch (length l) s s'.
Proof.
  revert s. induction l as [| x l IH]; intros s H; simpl in H.
  - injection H as <-. apply emits_count_refl.
  - apply bind_inv_ok in H. destruct H as ([] & s2 & Hr & H).
    apply (emits_count_trans _ 1 (length l) s s2 s').
    + pose proof (epoch_body_one_begin run net x s) as H1. rewrite Hr in H1. exact H1.
    + apply IH, H.
Qed.

Lemma epoch_body_keeps_resume (run : Run) (net : nat) (epoch : Z) :
  steps keeps_resume (epoch_body P run net epoch).
Proof. steps_walk fail ltac:(split; reflexivity). Qed.

Lemma load_model_keeps_cfg (reid_net pretrained : string) :
  steps keeps_config (load_model P reid_net pretrained).
Proof. steps_walk fail ltac:(repeat split; reflexivity). Qed.

Lemma load_model_no_begin (reid_net pretrained : string) :
  steps (emits (λ e, is_begin_epoch e = false)) (load_model P reid_net pretrained).
Proof. steps_walk fail ltac:(emits_leaf ltac:(reflexivity)). Qed.

(** What is known when a run returns: the network was loaded, no epoch had
    begun when the loop header was evaluated, and the loop went through all
    the epochs of its range. *)
Lemma run_body_returns (run : Run) (s s' : State) :
  run_body P run s = (Ok tt, s') →
  ∃ net s1 s3 s4,
    load_model P (cfg_reid_net (cfg (self s))) (tr_pretrained (cfg_train (cfg (self s))))
               (set_self (with_lr (run_lr run)) s) = (Ok net, s1)
    ∧ emits_count is_begin_epoch 0 s s3
    ∧ cfg (self s3) = cfg (self s)
    ∧ start_epoch (self s3) = start_epoch (self s1)
    ∧ for_ (range (start_epoch (self s3)) (tr_epoch (cfg_train (cfg (self s3)))))
           (epoch_body P run net) s3 = (Ok tt, s4)
    ∧ start_epoch (self s4) = start_epoch (self s3)
    ∧ s' = set_self (with_best_acc 0) (set_trace (trace s4 ++ [EvEndRun]) s4).
Proof.
  intros H. unfold run_body in H. rewrite bind_modify, bind_get in H.
  set (s0 := set_self (with_lr (run_lr run)) s) in *.
  apply bind_inv_ok in H. destruct H as (net & s1 & Hload & H).
  rewrite bind_emit in H.
  set (s1' := set_trace _ s1) in H.
  apply bind_inv_ok in H. destruct H as ([] & s2 & Hbo & H).
  apply bind_inv_ok in H. destruct H as ([] & s3 & Hbs & H).
  rewrite bind_get in H.
  apply bind_inv_ok in H. destruct H as ([] & s4 & Hloop & H).
  rewrite bind_emit in H. unfold modify in H. injection H as <-.
  exists net, s1, s3, s4.
  (* the attributes read by the loop header *)
  pose proof (load_model_keeps_cfg (cfg_reid_net (cfg (self s0)))
                (tr_pretrained (cfg_train (cfg (self s0)))) s0) as Hc1.
  rewrite Hload in Hc1. destruct Hc1 as (Hc1 & _).
  assert (Hk2 : keeps_resume s1' s2).
  { assert (Hs : steps keeps_resume (bind_optimizer run net))
      by (steps_walk fail ltac:(split; reflexivity)).
    specialize (Hs s1'). rewrite Hbo in Hs. exact Hs. }
  assert (Hk3 : keeps_resume s2 s3).
  { assert (Hs : steps keeps_resume (bind_scheduler run))
      by (steps_walk fail ltac:(split; reflexivity)).
    specialize (Hs s2). rewrite Hbs in Hs. exact Hs. }
  assert (Hk4 : keeps_resume s3 s4).
  { pose proof (steps_for keeps_resume
                  (range (start_epoch (self s3)) (tr_epoch (cfg_train (cfg (self s3)))))
                  _ (epoch_body_keeps_resume run net) s3) as Hs.
    rewrite Hloop in Hs. exact Hs. }
  destruct Hk2 as [Hc2 He2], Hk3 as [Hc3 He3], Hk4 as [Hc4 He4].
  simpl in Hc1, Hc2, He2.
  (* the events up to the loop *)
  assert (H01 : emits_count is_begin_epoch 0 s s1).
  { pose proof (load_model_no_begin (cfg_reid_net (cfg (self s0)))
                  (tr_pretrained (cfg_train (cfg (self s0)))) s0) as Hs.
    rewrite Hload in Hs. apply emits_count_none in Hs. exact Hs. }
  assert (H12 : emits_count is_begin_epoch 0 s1 s2).
  { assert (Hs : steps (emits (λ e, is_begin_epoch e = false)) (bind_optimizer run net))
      by (steps_walk fail ltac:(emits_leaf ltac:(reflexivity))).
    specialize (Hs s1'). rewrite Hbo in Hs. apply emits_count_none in Hs.
    apply (emits_count_trans _ 0 0 s1 s1' s2); [| exact Hs].
    exact (emits_count_event is_begin_epoch (EvBeginRun run net) s1). }
  assert (H23 : emits_count is_begin_epoch 0 s2 s3).
  { assert (Hs : steps (emits (λ e, is_begin_epoch e = false)) (bind_scheduler run))
      by (steps_walk fail ltac:(emits_leaf ltac:(reflexivity))).
    specialize (Hs s2). rewrite Hbs in Hs. apply emits_count_none in Hs. exact Hs. }
  split; [exact Hload |].
  split; [exact (emits_count_trans _ _ _ _ _ _ H01
                   (emits_count_trans _ _ _ _ _ _ H12 H23)) |].
  split; [congruence |]. split; [congruence |].
  split; [exact Hloop |]. split; [exact He4 | reflexivity].
Qed.

(** X3. A run that returns has begun exactly
    [max(0, cfg.train.epoch - self.start_epoch)] epochs, where
    [self.start_epoch] is the value that [load_model] left: the value it had
    before the run when the pretrained path is not a file, and
    [checkpoint['epoch']] when a checkpoint was loaded from it.  The attribute
    is not assigned anywhere else, so it is also the value found after the
    run. *)
Theorem run_executes_the_remaining_epochs (run : Run) (s s' : State) :
  let pretrained := tr_pretrained (cfg_train (cfg (self s))) in
  run_body P run s = (Ok tt, s') →
  emits_count is_begin_epoch
    (Z.to_nat (tr_epoch (cfg_train (cfg (self s))) - start_epoch (self s'))) s s'
  ∧ (isfile pretrained s = false → start_epoch (self s') = start_epoch (self s))
  ∧ (∀ c, pretrained ≠ "" → fs s !! pretrained = Some (FCheckpoint c) →
          start_epoch (self s') = ck_epoch c).
Proof.
  intros pretrained H.
  destruct (run_body_returns run s s' H)
    as (net & s1 & s3 & s4 & Hload & H03 & Hcfg & H31 & Hloop & H43 & ->).
  set (s0 := set_self (with_lr (run_lr run)) s) in *.
  simpl. split; [| split].
  - apply for_epochs_begin in Hloop. rewrite length_range in Hloop.
    rewrite Hcfg in Hloop. rewrite H43.
    destruct (emits_count_trans _ _ _ _ _ _ H03 Hloop) as (evs & Ht & Hn).
    exists (evs ++ [EvEndRun]). split.
    + simpl. rewrite Ht, app_assoc. reflexivity.
    + rewrite count_events_app, Hn. unfold count_events. simpl. lia.
  - intros Hf. rewrite H43, H31.
    rewrite (load_model_no_file P s0 _ _ Hf) in Hload.
    injection Hload as _ <-. reflexivity.
  - intros c Hne Hf. rewrite H43, H31.
    pose proof (load_model_checkpoint P s0 (cfg_reid_net (cfg (self s))) pretrained c
                  Hne Hf) as Hck.
    cbv zeta in Hck. fold pretrained in Hload. rewrite Hck in Hload.
    destruct (ck_net_dict c) as [sd | ? ?]; [| discriminate Hload].
    destruct (decide _); [| discriminate Hload].
    injection Hload as _ <-. reflexivity.
Qed.

End Epochs.

Lemma run_executes_the_remaining_epochs_witness :
  let s := Demo.started (Demo.config 2 1 "" ["SGD"]) ∅ in
  let s' := snd (run_body Demo.providers Demo.sgd_run s) in
  emits_count is_begin_epoch
    (Z.to_nat (tr_epoch (cfg_train (cfg (self s))) - start_epoch (self s'))) s s'
  ∧ start_epoch (self s') = 0.
Proof.
  intros s s'.
  destruct (run_executes_the_remaining_epochs Demo.providers Demo.sgd_run s s')
    as (Hcount & Hsame & _).
  - vm_compute. reflexivity.
  - split; [exact Hcount |]. rewrite Hsame; reflexivity.
Defined.

(** * The optimizer of a run *)

#[global] Instance optimizer_is_stable (o : Optimizer) : Stable (optimizer_is o).
Proof. split; intros; assumption. Qed.

Lemma emits_weaken (good good' : Event → Prop) (s s' : State) :
  (∀ e, good e → good' e) → emits good s s' → emits good' s s'.
Proof.
  intros H (evs & Ht & Hg). exists evs. split; [exact Ht |].
  eapply Forall_impl; [exact Hg | exact H].
Qed.

Section Optimizers.
Context (P : Providers).

Lemma hoare_read_optimizer (o : Optimizer) (good : Event → Prop) :
  hoare (optimizer_is o) good read_optimizer (λ x, x = o).
Proof.
  intros s Hs. unfold read_optimizer. rewrite bind_get.
  unfold optimizer_is in Hs. rewrite Hs.
  split; [exact Hs |]. split; [apply frame_refl |].
  intros a Ha. injection Ha as <-. reflexivity.
Qed.

Lemma step_scheduler_off (run : Run) (s : State) :
  getattr_flag (run_reduce_lr run) = false → step_scheduler P run s = (Ok tt, s).
Proof. intros H. unfold step_scheduler. rewrite H. reflexivity. Qed.

Lemma bind_scheduler_off (run : Run) (s : State) :
  getattr_flag (run_reduce_lr run) = false → bind_scheduler run s = (Ok tt, s).
Proof. intros H. unfold bind_scheduler. rewrite H. reflexivity. Qed.

Lemma bind_optimizer_built (run : Run) (net : nat) (o : Optimizer) (s : State) :
  built_optimizer run net (lr (self s)) = Some o →
  bind_optimizer run net s = (Ok tt, set_optimizer (Some o) s).
Proof.
  unfold built_optimizer, bind_optimizer. rewrite bind_get. intros H.
  destruct (String.eqb (run_optim run) "SGD").
  - injection H as <-. reflexivity.
  - destruct (String.eqb (run_optim run) "Adam"); [| discriminate H].
    injection H as <-. reflexivity.
Qed.

Lemma load_model_handle (reid_net pretrained : string) (s s' : State) (net : nat) :
  load_model P reid_net pretrained s = (Ok net, s') → net = length (heap s).
Proof.
  unfold load_model. rewrite bind_get.
  rewrite (bind_ok _ _ _ _ _ (alloc_run _ _)), bind_emit. intros H.
  apply bind_inv_ok in H. destruct H as (? & ? & _ & H).
  rewrite bind_get in H.
  apply bind_inv_ok in H. destruct H as (? & ? & _ & H).
  injection H as <- _. reflexivity.
Qed.

(** While the name [optimizer] is bound to [o] and the run does not ask for
    the scheduler, the statements of the run that follow the optimizer block
    act on the network of [o] and write the learning rate of [o]. *)
Ltac optimizer_leaf :=
  cbv beta in *; subst;
  let Hx := fresh "Hx" in
  first [ intros ? [Hx | Hx]; first [ discriminate Hx | injection Hx as <-; reflexivity ]
        | intros ? ? ? Hx;
          first [ discriminate Hx | injection Hx as <- <- <-; reflexivity ] ].

Lemma epoch_body_optimizer (run : Run) (net : nat) (epoch : Z) (o : Optimizer) :
  getattr_flag (run_reduce_lr run) = false →
  hoare (optimizer_is o) (λ e, acts_on (opt_target o) e ∧ saves_lr (opt_lr o) e)
        (epoch_body P run net epoch) (λ _, True).
Proof.
  intros Hoff.
  hoare_walk
    ltac:(apply (hoare_ext _ _ (step_scheduler P run) (mret tt));
          [intros; apply step_scheduler_off; exact Hoff | apply hoare_ret; exact I])
    ltac:(apply hoare_read_optimizer)
    ltac:(assumption)
    ltac:(split; optimizer_leaf).
Qed.

Lemma built_optimizer_fields (run : Run) (net : nat) (lr_ : Q) (o : Optimizer) :
  built_optimizer run net lr_ = Some o → opt_target o = net ∧ opt_lr o = lr_.
Proof.
  unfold built_optimizer. intros H.
  destruct (String.eqb (run_optim run) "SGD"); [injection H as <-; split; reflexivity |].
  destruct (String.eqb (run_optim run) "Adam"); [| discriminate H].
  injection H as <-. split; reflexivity.
Qed.

Lemma load_model_no_optimizer_event (reid_net pretrained : string) (t : nat) (l : Q) :
  steps (emits (λ e, acts_on t e ∧ saves_lr l e)) (load_model P reid_net pretrained).
Proof.
  steps_walk fail ltac:(emits_leaf ltac:(split; optimizer_leaf)).
Qed.

(** A run of a known kind without scheduler, from the place where the network
    has been loaded. *)
Lemma run_body_known (run : Run) (s s1 : State) (net : nat) (o : Optimizer) :
  getattr_flag (run_reduce_lr run) = false →
  load_model P (cfg_reid_net (cfg (self s))) (tr_pretrained (cfg_train (cfg (self s))))
             (set_self (with_lr (run_lr run)) s) = (Ok net, s1) →
  built_optimizer run net (lr (self s1)) = Some o →
  optimizer (snd (run_body P run s)) = Some o
  ∧ emits (λ e, acts_on net e ∧ saves_lr (lr (self s1)) e) s (snd (run_body P run s)).
Proof.
  intros Hoff Hload Hbuilt.
  destruct (built_optimizer_fields _ _ _ _ Hbuilt) as [Htarget Hlr].
  pose proof (load_model_no_optimizer_event
                (cfg_reid_net (cfg (self s))) (tr_pretrained (cfg_train (cfg (self s))))
                net (lr (self s1)) (set_self (with_lr (run_lr run)) s)) as Hev.
  rewrite Hload in Hev. simpl in Hev.
  unfold run_body. rewrite bind_modify, bind_get.
  change (cfg (self (set_self (with_lr (run_lr run)) s))) with (cfg (self s)).
  rewrite (bind_ok _ _ _ _ _ Hload), bind_emit.
  rewrite (bind_ok _ _ _ _ _
             (bind_optimizer_built run net o
                (set_trace (trace s1 ++ [EvBeginRun run net]) s1) Hbuilt)).
  match goal with
  | |- optimizer (snd (?m ?s2)) = _ ∧ _ =>
      assert (H : hoare (optimizer_is o)
                        (λ e, acts_on (opt_target o) e ∧ saves_lr (opt_lr o) e)
                        m (λ _, True));
      [| destruct (H s2 eq_refl) as (Hi & He & _) ]
  end.
  { hoare_walk
      ltac:(first [ apply (hoare_ext _ _ (bind_scheduler run) (mret tt));
                    [intros; apply bind_scheduler_off; exact Hoff
                    | apply hoare_ret; exact I]
                  | apply epoch_body_optimizer; exact Hoff ])
      ltac:(apply hoare_read_optimizer)
      ltac:(assumption)
      ltac:(split; optimizer_leaf). }
  split; [exact Hi |].
  rewrite Htarget, Hlr in He.
  apply (frame_trans (R := emits _) s s1).
  { destruct Hev as (evs & Ht & Hg). exists evs. split; [exact Ht | exact Hg]. }
  apply (frame_trans (R := emits _) s1
           (set_optimizer (Some o) (set_trace (trace s1 ++ [EvBeginRun run net]) s1)));
    [| exact He].
  exists [EvBeginRun run net]. split; [reflexivity |].
  repeat constructor; optimizer_leaf.
Qed.

(** X4. In a run whose optimizer kind is 'SGD' or 'Adam' and that does not
    ask for [reduce_lr], every [optimizer.zero_grad()] and [optimizer.step()]
    acts on the parameters of the network that [load_model] built for this
    run (the object allocated next on the heap), whether the run returns or
    raises. *)
Theorem known_kind_steps_its_own_network (run : Run) (s : State) :
  run_optim run = "SGD" ∨ run_optim run = "Adam" →
  getattr_flag (run_reduce_lr run) = false →
  emits (acts_on (length (heap s))) s (snd (run_body P run s)).
Proof.
  intros Hkind Hoff.
  destruct (load_model P (cfg_reid_net (cfg (self s)))
              (tr_pretrained (cfg_train (cfg (self s))))
              (set_self (with_lr (run_lr run)) s)) as [[net | e] s1] eqn:Hload.
  - pose proof (load_model_handle _ _ _ _ _ Hload) as Hnet. simpl in Hnet.
    assert (Hb : ∃ o, built_optimizer run net (lr (self s1)) = Some o).
    { unfold built_optimizer. destruct Hkind as [-> | ->]; simpl; eauto. }
    destruct Hb as [o Hb].
    destruct (run_body_known run s s1 net o Hoff Hload Hb) as [_ He].
    rewrite <- Hnet. eapply emits_weaken; [| exact He]. intros e [Ha _]. exact Ha.
  - pose proof (load_model_no_optimizer_event
                  (cfg_reid_net (cfg (self s)))
                  (tr_pretrained (cfg_train (cfg (self s))))
                  (length (heap s)) 0 (set_self (with_lr (run_lr run)) s)) as Hev.
    unfold run_body. rewrite bind_modify, bind_get.
    change (cfg (self (set_self (with_lr (run_lr run)) s))) with (cfg (self s)).
    rewrite (bind_raise _ _ _ _ _ Hload). rewrite Hload in Hev.
    destruct Hev as (evs & Ht & Hg). exists evs. split; [exact Ht |].
    eapply Forall_impl; [exact Hg |]. intros ? [Ha _]. exact Ha.
Qed.

(** X5. The learning rate of the optimizer is [self.lr] as [load_model]
    left it.  Line 110 stores [run.lr] in [self.lr]; when the pretrained path
    is not a file the optimizer of an 'SGD' or 'Adam' run is built with
    [run.lr], but when a checkpoint that fits the network is loaded, line 56
    overwrites [self.lr] and the optimizer is built with [checkpoint['lr']]:
    [run.lr] is not used.  Without [reduce_lr] the name [optimizer] is still
    bound to that optimizer when the run ends, and every checkpoint written by
    the run records that learning rate. *)
Theorem optimizer_uses_the_loaded_learning_rate (run : Run) (s : State)
  (o : Optimizer) (lr0 : Q) :
  let pretrained := tr_pretrained (cfg_train (cfg (self s))) in
  let fresh := get_model P (cfg_reid_net (cfg (self s))) (num_classes (self s)) in
  let s' := snd (run_body P run s) in
  getattr_flag (run_reduce_lr run) = false →
  built_optimizer run (length (heap s)) lr0 = Some o →
  (isfile pretrained s = false → lr0 = run_lr run →
   optimizer s' = Some o ∧ emits (saves_lr (run_lr run)) s s')
  ∧ (∀ c sd, pretrained ≠ "" →
             fs s !! pretrained = Some (FCheckpoint c) →
             ck_net_dict c = PStateDict sd →
             shapes sd = shapes (net_params fresh) →
             lr0 = ck_lr c →
             optimizer s' = Some o ∧ emits (saves_lr (ck_lr c)) s s').
Proof.
  intros pretrained fresh s' Hoff Hbuilt.
  set (s0 := set_self (with_lr (run_lr run)) s).
  split.
  - intros Hfile ->.
    pose proof (load_model_no_file P s0 (cfg_reid_net (cfg (self s))) pretrained Hfile)
      as Hload.
    destruct (run_body_known run s _ _ o Hoff Hload Hbuilt) as [Ho He].
    split; [exact Ho |]. eapply emits_weaken; [| exact He]. intros e [_ Hl]. exact Hl.
  - intros c sd Hne Hf Hsd Hfit ->.
    pose proof (load_model_checkpoint P s0 (cfg_reid_net (cfg (self s))) pretrained c
                  Hne Hf) as Hload.
    cbv zeta in Hload. rewrite Hsd in Hload.
    change (get_model P (cfg_reid_net (cfg (self s))) (num_classes (self s0)))
      with fresh in Hload.
    destruct (decide (shapes sd = shapes (net_params fresh))) as [_ | Hn];
      [| contradiction].
    destruct (run_body_known run s _ _ o Hoff Hload Hbuilt) as [Ho He].
    split; [exact Ho |]. eapply emits_weaken; [| exact He]. intros e [_ Hl]. exact Hl.
Qed.

(** X6. A run whose optimizer kind is neither 'SGD' nor 'Adam', started
    while the name [optimizer] is bound to the optimizer of an earlier run
    and not asking for [reduce_lr], leaves that binding as it is: every
    [zero_grad()] and [step()] of the run acts on the network of the earlier
    optimizer, every checkpoint of the run records the learning rate of the
    earlier optimizer, and the network built for this run never receives an
    optimizer step. *)
Theorem unknown_kind_steps_the_previous_network (run : Run) (s : State)
  (previous : Optimizer) :
  run_optim run ≠ "SGD" →
  run_optim run ≠ "Adam" →
  getattr_flag (run_reduce_lr run) = false →
  optimizer s = Some previous →
  let s' := snd (run_body P run s) in
  optimizer s' = Some previous
  ∧ emits (λ e, acts_on (opt_target previous) e ∧ saves_lr (opt_lr previous) e) s s'
  ∧ ((opt_target previous < length (heap s))%nat →
     emits (λ e, is_opt_step_on (length (heap s)) e = false) s s').
Proof.
  intros H1 H2 Hoff Hopt s'.
  assert (H : hoare (optimizer_is previous)
                    (λ e, acts_on (opt_target previous) e
                          ∧ saves_lr (opt_lr previous) e)
                    (run_body P run) (λ _, True)).
  { unfold run_body.
    hoare_walk
      ltac:(first [ apply (hoare_ext _ _ (bind_scheduler run) (mret tt));
                    [intros; apply bind_scheduler_off; exact Hoff
                    | apply hoare_ret; exact I]
                  | apply (hoare_ext _ _ (bind_optimizer run _) (mret tt));
                    [intros; apply bind_optimizer_unknown; assumption
                    | apply hoare_ret; exact I]
                  | apply epoch_body_optimizer; exact Hoff ])
      ltac:(apply hoare_read_optimizer)
      ltac:(assumption)
      ltac:(split; optimizer_leaf). }
  destruct (H s Hopt) as (Hi & He & _).
  split; [exact Hi |]. split; [exact He |].
  intros Hold. eapply emits_weaken; [| exact He].
  intros e [Hact _]. destruct e; try reflexivity.
  simpl. apply Nat.eqb_neq. rewrite (Hact target) by (right; reflexivity). lia.
Qed.

End Optimizers.

Lemma known_kind_steps_its_own_network_witness :
  let s := Demo.started (Demo.config 2 1 "" ["SGD"]) ∅ in
  emits (acts_on (length (heap s))) s (snd (run_body Demo.providers Demo.sgd_run s)).
Proof.
  intros s.
  apply (known_kind_steps_its_own_network Demo.providers Demo.sgd_run s).
  - left. reflexivity.
  - reflexivity.
Defined.

Lemma optimizer_uses_the_loaded_learning_rate_witness :
  let s := Demo.started (Demo.config 5 1 "good.pth" ["SGD"]) Demo.disk in
  let s' := snd (run_body Demo.providers Demo.sgd_run s) in
  run_lr Demo.sgd_run = 1%Q
  ∧ optimizer s' = Some (mkOptimizer (SGD (9 # 10) (5 # 10000)) O (1 # 100))
  ∧ emits (saves_lr (1 # 100)) s s'.
Proof.
  intros s s'. split; [reflexivity |].
  destruct (optimizer_uses_the_loaded_learning_rate Demo.providers Demo.sgd_run s
              (mkOptimizer (SGD (9 # 10) (5 # 10000)) O (1 # 100)) (1 # 100))
    as (_ & Hloaded).
  - reflexivity.
  - vm_compute. reflexivity.
  - apply (Hloaded Demo.good_checkpoint {[ "fc.weight" := [1%Q; 2%Q] ]}).
    + vm_compute. discriminate.
    + vm_compute. reflexivity.
    + reflexivity.
    + vm_compute. reflexivity.
    + reflexivity.
Defined.

Lemma unknown_kind_steps_the_previous_network_witness :
  let s := Demo.in_run (Demo.config 2 1 "" ["Adam"; "RMSprop"]) in
  let s' := snd (run_body Demo.providers Demo.rmsprop_run s) in
  optimizer s' = Some (mkOptimizer Adam O 1)
  ∧ emits (λ e, acts_on O e ∧ saves_lr 1 e) s s'
  ∧ emits (λ e, is_opt_step_on 1 e = false) s s'.
Proof.
  intros s s'.
  destruct (unknown_kind_steps_the_previous_network Demo.providers Demo.rmsprop_run s
              (mkOptimizer Adam O 1))
    as (Hopt & Hev & Hnew).
  - discriminate.
  - discriminate.
  - reflexivity.
  - reflexivity.
  - split; [exact Hopt |]. split; [exact Hev |]. apply Hnew. simpl. lia.
Defined.

(** * Where checkpoints are written *)

#[global] Instance any_state_stable : Stable any_state.
Proof. split; intros; exact I. Qed.

#[global] Instance save_root_is_stable (root : string) : Stable (save_root_is root).
Proof. split; intros; assumption. Qed.

#[global] Instance keeps_self_frame : Frame keeps_self.
Proof.
  split; try (intros; reflexivity).
  intros s1 s2 s3 H1 H2. unfold keeps_self in *. congruence.
Qed.

Ltac save_leaf :=
  cbv beta in *;
  let Hx := fresh "Hx" in
  intros ? ? ? Hx;
  first [ discriminate Hx
        | injection Hx as <- <- <-; first [ reflexivity | assumption ] ].

Section Paths.
Context (P : Providers).

(** X7. [train] assigns none of the attributes that [__init__] sets up: the
    configuration, the save root, both loaders, the class count, the device
    and the list of runs are the same after [train] as before, whether it
    returns or raises. *)
Theorem train_keeps_the_setup (s : State) : keeps_setup s (snd (train P s)).
Proof.
  assert (H : steps keeps_setup (train P))
    by (steps_walk fail ltac:(repeat split; reflexivity)).
  exact (H s).
Qed.

Lemma hoare_checkpoint_path (root : string) (good : Event → Prop) (epoch : Z) :
  hoare (save_root_is root) good (checkpoint_path P epoch)
        (λ f, ∃ name, f = path_join root (path_join "checkpoints" name)).
Proof.
  intros s Hs. unfold checkpoint_path. rewrite bind_get.
  split; [exact Hs |]. split; [apply frame_refl |].
  intros a Ha. injection Ha as <-. unfold save_root_is in Hs. rewrite Hs. eauto.
Qed.

(** X8. Every checkpoint that [train] writes, at either calling place and
    in every run, goes to a file of the directory [checkpoints] under
    [self.save_root]. *)
Theorem train_writes_under_the_checkpoint_directory (s : State) :
  emits (saves_under (save_root (self s))) s (snd (train P s)).
Proof.
  assert (H : hoare (save_root_is (save_root (self s)))
                    (saves_under (save_root (self s))) (train P) (λ _, True)).
  { generalize (save_root (self s)). intros root.
    hoare_walk fail ltac:(apply hoare_checkpoint_path) ltac:(assumption)
               ltac:(save_leaf). }
  destruct (H s eq_refl) as (_ & He & _). exact He.
Qed.

(** X9. Within one epoch both calling places of [save_checkpoint] use the
    one path [checkpoint_file], computed at line 172 before the validation:
    its name holds the epoch index and the best accuracy as it was when the
    epoch began.  So a write made after an improvement goes to a file named
    after the previous best accuracy, and when the interval write and the
    improvement write happen in the same epoch the second overwrites the
    first. *)
Theorem epoch_writes_to_one_path (run : Run) (net : nat) (epoch : Z) (s : State) :
  emits (saves_to (path_join (save_root (self s))
                     (path_join "checkpoints"
                        (checkpoint_name P epoch (best_acc (self s))))))
        s (snd (epoch_body P run net epoch s)).
Proof.
  set (file := path_join _ _).
  unfold epoch_body. rewrite bind_emit.
  set (s0 := set_trace _ s).
  assert (Hphase : steps (λ a b, keeps_self a b ∧ emits (saves_to file) a b)
                         (train_phase P run net)).
  { intros a. split.
    - assert (H : steps keeps_self (train_phase P run net))
        by (steps_walk fail ltac:(reflexivity)).
      exact (H a).
    - assert (H : steps (emits (saves_to file)) (train_phase P run net))
        by (steps_walk fail ltac:(emits_leaf ltac:(save_leaf))).
      exact (H a). }
  specialize (Hphase s0). rewrite bind_unfold.
  destruct (train_phase P run net s0) as [[images | e] s1]; simpl in Hphase;
    destruct Hphase as [Hself Hev].
  - rewrite bind_emit. unfold checkpoint_path. rewrite bind_assoc, bind_get, bind_ret.
    cbn [set_trace self].
    replace (self s1) with (self s) by (symmetry; exact Hself). fold file.
    match goal with
    | |- emits _ _ (snd (?m ?s2)) =>
        assert (H : hoare any_state (saves_to file) m (λ _, True));
        [| destruct (H s2 I) as (_ & He & _) ]
    end.
    { hoare_walk fail fail ltac:(exact I) ltac:(save_leaf). }
    apply (frame_trans (R := emits _) s s0); [apply emits_event; save_leaf |].
    apply (frame_trans (R := emits _) s0 s1); [exact Hev |].
    apply (frame_trans (R := emits _) s1
             (set_trace (trace s1 ++ [EvAddTbData PhTrain]) s1));
      [apply emits_event; save_leaf | exact He].
  - simpl. apply (frame_trans (R := emits _) s s0); [apply emits_event; save_leaf |].
    exact Hev.
Qed.

End Paths.

(** * Runs that ask for the plateau scheduler *)

Section Plateau.
Context (P : Providers) (run : Run).
Hypothesis reduce_lr_on : getattr_flag (run_reduce_lr run) = true.
Hypothesis step_needs_metric : ∀ sch opt, ∃ e, scheduler_step P sch opt = Raise e.

Lemma step_scheduler_fails (s : State) : ∀ a, fst (step_scheduler P run s) ≠ Ok a.
Proof.
  intros a. unfold step_scheduler, read_scheduler, read_optimizer. rewrite reduce_lr_on.
  run_prims. destruct (scheduler s) as [sch |]; simpl; [| discriminate].
  destruct (optimizer s) as [opt |]; simpl; [| discriminate].
  destruct (step_needs_metric sch opt) as [e ->]. simpl. discriminate.
Qed.

Lemma hoare_step_scheduler_fails :
  hoare any_state (λ e, is_end_epoch e = false) (step_scheduler P run) (λ _, False).
Proof.
  intros s _. split; [exact I |]. split.
  - assert (H : steps (emits (λ e, is_end_epoch e = false)) (step_scheduler P run))
      by (steps_walk fail ltac:(emits_leaf ltac:(reflexivity))).
    exact (H s).
  - intros a Ha. exact (step_scheduler_fails s a Ha).
Qed.

Lemma epoch_body_never_ends (net : nat) (epoch : Z) :
  hoare any_state (λ e, is_end_epoch e = false) (epoch_body P run net epoch)
        (λ _, True).
Proof.
  hoare_walk ltac:(exfalso; assumption) ltac:(apply hoare_step_scheduler_fails)
             ltac:(exact I) ltac:(reflexivity).
Qed.

Lemma epoch_body_fails (net : nat) (epoch : Z) (s s' : State) :
  epoch_body P run net epoch s ≠ (Ok tt, s').
Proof.
  intros H. unfold epoch_body in H. rewrite bind_emit in H.
  apply bind_inv_ok in H. destruct H as (? & ? & _ & H).
  rewrite bind_emit in H.
  apply bind_inv_ok in H. destruct H as (? & ? & _ & H).
  apply bind_inv_ok in H. destruct H as (? & ? & _ & H).
  rewrite bind_emit in H.
  apply bind_inv_ok in H. destruct H as (? & s1 & _ & H).
  apply bind_inv_ok in H. destruct H as (a & s2 & Hs & _).
  apply (step_scheduler_fails s1 a). rewrite Hs. reflexivity.
Qed.

(** X10. For a run that asks for [reduce_lr], if [scheduler.step()] called
    without a metric raises (as [ReduceLROnPlateau.step] does), no epoch of
    the run reaches [runner.end_epoch]: the statement at line 209 raises in
    the first epoch.  Such a run returns only when it had no epoch to run,
    [cfg.train.epoch <= self.start_epoch]. *)
Theorem plateau_run_completes_no_epoch (s : State) :
  let s' := snd (run_body P run s) in
  emits (λ e, is_end_epoch e = false) s s'
  ∧ (fst (run_body P run s) = Ok tt →
     tr_epoch (cfg_train (cfg (self s))) <= start_epoch (self s')
     ∧ emits_count is_begin_epoch 0 s s').
Proof.
  intros s'. split.
  - assert (H : hoare any_state (λ e, is_end_epoch e = false) (run_body P run)
                      (λ _, True)).
    { unfold run_body.
      hoare_walk ltac:(apply epoch_body_never_ends) fail ltac:(exact I)
                 ltac:(reflexivity). }
    destruct (H s I) as (_ & He & _). exact He.
  - intros Hok. subst s'.
    destruct (run_body P run s) as [r s'] eqn:Hrun. simpl in Hok. subst r. simpl.
    destruct (run_body_returns P run s s' Hrun)
      as (net & s1 & s3 & s4 & Hload & H03 & Hcfg & H31 & Hloop & H43 & ->).
    simpl. rewrite H43, <- Hcfg.
    destruct (Z_lt_le_dec (start_epoch (self s3)) (tr_epoch (cfg_train (cfg (self s3)))))
      as [Hlt | Hle].
    + rewrite (range_cons _ _ Hlt) in Hloop. simpl in Hloop.
      apply bind_inv_ok in Hloop. destruct Hloop as ([] & s5 & Hep & _).
      exfalso. exact (epoch_body_fails net _ s3 s5 Hep).
    + split; [exact Hle |].
      rewrite (range_nil _ _ Hle) in Hloop. simpl in Hloop. injection Hloop as <-.
      destruct H03 as (evs & Ht & Hn). exists (evs ++ [EvEndRun]). split.
      * simpl. rewrite Ht, app_assoc. reflexivity.
      * rewrite count_events_app, Hn. reflexivity.
Qed.

End Plateau.

Lemma plateau_run_completes_no_epoch_witness :
  let run := mkRun 1 "SGD" (Some true) None in
  let s := Demo.started (Demo.config 2 1 "" ["SGD"]) ∅ in
  emits (λ e, is_end_epoch e = false) s (snd (run_body Demo.providers run s))
  ∧ fst (run_body Demo.providers run s) = Raise (TypeError "step() missing argument: metrics").
Proof.
  intros run s. split.
  - apply (plateau_run_completes_no_epoch Demo.providers run).
    + reflexivity.
    + intros sch opt. eexists. reflexivity.
  - vm_compute. reflexivity.
Defined.

(** * Edge cases of an epoch *)

Section Edges.
Context (P : Providers).

(** X11. A save interval of 0 does not switch the interval checkpoint off:
    [1 % 0] raises.  When the training phase of an epoch returns, the epoch
    raises [ZeroDivisionError] at line 177, right after
    [runner.add_tb_data(status='train')]: nothing is written, no validation
    runs and the epoch is not ended. *)
Theorem zero_save_interval_aborts_the_epoch (run : Run) (net : nat) (epoch : Z)
  (s s1 : State) (images : list Tensor) :
  tr_save_interval (cfg_train (cfg (self s))) = 0 →
  train_phase P run net (set_trace (trace s ++ [EvBeginEpoch]) s) = (Ok images, s1) →
  epoch_body P run net epoch s
  = (Raise ZeroDivisionError, set_trace (trace s1 ++ [EvAddTbData PhTrain]) s1).
Proof.
  intros Hzero Hphase.
  assert (Hcfg : cfg (self s1) = cfg (self s)).
  { assert (H : steps keeps_config (train_phase P run net))
      by (steps_walk fail ltac:(repeat split; reflexivity)).
    specialize (H (set_trace (trace s ++ [EvBeginEpoch]) s)).
    rewrite Hphase in H. exact (proj1 H). }
  unfold epoch_body. rewrite bind_emit, (bind_ok _ _ _ _ _ Hphase), bind_emit.
  unfold checkpoint_path. rewrite bind_assoc, bind_get, bind_ret.
  unfold interval_checkpoint, interval_due. rewrite !bind_assoc, bind_get.
  cbn [set_trace self]. rewrite Hcfg, Hzero. reflexivity.
Qed.

(** X12. With a training loader over an empty dataset,
    [next(iter(self.train_loader))] at line 144 raises [StopIteration]: the
    epoch stops right after [runner.begin_epoch()], before any forward
    pass. *)
Theorem empty_training_set_stops_the_epoch (run : Run) (net : nat) (epoch : Z)
  (dl : DataLoader) (s : State) :
  train_loader (self s) = Some dl →
  dl_shuffle dl = false →
  dset_samples (dl_dataset dl) = [] →
  epoch_body P run net epoch s
  = (Raise StopIteration, set_trace (trace s ++ [EvBeginEpoch]) s).
Proof.
  intros Htl Hsh Hempty. unfold epoch_body. rewrite bind_emit.
  unfold train_phase. rewrite !bind_assoc, bind_get. cbn [set_trace self].
  rewrite Htl. unfold next_iter, iter_loader, loader_batches.
  rewrite Hsh, Hempty. reflexivity.
Qed.

End Edges.

Lemma zero_save_interval_aborts_the_epoch_witness :
  let s := Demo.in_run (Demo.config 2 0 "" ["Adam"]) in
  let s1 := snd (train_phase Demo.providers Demo.adam_run O
                   (set_trace (trace s ++ [EvBeginEpoch]) s)) in
  epoch_body Demo.providers Demo.adam_run O 0 s
  = (Raise ZeroDivisionError, set_trace (trace s1 ++ [EvAddTbData PhTrain]) s1).
Proof.
  intros s s1.
  apply (zero_save_interval_aborts_the_epoch Demo.providers Demo.adam_run O 0 s s1
           [[1%Q]; [2%Q]]).
  - reflexivity.
  - vm_compute. reflexivity.
Defined.

Lemma empty_training_set_stops_the_epoch_witness :
  let dl := mkDataLoader (mkDataset [] 2) false 2 0 in
  let s := set_self (with_train_loader dl) (Demo.in_run (Demo.config 2 1 "" ["Adam"])) in
  epoch_body Demo.providers Demo.adam_run O 0 s
  = (Raise StopIteration, set_trace (trace s ++ [EvBeginEpoch]) s).
Proof.
  intros dl s.
  apply (empty_training_set_stops_the_epoch Demo.providers Demo.adam_run O 0 dl s);
    reflexivity.
Defined.

(** * save_checkpoint, load_model and __init__ as units *)

Section Units.
Context (P : Providers).

(** X13. [save_checkpoint] as a unit.  A file name without directory part
    makes [os.makedirs('')] raise [FileNotFoundError], and nothing is
    written.  Whenever the call returns, the network handle was live and the
    call has written the one file [filename]: it holds [net.state_dict], the
    accuracy [self.best_acc] as it was at the time of the call, [epoch] and
    [lr]; every other file is as before, and neither [self] nor any network
    object nor the binding of [optimizer] has changed. *)
Theorem save_checkpoint_records_accuracy_epoch_and_lr (site : SaveSite)
  (filename : string) (net : nat) (epoch : Z) (lr_ : Q) (s : State) :
  (has_slash filename = false →
   save_checkpoint site filename net epoch lr_ s = (Raise FileNotFoundError, s))
  ∧ (∀ s', save_checkpoint site filename net epoch lr_ s = (Ok tt, s') →
           ∃ n, heap s !! net = Some n
                ∧ fs s' = <[filename := FCheckpoint
                                          (mkCheckpoint (PBoundMethod n "state_dict")
                                                        (best_acc (self s)) epoch lr_)]>
                            (fs s)
                ∧ (∀ other, other ≠ filename → fs s' !! other = fs s !! other)
                ∧ self s' = self s
                ∧ heap s' = heap s
                ∧ optimizer s' = optimizer s).
Proof.
  split.
  - intros Hsl. unfold save_checkpoint, makedirs_for. rewrite Hsl. reflexivity.
  - intros s' Hrun. unfold save_checkpoint, makedirs_for, read_net in Hrun.
    destruct (has_slash filename); [| discriminate Hrun].
    rewrite bind_ret, bind_get, bind_assoc, bind_get in Hrun.
    destruct (heap s !! net) as [n |] eqn:Hn; [| discriminate Hrun].
    rewrite bind_ret, bind_emit in Hrun. unfold modify in Hrun.
    injection Hrun as <-. exists n.
    cbn [set_trace set_fs fs self heap optimizer].
    split; [reflexivity |]. split; [reflexivity |]. split.
    + intros other Hne. apply lookup_insert_ne.
      intros Heq. apply Hne. symmetry. exact Heq.
    + repeat split.
Qed.

(** X14. Every call of [load_model] builds exactly one new network object,
    placed after the existing ones, which it leaves as they are; it writes
    no file and does not rebind [optimizer].  This holds when the call
    raises too.  A handle it returns is the handle of the new object. *)
Theorem load_model_builds_one_network (reid_net pretrained : string) (s : State) :
  let r := load_model P reid_net pretrained s in
  (∃ n, heap (snd r) = heap s ++ [n])
  ∧ fs (snd r) = fs s
  ∧ optimizer (snd r) = optimizer s
  ∧ (∀ net, fst r = Ok net → net = length (heap s)).
Proof.
  intros r. subst r.
  destruct (isfile pretrained s) eqn:Hfile.
  - unfold isfile in Hfile.
    destruct (decide (pretrained = "")) as [| Hne]; [discriminate Hfile |].
    apply bool_decide_eq_true in Hfile. destruct Hfile as [f Hf].
    destruct f as [c |].
    + pose proof (load_model_checkpoint P s reid_net pretrained c Hne Hf) as H.
      cbv zeta in H. rewrite H.
      destruct (ck_net_dict c) as [sd | ? ?]; [destruct (decide _) |];
        cbn [fst snd set_self set_heap set_trace heap fs optimizer];
        (split; [eexists; reflexivity |]); (split; [reflexivity |]);
        (split; [reflexivity |]); intros net Hnet;
        first [ discriminate Hnet | injection Hnet as <-; reflexivity ].
    + rewrite (load_model_garbage P s reid_net pretrained Hne Hf).
      cbn [fst snd set_self set_heap set_trace heap fs optimizer].
      split; [eexists; reflexivity |]. split; [reflexivity |].
      split; [reflexivity |]. intros net Hnet. discriminate Hnet.
  - rewrite (load_model_no_file P s reid_net pretrained Hfile).
    cbn [fst snd set_self set_heap set_trace heap fs optimizer].
    split; [eexists; reflexivity |]. split; [reflexivity |].
    split; [reflexivity |]. intros net Hnet. injection Hnet as <-. reflexivity.
Qed.

End Units.

Lemma save_checkpoint_records_accuracy_epoch_and_lr_witness :
  let s := Demo.in_run (Demo.config 2 1 "" ["Adam"]) in
  let r := save_checkpoint SiteInterval "ckpt/f.pth" O 4 (1 # 10) s in
  fst r = Ok tt
  ∧ fs (snd r) !! "ckpt/f.pth"
    = Some (FCheckpoint (mkCheckpoint (PBoundMethod Demo.fresh_net "state_dict")
                                      (best_acc (self s)) 4 (1 # 10)))
  ∧ self (snd r) = self s
  ∧ save_checkpoint SiteInterval "f.pth" O 4 (1 # 10) s = (Raise FileNotFoundError, s).
Proof.
  intros s r.
  destruct (save_checkpoint_records_accuracy_epoch_and_lr SiteInterval "ckpt/f.pth" O
              4 (1 # 10) s) as (_ & Hok).
  destruct (save_checkpoint_records_accuracy_epoch_and_lr SiteInterval "f.pth" O
              4 (1 # 10) s) as (Hbare & _).
  destruct (Hok (snd r)) as (n & Hn & Hfs & _ & Hself & _); [reflexivity |].
  split; [reflexivity |]. split; [| split; [exact Hself | apply Hbare; reflexivity]].
  rewrite Hfs, lookup_insert_eq. injection Hn as <-. reflexivity.
Defined.

(** * What happens at most once in a run *)

#[global] Instance cfg_is_stable (c : Cfg) : Stable (cfg_is c).
Proof. split; intros; assumption. Qed.

Lemma emits_at_most_trans (p : Event → bool) (a b : nat) (s1 s2 s3 : State) :
  emits_at_most p a s1 s2 → emits_at_most p b s2 s3 → emits_at_most p (a + b) s1 s3.
Proof.
  intros (e1 & H1 & C1) (e2 & H2 & C2). exists (e1 ++ e2). split.
  - rewrite H2, H1, app_assoc. reflexivity.
  - rewrite count_events_app. lia.
Qed.

Lemma emits_at_most_none (p : Event → bool) (n : nat) (s s' : State) :
  emits (λ e, p e = false) s s' → emits_at_most p n s s'.
Proof.
  intros (evs & H & G). exists evs. split; [exact H |].
  rewrite (count_events_none p evs G). lia.
Qed.

Section Bounded.
Context (p : Event → bool).

Lemma bounded_zero {A : Type} (n : nat) (m : M A) :
  steps (emits (λ e, p e = false)) m → bounded p n m.
Proof. intros H s. apply emits_at_most_none, H. Qed.

Lemma bounded_emit (e : Event) : bounded p 1 (emit e).
Proof.
  intros s. exists [e]. split; [reflexivity |].
  unfold count_events. simpl. destruct (p e); simpl; lia.
Qed.

Lemma bounded_bind_l {A B : Type} (n : nat) (m : M A) (k : A → M B) :
  bounded p n m → (∀ a, steps (emits (λ e, p e = false)) (k a)) →
  bounded p n (m ≫= k).
Proof.
  intros Hm Hk s. rewrite bind_unfold. specialize (Hm s).
  destruct (m s) as [[a | e] s1]; simpl in *; [| exact Hm].
  replace n with (n + 0)%nat by lia.
  eapply emits_at_most_trans; [exact Hm |]. apply emits_at_most_none, Hk.
Qed.

Lemma bounded_bind_r {A B : Type} (n : nat) (m : M A) (k : A → M B) :
  steps (emits (λ e, p e = false)) m → (∀ a, bounded p n (k a)) →
  bounded p n (m ≫= k).
Proof.
  intros Hm Hk s. rewrite bind_unfold. specialize (Hm s).
  destruct (m s) as [[a | e] s1]; simpl in *; [| apply emits_at_most_none, Hm].
  change n with (0 + n)%nat.
  eapply emits_at_most_trans; [apply emits_at_most_none, Hm | apply Hk].
Qed.

End Bounded.

Ltac quiet := solve [steps_walk fail ltac:(emits_leaf ltac:(reflexivity))].

Ltac bounded_walk known :=
  first
    [ known
    | apply bounded_zero; quiet
    | apply bounded_emit
    | apply bounded_bind_r; [ quiet | intros ?; bounded_walk known ]
    | apply bounded_bind_l; [ bounded_walk known | intros ?; quiet ]
    | progress unfold validation_phase, save_checkpoint, interval_checkpoint,
        improvement_checkpoint, final_validation, epoch_body, run_body;
      bounded_walk known
    | progress cbv beta zeta; bounded_walk known
    | case_match; bounded_walk known ].

Lemma NoDup_range (a b : Z) : NoDup (range a b).
Proof.
  unfold range. apply NoDup_fmap_2; [| apply NoDup_seq].
  intros i j H. lia.
Qed.

Section AtMostOnce.
Context (P : Providers) (run : Run).
Context (p : Event → bool) (special : Cfg → Z).
Hypothesis quiet_elsewhere :
  ∀ net epoch s, epoch ≠ special (cfg (self s)) →
                 emits (λ e, p e = false) s (snd (epoch_body P run net epoch s)).
Hypothesis once_there : ∀ net epoch, bounded p 1 (epoch_body P run net epoch).

Lemma for_epochs_quiet (net : nat) (l : list Z) (s : State) :
  special (cfg (self s)) ∉ l →
  emits (λ e, p e = false) s (snd (for_ l (epoch_body P run net) s)).
Proof.
  revert s. induction l as [| x l IH]; intros s Hnot; simpl.
  - apply frame_refl.
  - rewrite bind_unfold.
    pose proof (quiet_elsewhere net x s) as Hx.
    pose proof (proj1 (epoch_body_keeps_resume P run net x s)) as Hc.
    destruct (epoch_body P run net x s) as [[[] | e] s1]; simpl in *.
    + apply (frame_trans (R := emits _) s s1).
      * apply Hx. intros ->. apply Hnot. left.
      * apply IH. rewrite Hc. intros Hin. apply Hnot. right. exact Hin.
    + apply Hx. intros ->. apply Hnot. left.
Qed.

Lemma for_epochs_at_most_one (net : nat) (l : list Z) :
  NoDup l → bounded p 1 (for_ l (epoch_body P run net)).
Proof.
  induction 1 as [| x l Hx Hnd IH]; intros s; simpl.
  - exists []. rewrite app_nil_r. split; [reflexivity | unfold count_events; simpl; lia].
  - rewrite bind_unfold.
    pose proof (quiet_elsewhere net x s) as Hq. pose proof (once_there net x s) as Ho.
    pose proof (proj1 (epoch_body_keeps_resume P run net x s)) as Hc.
    destruct (epoch_body P run net x s) as [[[] | e] s1]; simpl in *; [| exact Ho].
    destruct (decide (x = special (cfg (self s)))) as [Heq | Hne].
    + change 1%nat with (1 + 0)%nat.
      eapply emits_at_most_trans; [exact Ho |].
      apply emits_at_most_none, for_epochs_quiet. rewrite Hc, <- Heq. exact Hx.
    + change 1%nat with (0 + 1)%nat.
      eapply emits_at_most_trans; [apply emits_at_most_none, Hq, Hne | apply IH].
Qed.

Lemma epoch_loop_at_most_one (net : nat) (a b : Z) :
  bounded p 1 (for_ (range a b) (epoch_body P run net)).
Proof. apply for_epochs_at_most_one, NoDup_range. Qed.

End AtMostOnce.

Section OncePerRun.
Context (P : Providers) (run : Run).

Lemma hoare_final_validation_skipped (c : Cfg) (good : Event → Prop) (net : nat)
  (epoch : Z) (checkpoint_file : string) (images : list Tensor) :
  epoch ≠ validated_epoch c →
  hoare (cfg_is c) good (final_validation P run net epoch checkpoint_file images)
        (λ _, True).
Proof.
  intros Hne s Hs.
  rewrite (final_validation_skipped P run net epoch checkpoint_file images s).
  - split; [exact Hs |]. split; [apply frame_refl | intros; exact I].
  - unfold cfg_is in Hs. rewrite Hs. unfold validated_epoch in Hne. lia.
Qed.

Lemma hoare_interval_checkpoint_idle (c : Cfg) (good : Event → Prop) (net : nat)
  (epoch : Z) (checkpoint_file : string) :
  epoch ≠ interval_epoch c →
  hoare (cfg_is c) good (interval_checkpoint checkpoint_file net epoch) (λ _, True).
Proof.
  intros Hne s Hs. unfold interval_checkpoint, interval_due.
  rewrite bind_assoc, bind_get. unfold cfg_is in Hs. rewrite Hs.
  destruct (tr_save_interval (cfg_train c) =? 0).
  - split; [exact Hs |]. split; [apply frame_refl | intros a Ha; discriminate Ha].
  - rewrite bind_ret.
    destruct (Z.eqb_spec (epoch + 1 mod tr_save_interval (cfg_train c)) 0) as [He | _].
    + exfalso. apply Hne. unfold interval_epoch. lia.
    + split; [exact Hs |]. split; [apply frame_refl | intros; exact I].
Qed.

Lemma validation_only_in_the_last_epoch (net : nat) (epoch : Z) (s : State) :
  epoch ≠ validated_epoch (cfg (self s)) →
  emits (λ e, is_eval e = false) s (snd (epoch_body P run net epoch s)).
Proof.
  intros Hne.
  assert (H : hoare (cfg_is (cfg (self s))) (λ e, is_eval e = false)
                    (epoch_body P run net epoch) (λ _, True)).
  { hoare_walk ltac:(apply hoare_final_validation_skipped; exact Hne) fail
               ltac:(assumption) ltac:(reflexivity). }
  destruct (H s eq_refl) as (_ & He & _). exact He.
Qed.

Lemma improvement_only_in_the_last_epoch (net : nat) (epoch : Z) (s : State) :
  epoch ≠ validated_epoch (cfg (self s)) →
  emits (λ e, is_save SiteImproved e = false) s (snd (epoch_body P run net epoch s)).
Proof.
  intros Hne.
  assert (H : hoare (cfg_is (cfg (self s))) (λ e, is_save SiteImproved e = false)
                    (epoch_body P run net epoch) (λ _, True)).
  { hoare_walk ltac:(apply hoare_final_validation_skipped; exact Hne) fail
               ltac:(assumption) ltac:(reflexivity). }
  destruct (H s eq_refl) as (_ & He & _). exact He.
Qed.

Lemma interval_only_in_one_epoch (net : nat) (epoch : Z) (s : State) :
  epoch ≠ interval_epoch (cfg (self s)) →
  emits (λ e, is_save SiteInterval e = false) s (snd (epoch_body P run net epoch s)).
Proof.
  intros Hne.
  assert (H : hoare (cfg_is (cfg (self s))) (λ e, is_save SiteInterval e = false)
                    (epoch_body P run net epoch) (λ _, True)).
  { hoare_walk ltac:(apply hoare_interval_checkpoint_idle; exact Hne) fail
               ltac:(assumption) ltac:(reflexivity). }
  destruct (H s eq_refl) as (_ & He & _). exact He.
Qed.

Lemma epoch_body_one_eval (net : nat) (epoch : Z) :
  bounded is_eval 1 (epoch_body P run net epoch).
Proof. bounded_walk fail. Qed.

Lemma epoch_body_one_improvement (net : nat) (epoch : Z) :
  bounded (is_save SiteImproved) 1 (epoch_body P run net epoch).
Proof. bounded_walk fail. Qed.

Lemma epoch_body_one_interval (net : nat) (epoch : Z) :
  bounded (is_save SiteInterval) 1 (epoch_body P run net epoch).
Proof. bounded_walk fail. Qed.

(** X15. Whatever the configuration, one run enters the validation pass
    ([net.eval()]) at most once, writes at most one checkpoint after an
    improvement and at most one interval checkpoint: the epochs of a run are
    distinct, the validation belongs to the epoch [cfg.train.epoch - 1] only,
    and [epoch+1 % save_interval == 0] holds at the single epoch
    [-(1 % save_interval)].  This also holds for a run that raises. *)
Theorem run_validates_and_saves_at_most_once (s : State) :
  let s' := snd (run_body P run s) in
  emits_at_most is_eval 1 s s'
  ∧ emits_at_most (is_save SiteImproved) 1 s s'
  ∧ emits_at_most (is_save SiteInterval) 1 s s'.
Proof.
  intros s'. subst s'. split; [| split]; revert s;
    match goal with
    | |- ∀ s, emits_at_most ?p 1 s (snd (run_body P run s)) =>
        change (bounded p 1 (run_body P run))
    end.
  - bounded_walk
      ltac:(apply (epoch_loop_at_most_one P run is_eval validated_epoch
                     validation_only_in_the_last_epoch epoch_body_one_eval)).
  - bounded_walk
      ltac:(apply (epoch_loop_at_most_one P run (is_save SiteImproved) validated_epoch
                     improvement_only_in_the_last_epoch epoch_body_one_improvement)).
  - bounded_walk
      ltac:(apply (epoch_loop_at_most_one P run (is_save SiteInterval) interval_epoch
                     interval_only_in_one_epoch epoch_body_one_interval)).
Qed.

End OncePerRun.

(** * The constructor *)

Section Constructor.
Context (P : Providers).

Lemma load_data_valid (root reid_net : string) (s : State) :
  let d := cfg_dataset (cfg (self s)) in
  let val_split :=
    get_dataset P (cfg_reid_net (cfg (self s))) (ds_name d) root "val"
                (get_transforms P (ds_size d)) in
  let dl := mkDataLoader val_split false (ds_batch_size d) (ds_workers d) in
  0 < ds_batch_size d → 0 <= ds_workers d →
  load_data P root reid_net s
  = (Ok tt, set_self (λ t, with_num_classes (dset_num_classes val_split)
                             (with_val_loader dl (with_train_loader dl t))) s).
Proof.
  intros d val_split dl Hb Hw. unfold load_data, new_DataLoader. run_prims.
  fold d. fold val_split.
  destruct (Z.leb_spec (ds_batch_size d) 0); [lia |].
  destruct (Z.ltb_spec (ds_workers d) 0); [lia |]. reflexivity.
Qed.

Lemma Trainer_init_cpu_run (c : Cfg) (s : State) :
  let d := cfg_dataset c in
  let val_split :=
    get_dataset P (cfg_reid_net c) (ds_name d) (ds_root d) "val"
                (get_transforms P (ds_size d)) in
  let dl := mkDataLoader val_split false (ds_batch_size d) (ds_workers d) in
  cfg_GPU c < 0 ∨ cuda_available s = false →
  0 < ds_batch_size d →
  0 <= ds_workers d →
  Trainer_init P c s
  = (Ok tt,
     set_self (λ _, mkTrainer c
                      (path_join (cfg_weight_root c)
                                 (cfg_reid_net c +:+ "_" +:+ ds_name d)%string)
                      0 0 0 (Some dl) (Some dl) (dset_num_classes val_split)
                      Cpu (get_runs P (cfg_params c))) s).
Proof.
  intros d val_split dl Hcpu Hb Hw. unfold Trainer_init.
  rewrite bind_modify.
  assert (Hcond : (0 <=? cfg_GPU c) && cuda_available s = false).
  { destruct Hcpu as [Hneg | ->]; [| apply andb_false_r].
    destruct (Z.leb_spec 0 (cfg_GPU c)); [lia | reflexivity]. }
  match goal with
  | |- (setup_device _ ≫= _) ?s0 = _ =>
      rewrite (bind_ok _ _ _ _ _ (setup_device_cpu s0 (cfg_GPU c) Hcond))
  end.
  rewrite bind_modify.
  rewrite load_data_valid; [reflexivity | exact Hb | exact Hw].
Qed.

Lemma Trainer_init_cuda_run (c g : Cfg) (s : State) :
  let d := cfg_dataset c in
  let val_split :=
    get_dataset P (cfg_reid_net c) (ds_name d) (ds_root d) "val"
                (get_transforms P (ds_size d)) in
  let dl := mkDataLoader val_split false (ds_batch_size d) (ds_workers d) in
  (0 <=? cfg_GPU c) && cuda_available s = true →
  global_cfg s = Some g →
  0 <= cfg_GPU g →
  0 < ds_batch_size d →
  0 <= ds_workers d →
  Trainer_init P c s
  = (Ok tt,
     set_self (λ _, mkTrainer c
                      (path_join (cfg_weight_root c)
                                 (cfg_reid_net c +:+ "_" +:+ ds_name d)%string)
                      0 0 0 (Some dl) (Some dl)
                      (dset_num_classes val_split) (Cuda (cfg_GPU g))
                      (get_runs P (cfg_params c)))
       (set_cudnn (mkCudnn true true true) s)).
Proof.
  intros d val_split dl Hcond Hg Hgg Hb Hw. unfold Trainer_init.
  rewrite bind_modify.
  match goal with
  | |- (setup_device _ ≫= _) ?s0 = _ =>
      assert (Hdev : setup_device (cfg_GPU c) s0
                     = (Ok (Cuda (cfg_GPU g)), set_cudnn (mkCudnn true true true) s0))
  end.
  { unfold setup_device. run_prims.
    cbn [cuda_available global_cfg set_self]. rewrite Hcond, Hg.
    destruct (Z.leb_spec 0 (cfg_GPU g)); [reflexivity | lia]. }
  rewrite (bind_ok _ _ _ _ _ Hdev), bind_modify.
  rewrite load_data_valid; [reflexivity | exact Hb | exact Hw].
Qed.

(** X16. Without CUDA, or with a negative [cfg.GPU], the constructor never
    looks up the global name [cfg] and leaves the cudnn flags alone: for a
    positive batch size and a non-negative worker count it returns with the
    device 'cpu', both loaders built on the 'val' split without shuffling,
    the class count of that dataset, the runs of the sweep parameters, and
    start epoch, learning rate and best accuracy all 0. *)
Theorem Trainer_init_without_cuda (c : Cfg) (s : State) :
  let d := cfg_dataset c in
  let val_split :=
    get_dataset P (cfg_reid_net c) (ds_name d) (ds_root d) "val"
                (get_transforms P (ds_size d)) in
  let dl := mkDataLoader val_split false (ds_batch_size d) (ds_workers d) in
  cfg_GPU c < 0 ∨ cuda_available s = false →
  0 < ds_batch_size d →
  0 <= ds_workers d →
  ∃ s', Trainer_init P c s = (Ok tt, s')
        ∧ device (self s') = Cpu
        ∧ cudnn s' = cudnn s
        ∧ cfg (self s') = c
        ∧ train_loader (self s') = Some dl
        ∧ val_loader (self s') = Some dl
        ∧ num_classes (self s') = dset_num_classes val_split
        ∧ runs (self s') = get_runs P (cfg_params c)
        ∧ start_epoch (self s') = 0
        ∧ lr (self s') = 0%Q
        ∧ best_acc (self s') = 0%Q.
Proof.
  intros d val_split dl Hcpu Hb Hw. eexists. split.
  - apply Trainer_init_cpu_run; assumption.
  - repeat split.
Qed.

(** X17. With CUDA and a non-negative [cfg.GPU], the constructor depends on
    the global name [cfg] of the module.  When the module has no such global
    (the class is used from another module) the constructor raises
    [NameError] before any loader is built.  When it has one, the device is
    [cuda:{GPU}] with the index of the global configuration, not of the
    constructor argument, the three cudnn flags are set, and the loaders are
    built from the constructor argument. *)
Theorem Trainer_init_with_cuda (c : Cfg) (s : State) :
  let d := cfg_dataset c in
  let val_split :=
    get_dataset P (cfg_reid_net c) (ds_name d) (ds_root d) "val"
                (get_transforms P (ds_size d)) in
  let dl := mkDataLoader val_split false (ds_batch_size d) (ds_workers d) in
  cuda_available s = true →
  0 <= cfg_GPU c →
  0 < ds_batch_size d →
  0 <= ds_workers d →
  (global_cfg s = None →
   ∃ s', Trainer_init P c s = (Raise (NameError "cfg"), s')
         ∧ train_loader (self s') = None ∧ val_loader (self s') = None
         ∧ cudnn s' = cudnn s)
  ∧ (∀ g, global_cfg s = Some g → 0 <= cfg_GPU g →
          ∃ s', Trainer_init P c s = (Ok tt, s')
                ∧ device (self s') = Cuda (cfg_GPU g)
                ∧ cudnn s' = mkCudnn true true true
                ∧ cfg (self s') = c
                ∧ train_loader (self s') = Some dl
                ∧ val_loader (self s') = Some dl).
Proof.
  intros d val_split dl Hcuda Hgpu Hb Hw.
  assert (Hcond : (0 <=? cfg_GPU c) && cuda_available s = true).
  { rewrite Hcuda. destruct (Z.leb_spec 0 (cfg_GPU c)); [reflexivity | lia]. }
  split.
  - intros Hg. eexists. split.
    + unfold Trainer_init, setup_device. run_prims.
      cbn [cuda_available global_cfg set_self]. rewrite Hcond, Hg. reflexivity.
    + repeat split.
  - intros g Hg Hgg. eexists. split.
    + apply (Trainer_init_cuda_run c g); assumption.
    + repeat split.
Qed.

End Constructor.

Lemma Trainer_init_without_cuda_witness :
  let c := Demo.config 2 1 "" ["SGD"] in
  let s := Demo.boot None false ∅ in
  ∃ s', Trainer_init Demo.providers c s = (Ok tt, s')
        ∧ device (self s') = Cpu
        ∧ val_loader (self s') = train_loader (self s')
        ∧ num_classes (self s') = 2.
Proof.
  intros c s.
  destruct (Trainer_init_without_cuda Demo.providers c s)
    as (s' & Hinit & Hdev & _ & _ & Htl & Hvl & Hn & _).
  - right. reflexivity.
  - simpl. lia.
  - simpl. lia.
  - exists s'. split; [exact Hinit |]. split; [exact Hdev |].
    split; [rewrite Htl, Hvl; reflexivity | exact Hn].
Defined.

Lemma Trainer_init_with_cuda_witness :
  let c := Demo.config 2 1 "" ["SGD"] in
  let g := mkCfg 3 "weights" "osnet" (cfg_dataset c) (cfg_train c) (cfg_params c) in
  (∃ s', Trainer_init Demo.providers c (Demo.boot None true ∅)
         = (Raise (NameError "cfg"), s'))
  ∧ (∃ s', Trainer_init Demo.providers c (Demo.boot (Some g) true ∅) = (Ok tt, s')
           ∧ device (self s') = Cuda 3).
Proof.
  intros c g. split.
  - destruct (Trainer_init_with_cuda Demo.providers c (Demo.boot None true ∅))
      as (Hnone & _); try reflexivity; try (simpl; lia).
    destruct Hnone as (s' & Hinit & _); [reflexivity |].
    exists s'. exact Hinit.
  - destruct (Trainer_init_with_cuda Demo.providers c (Demo.boot (Some g) true ∅))
      as (_ & Hsome); try reflexivity; try (simpl; lia).
    destruct (Hsome g) as (s' & Hinit & Hdev & _); [reflexivity | simpl; lia |].
    exists s'. split; [exact Hinit | exact Hdev].
Defined.

(** * Runs that complete *)

Section Returns.
Context (Inv : State → Prop).

Lemma returns_ret {A : Type} (a : A) (Q : A → Prop) : Q a → returns Inv (mret a) Q.
Proof. intros Hq s Hs. exists a, s. split; [reflexivity |]. split; assumption. Qed.

Lemma returns_get : returns Inv get Inv.
Proof. intros s Hs. exists s, s. split; [reflexivity |]. split; assumption. Qed.

Lemma returns_bind {A B : Type} (m : M A) (k : A → M B) (Q : A → Prop) (Q' : B → Prop) :
  returns Inv m Q → (∀ a, Q a → returns Inv (k a) Q') → returns Inv (m ≫= k) Q'.
Proof.
  intros Hm Hk s Hs. destruct (Hm s Hs) as (a & s1 & Hrun & Hi & Hq).
  destruct (Hk a Hq s1 Hi) as (b & s2 & Hrun2 & Hi2 & Hq2).
  exists b, s2. rewrite (bind_ok _ _ _ _ _ Hrun). split; [exact Hrun2 |].
  split; assumption.
Qed.

Lemma returns_bind_true {A B : Type} (m : M A) (k : A → M B) (Q' : B → Prop) :
  returns Inv m (λ _, True) → (∀ a, returns Inv (k a) Q') → returns Inv (m ≫= k) Q'.
Proof.
  intros Hm Hk. apply (returns_bind m k (λ _, True) Q' Hm). intros a _. apply Hk.
Qed.

Lemma returns_weaken {A : Type} (m : M A) (Q Q' : A → Prop) :
  returns Inv m Q → (∀ a, Q a → Q' a) → returns Inv m Q'.
Proof.
  intros H Hq s Hs. destruct (H s Hs) as (a & s' & Hrun & Hi & Ha).
  exists a, s'. split; [exact Hrun |]. split; [exact Hi | apply Hq, Ha].
Qed.

Lemma returns_modify (f : State → State) :
  (∀ s, Inv s → Inv (f s)) → returns Inv (modify f) (λ _, True).
Proof.
  intros H s Hs. exists tt, (f s). split; [reflexivity |]. split; [apply H, Hs | exact I].
Qed.

Lemma returns_for {A : Type} (l : list A) (body : A → M unit) :
  (∀ x, returns Inv (body x) (λ _, True)) → returns Inv (for_ l body) (λ _, True).
Proof.
  intros H. induction l as [| x l IH]; simpl.
  - apply returns_ret. exact I.
  - apply returns_bind_true; [apply H | intros _; exact IH].
Qed.

Lemma returns_for_fold {A B : Type} (l : list A) (body : A → B → M B) (b : B) :
  (∀ x b, returns Inv (body x b) (λ _, True)) →
  returns Inv (for_fold l body b) (λ _, True).
Proof.
  intros H. revert b. induction l as [| x l IH]; intros b; simpl.
  - apply returns_ret. exact I.
  - apply returns_bind_true; [apply H | intros b'; apply IH].
Qed.

Lemma returns_no_grad {A : Type} (body : M A) (Q : A → Prop) :
  (∀ s b, Inv s → Inv (set_grad_enabled b s)) →
  returns Inv body Q → returns Inv (no_grad body) Q.
Proof.
  intros Hg H s Hs. unfold no_grad.
  destruct (H (set_grad_enabled false s) (Hg s false Hs)) as (a & s' & Hrun & Hi & Hq).
  rewrite Hrun. eexists a, _. split; [reflexivity |]. split; [apply Hg, Hi | exact Hq].
Qed.

End Returns.

Lemma loader_batches_nonempty (P : Providers) (dl : DataLoader) (seed : nat) :
  dl_shuffle dl = false → dset_samples (dl_dataset dl) ≠ [] →
  loader_batches P dl seed ≠ [].
Proof.
  intros Hsh Hne. unfold loader_batches. rewrite Hsh.
  destruct (dset_samples (dl_dataset dl)) as [| x l]; [contradiction |].
  simpl. discriminate.
Qed.

(** Splits the facts of [run_ready] found in the context. *)
Ltac ready_facts :=
  cbv beta in *;
  repeat match goal with
         | H : run_ready _ _ _ _ _ _ |- _ => destruct H as (? & ? & ? & ? & ?)
         end.

(** An unreachable [raise]. *)
Ltac ready_absurd :=
  exfalso; ready_facts;
  first
    [ congruence
    | match goal with
      | H : heap _ !! _ = None |- _ => apply lookup_ge_None in H; subst; lia
      | H : (_ =? 0) = true |- _ => apply Z.eqb_eq in H; congruence
      | H : has_slash (path_join _ _) = false |- _ =>
          rewrite has_slash_path_join in H; discriminate H
      end ].

(** [run_ready] after an assignment. *)
Ltac ready_leaf :=
  ready_facts; unfold run_ready;
  cbn [set_self set_heap set_fs set_rng set_grad_enabled set_trace set_optimizer
       set_scheduler self heap optimizer cfg train_loader val_loader with_best_acc];
  rewrite ?length_insert; repeat split; assumption.

Ltac returns_walk known known_val :=
  repeat first
    [ assumption
    | known
    | apply returns_ret; exact I
    | eapply returns_bind; [ solve [first [apply returns_get | known_val]] | intros ? ?]
    | apply returns_bind_true; [ | intros ?]
    | apply returns_for; intros ?
    | apply returns_for_fold; intros ? ?
    | apply returns_no_grad; [intros ? ? ?; ready_leaf | ]
    | apply returns_modify; intros ? ?; ready_leaf
    | progress unfold emit, update_net, read_net, write_net, read_optimizer,
        read_scheduler, next_iter, iter_loader, apply_mask, norm, call_net,
        call_criterion, train_step, train_phase, val_step, validation_phase,
        checkpoint_path, interval_due, interval_checkpoint, makedirs_for,
        save_checkpoint, final_validation, improvement_checkpoint, step_scheduler,
        epoch_body
    | progress cbv beta zeta
    | case_match
    | ready_absurd ].

Section Completes.
Context (P : Providers) (run : Run) (net : nat).
Context (c : Cfg) (tdl vdl : DataLoader) (n : nat) (o : Optimizer).
Hypothesis reduce_lr_off : getattr_flag (run_reduce_lr run) = false.
Hypothesis net_lives : (net < n)%nat.
Hypothesis target_lives : (opt_target o < n)%nat.
Hypothesis unshuffled : dl_shuffle tdl = false.
Hypothesis nonempty : dset_samples (dl_dataset tdl) ≠ [].
Hypothesis interval_nonzero : tr_save_interval (cfg_train c) ≠ 0.

Lemma returns_read_optimizer :
  returns (run_ready c tdl vdl n o) read_optimizer (λ x, x = o).
Proof.
  intros s Hs. exists o, s. split; [| split; [exact Hs | reflexivity]].
  unfold read_optimizer. rewrite bind_get.
  destruct Hs as (_ & _ & _ & _ & ->). reflexivity.
Qed.

Lemma returns_first_batch (d : DataLoader) :
  d = tdl →
  returns (run_ready c tdl vdl n o) (iter_loader P d) (λ bs, bs ≠ []).
Proof.
  intros -> s Hs. unfold iter_loader. rewrite bind_get, unshuffled, bind_ret.
  eexists _, s. split; [reflexivity |]. split; [exact Hs |].
  apply loader_batches_nonempty; assumption.
Qed.

Lemma returns_checkpoint_path (epoch : Z) :
  returns (run_ready c tdl vdl n o) (checkpoint_path P epoch)
          (λ f, has_slash f = true).
Proof.
  intros s Hs. unfold checkpoint_path. rewrite bind_get.
  eexists _, s. split; [reflexivity |]. split; [exact Hs |].
  apply has_slash_path_join.
Qed.

Lemma epoch_body_completes (epoch : Z) :
  returns (run_ready c tdl vdl n o) (epoch_body P run net epoch) (λ _, True).
Proof.
  returns_walk
    ltac:(fail)
    ltac:(first [ apply returns_read_optimizer
                | apply returns_checkpoint_path
                | apply returns_first_batch; ready_facts; congruence ]).
Qed.

End Completes.

Section SweepCompletes.
Context (P : Providers) (c : Cfg) (tdl vdl : DataLoader).
Hypothesis no_pretrained : tr_pretrained (cfg_train c) = "".
Hypothesis interval_nonzero : tr_save_interval (cfg_train c) ≠ 0.
Hypothesis unshuffled : dl_shuffle tdl = false.
Hypothesis nonempty : dset_samples (dl_dataset tdl) ≠ [].

Lemma run_body_completes (run : Run) (s : State) :
  run_optim run = "SGD" ∨ run_optim run = "Adam" →
  getattr_flag (run_reduce_lr run) = false →
  sweep_ready c tdl vdl s →
  ∃ s', run_body P run s = (Ok tt, s') ∧ sweep_ready c tdl vdl s'.
Proof.
  intros Hkind Hoff (Hc & Htl & Hvl). unfold run_body.
  rewrite bind_modify, bind_get.
  set (s0 := set_self (with_lr (run_lr run)) s).
  assert (Hfile : isfile (tr_pretrained (cfg_train (cfg (self s0)))) s0 = false).
  { subst s0. cbn [set_self self with_lr cfg]. rewrite Hc, no_pretrained. reflexivity. }
  rewrite (bind_ok _ _ _ _ _ (load_model_no_file P s0 _ _ Hfile)), bind_emit.
  set (net := length (heap s0)).
  set (s1 := set_trace _ _).
  assert (Hb : ∃ o, built_optimizer run net (lr (self s1)) = Some o).
  { unfold built_optimizer. destruct Hkind as [-> | ->]; simpl; eauto. }
  destruct Hb as [o Hb].
  destruct (built_optimizer_fields _ _ _ _ Hb) as [Htarget _].
  rewrite (bind_ok _ _ _ _ _ (bind_optimizer_built run net o s1 Hb)).
  rewrite (bind_ok _ _ _ _ _ (bind_scheduler_off run _ Hoff)), bind_get.
  set (s2 := set_optimizer (Some o) s1).
  assert (Hready : run_ready c tdl vdl (S net) o s2).
  { subst s2 s1 net s0. unfold run_ready.
    cbn [set_self set_heap set_trace set_optimizer self heap optimizer cfg
         train_loader val_loader with_lr].
    rewrite length_app. simpl. repeat split; try assumption. lia. }
  destruct (returns_for (run_ready c tdl vdl (S net) o)
              (range (start_epoch (self s2)) (tr_epoch (cfg_train (cfg (self s2)))))
              (epoch_body P run net)
              (epoch_body_completes P run net c tdl vdl (S net) o Hoff
                 ltac:(lia) ltac:(lia) unshuffled nonempty interval_nonzero)
              s2 Hready)
    as ([] & s3 & Hloop & (Hc3 & Htl3 & Hvl3 & _) & _).
  rewrite (bind_ok _ _ _ _ _ Hloop), bind_emit.
  eexists. split; [reflexivity |].
  unfold sweep_ready. cbn [set_self set_trace self with_best_acc cfg train_loader
                           val_loader].
  repeat split; assumption.
Qed.

(** X18. A sweep that is set up as follows completes: no pretrained path
    is configured, the save interval is not 0, the training loader does not
    shuffle and its dataset is not empty, the validation loader is set, and
    every run has the kind 'SGD' or 'Adam' and does not ask for [reduce_lr].
    Then [train] returns: none of its own statements raises (no unbound
    name, no exhausted iterator, no division by zero, no missing directory),
    as long as the collaborators return. *)
Theorem train_completes (s : State) :
  sweep_ready c tdl vdl s →
  Forall (λ run, (run_optim run = "SGD" ∨ run_optim run = "Adam")
                 ∧ getattr_flag (run_reduce_lr run) = false) (runs (self s)) →
  ∃ s', train P s = (Ok tt, s').
Proof.
  intros Hready Hruns. unfold train. rewrite bind_get, bind_emit.
  set (s0 := set_trace _ s).
  assert (H0 : sweep_ready c tdl vdl s0) by exact Hready.
  assert (Hloop : ∃ s1, for_ (runs (self s)) (run_body P) s0 = (Ok tt, s1)).
  { clearbody s0. revert s0 H0.
    induction Hruns as [| run l [Hkind Hoff] _ IH]; intros s0 H0; simpl.
    - eexists. reflexivity.
    - destruct (run_body_completes run s0 Hkind Hoff H0) as (s1 & Hrun & H1).
      rewrite (bind_ok _ _ _ _ _ Hrun). apply IH, H1. }
  destruct Hloop as [s1 Hloop]. rewrite (bind_ok _ _ _ _ _ Hloop).
  eexists. reflexivity.
Qed.

End SweepCompletes.

Lemma train_completes_witness :
  let s := Demo.started (Demo.config 2 1 "" ["SGD"; "Adam"]) ∅ in
  ∃ s', train Demo.providers s = (Ok tt, s').
Proof.
  intros s.
  apply (train_completes Demo.providers (Demo.config 2 1 "" ["SGD"; "Adam"])
           (mkDataLoader (mkDataset Demo.samples 2) false 2 0)
           (mkDataLoader (mkDataset Demo.samples 2) false 2 0)).
  - reflexivity.
  - simpl. lia.
  - reflexivity.
  - discriminate.
  - repeat split.
  - constructor; [split; [left; reflexivity | reflexivity] |].
    constructor; [split; [right; reflexivity | reflexivity] |].
    constructor.
Defined.
